(** * simple-dynamo-wrapper: the expression builders, embedded and verified

    A shallow embedding of the command builders of the repository
    (filter compiler, key-condition compiler, update compiler, reserved-word
    aliasing, value coercion) and the properties the specification states
    about them.

    Conventions of the embedding.
    - A JavaScript string is a [string]; letter case, white space and word
      characters are those of the ASCII range, and every byte above 127 is
      an ordinary non-word, non-space character that has no other letter
      case.
    - A JavaScript number is a binary64 [float]; [Number(...)], [JSON.parse]
      and base64 decoding are builtins of the host and are taken as section
      variables.
    - A JavaScript object used as a record of placeholders is an association
      list in property enumeration order, with unique keys.
    - A function that may throw returns a [result]. *)

From Stdlib Require Import String Ascii List Bool Arith Lia ZArith.
From Stdlib Require Import PrimFloat Uint63.
From Stdlib Require Import DecimalString DecimalNat FinFun.
Import ListNotations.

Local Open Scope list_scope.
Local Open Scope string_scope.

Set Implicit Arguments.
Set Warnings "-register-all".

(* ================================================================== *)
(** * Exceptions and the error monad *)
(* ================================================================== *)

(** The exceptions the builders raise: a plain [Error], the [TypeError] of
    the runtime, the library's [QueryParseError] with its HTTP status, and
    the validation error of a schema [parse] (its issue list is not
    modelled). *)
Inductive exn : Type :=
| Error (message : string)
| TypeError (message : string)
| QueryParseError (message : string) (status : Z)
| ZodError.

Inductive result (A : Type) : Type :=
| Ok (a : A)
| Throw (e : exn).

Arguments Ok {A} a.
Arguments Throw {A} e.

Definition bind {A B : Type} (r : result A) (k : A -> result B) : result B :=
  match r with
  | Ok a => k a
  | Throw e => Throw e
  end.

Notation "x <- r ;; k" := (bind r (fun x => k))
  (at level 61, r at next level, right associativity).
Notation "' p <- r ;; k" := (bind r (fun p => k))
  (at level 61, p pattern, r at next level, right associativity).

Definition is_ok {A : Type} (r : result A) : bool :=
  match r with Ok _ => true | Throw _ => false end.

(* ================================================================== *)
(** * Strings as the runtime sees them *)
(* ================================================================== *)

Module Str.

Definition dquote : string := String (ascii_of_nat 34) EmptyString.

(** Decimal rendering of a loop index inside a template literal. *)
Definition of_nat (n : nat) : string :=
  NilEmpty.string_of_uint (Nat.to_uint n).

Definition in_range (lo hi : nat) (c : ascii) : bool :=
  Nat.leb lo (nat_of_ascii c) && Nat.leb (nat_of_ascii c) hi.

Definition is_lower (c : ascii) : bool := in_range 97 122 c.
Definition is_upper (c : ascii) : bool := in_range 65 90 c.
Definition is_digit (c : ascii) : bool := in_range 48 57 c.

(** [\w] of a regular expression without the unicode flag. *)
Definition is_word (c : ascii) : bool :=
  is_lower c || is_upper c || is_digit c || Nat.eqb (nat_of_ascii c) 95.

(** White space of [trim] and of [\s], on the ASCII range:
    TAB, LF, VT, FF, CR and SPACE. *)
Definition is_space (c : ascii) : bool :=
  in_range 9 13 c || Nat.eqb (nat_of_ascii c) 32.

Definition upper_char (c : ascii) : ascii :=
  if is_lower c then ascii_of_nat (nat_of_ascii c - 32) else c.

Definition lower_char (c : ascii) : ascii :=
  if is_upper c then ascii_of_nat (nat_of_ascii c + 32) else c.

Fixpoint map_chars (f : ascii -> ascii) (s : string) : string :=
  match s with
  | EmptyString => EmptyString
  | String c s' => String (f c) (map_chars f s')
  end.

Definition toUpperCase : string -> string := map_chars upper_char.
Definition toLowerCase : string -> string := map_chars lower_char.

Fixpoint trimStart (s : string) : string :=
  match s with
  | EmptyString => EmptyString
  | String c s' => if is_space c then trimStart s' else s
  end.

Fixpoint trimEnd (s : string) : string :=
  match s with
  | EmptyString => EmptyString
  | String c s' =>
      match trimEnd s' with
      | EmptyString => if is_space c then EmptyString else String c EmptyString
      | r => String c r
      end
  end.

Definition trim (s : string) : string := trimEnd (trimStart s).

(** [s.split(c)] for a one-character separator: never empty,
    [''.split(',')] is [['']]. *)
Fixpoint split (sep : ascii) (s : string) : list string :=
  match s with
  | EmptyString => [EmptyString]
  | String c s' =>
      if Ascii.eqb c sep then EmptyString :: split sep s'
      else match split sep s' with
           | h :: t => String c h :: t
           | [] => [String c EmptyString]
           end
  end.

Definition join (sep : string) (l : list string) : string := String.concat sep l.

Definition startsWith (s p : string) : bool := String.prefix p s.

(** [s.slice(1)] *)
Definition slice1 (s : string) : string :=
  match s with
  | EmptyString => EmptyString
  | String _ s' => s'
  end.

(** [s.includes(c)] for a one-character needle. *)
Fixpoint includes (s : string) (c : ascii) : bool :=
  match s with
  | EmptyString => false
  | String a s' => Ascii.eqb a c || includes s' c
  end.

(** [l.includes(s)] and [set.has(s)] on strings. *)
Definition mem (s : string) (l : list string) : bool :=
  existsb (String.eqb s) l.

(** Truthiness of a string: the empty string is falsy. *)
Definition truthy (s : string) : bool := negb (String.eqb s EmptyString).

(** Truthiness of an optional string property: [undefined] and [''] are falsy. *)
Definition otruthy (o : option string) : bool :=
  match o with
  | Some s => truthy s
  | None => false
  end.

End Str.

(* ================================================================== *)
(** * Runtime values and objects *)
(* ================================================================== *)

(** The values a placeholder can be bound to. *)
Inductive jsval : Type :=
| VUndefined
| VNull
| VBool (b : bool)
| VNum (n : float)
| VStr (s : string)
| VBuffer (bytes : string)
| VArr (items : list jsval)
| VObj (fields : list (string * jsval)).

Definition is_undefined (v : jsval) : bool :=
  match v with VUndefined => true | _ => false end.

(** [Number.isFinite] and the global [isNaN] on a number. *)
Definition Number_isFinite (n : float) : bool := PrimFloat.is_finite n.
Definition isNaN (n : float) : bool := PrimFloat.is_nan n.


(** [array.push(x)] *)
Definition push {A : Type} (l : list A) (x : A) : list A := (l ++ [x])%list.

(** A JavaScript object as an association list in enumeration order. *)
Definition obj (V : Type) : Type := list (string * V).

Module Obj.

Section Ops.
Context {V : Type}.

(** [o[k]]: [None] when [o] has no property [k]. *)
Fixpoint get (o : obj V) (k : string) : option V :=
  match o with
  | [] => None
  | (k', v) :: o' => if String.eqb k' k then Some v else get o' k
  end.

(** [k in o] *)
Definition has (o : obj V) (k : string) : bool :=
  match get o k with Some _ => true | None => false end.

(** [o[k] = v]: an existing property keeps its place, a new one goes last. *)
Fixpoint set (o : obj V) (k : string) (v : V) : obj V :=
  match o with
  | [] => [(k, v)]
  | (k', v') :: o' =>
      if String.eqb k' k then (k', v) :: o' else (k', v') :: set o' k v
  end.

(** [{ ...o, ...extra }] and [for (k in extra) o[k] = extra[k]]. *)
Definition assign (o extra : obj V) : obj V :=
  fold_left (fun acc kv => set acc (fst kv) (snd kv)) extra o.

(** [Object.keys(o)] *)
Definition keys (o : obj V) : list string := map fst o.

Definition is_empty (o : obj V) : bool :=
  match o with [] => true | _ => false end.

End Ops.

(** Spreading an optional object: [...(o ?? {})] and [...(o || {})]. *)
Definition or_empty {V : Type} (o : option (obj V)) : obj V :=
  match o with Some x => x | None => [] end.

End Obj.

(* ================================================================== *)
(** * Key-condition compiler (utils/query-request/comparator.ts) *)
(* ================================================================== *)

(** [DynamoQueryRequest] as the compiler receives it.  Key types and the
    comparator are the strings the code switches on. *)
Record DynamoQueryRequest : Type := {
  pKey : string;
  pKeyType : string;
  pKeyProp : string;
  sKey : option string;
  sKeyType : option string;
  sKeyProp : option string;
  skValue2 : option string;
  skValue2Type : option string;
  skComparator : option string;
  indexName : option string;
  limit : option Z;
  lastEvaluatedKey : option (obj jsval);
  sorting : option string
}.

Module KeyCondition.

(** The spellings [getOperatorSymbolByKey] has a [case] for, after
    [toUpperCase]. *)
Definition spellings : list string :=
  ["BETWEEN"; "BEGINS_WITH"; "GREATER_THAN"; ">"; "LESS_THAN"; "<";
   "GREATER_THAN_OR_EQUAL"; ">="; "LESS_THAN_OR_EQUAL"; "<="; "EQUAL"; "="].

(** A comparator spelling is recognized when its upper-cased form is one of
    the symbolic or verbose forms. *)
Definition recognized (operation : string) : bool :=
  Str.mem (Str.toUpperCase operation) spellings.

Definition getOperatorSymbolByKey (operation : string) : result string :=
  let u := Str.toUpperCase operation in
  if String.eqb u "BETWEEN" then Ok "BETWEEN"
  else if String.eqb u "BEGINS_WITH" then Ok "BEGINS_WITH"
  else if String.eqb u "GREATER_THAN" || String.eqb u ">" then Ok ">"
  else if String.eqb u "LESS_THAN" || String.eqb u "<" then Ok "<"
  else if String.eqb u "GREATER_THAN_OR_EQUAL" || String.eqb u ">=" then Ok ">="
  else if String.eqb u "LESS_THAN_OR_EQUAL" || String.eqb u "<=" then Ok "<="
  else if String.eqb u "EQUAL" || String.eqb u "=" then Ok "="
  else Throw (Error ("Invalid operation key: " ++ operation)).

Definition createKeyConditionExpression (queryRequest : DynamoQueryRequest)
  : result string :=
  let keyConditionExpression := "#pk = :pk" in
  if negb (Str.otruthy (sKey queryRequest)) then Ok keyConditionExpression
  else
    symbol <- getOperatorSymbolByKey
                (match skComparator queryRequest with
                 | Some c => c
                 | None => "="
                 end) ;;
    if String.eqb symbol "<" then Ok (keyConditionExpression ++ " AND #sk < :sk")
    else if String.eqb symbol ">" then Ok (keyConditionExpression ++ " AND #sk > :sk")
    else if String.eqb symbol "<=" then Ok (keyConditionExpression ++ " AND #sk <= :sk")
    else if String.eqb symbol ">=" then Ok (keyConditionExpression ++ " AND #sk >= :sk")
    else if String.eqb symbol "BEGINS_WITH" then
      if negb (Str.otruthy (sKey queryRequest))
      then Throw (Error "BEGINS_WITH operation requires sortKey.")
      else Ok (keyConditionExpression ++ " AND begins_with(#sk, :skValue2)")
    else if String.eqb symbol "BETWEEN" then
      if negb (Str.otruthy (sKey queryRequest)) || negb (Str.otruthy (skValue2 queryRequest))
      then Throw (Error "BETWEEN operation requires both sk and skValue2.")
      else Ok (keyConditionExpression ++ " AND #sk BETWEEN :sk AND :skValue2")
    else Ok (keyConditionExpression ++ " AND #sk = :sk").

End KeyCondition.

(* ================================================================== *)
(** * Filter compiler (filters/filter-expression.ts) *)
(* ================================================================== *)

Module Filter.

(** [DynamoFilterValueType]: the tags ['S'], ['N'], ['BOOL'], ['NULL'],
    ['SS'], ['NS']. *)
Inductive DynamoFilterValueType : Type :=
| T_S | T_N | T_BOOL | T_NULL | T_SS | T_NS.

Definition type_tag (t : DynamoFilterValueType) : string :=
  match t with
  | T_S => "S" | T_N => "N" | T_BOOL => "BOOL"
  | T_NULL => "NULL" | T_SS => "SS" | T_NS => "NS"
  end.

Definition is_set_type (t : DynamoFilterValueType) : bool :=
  match t with T_SS | T_NS => true | _ => false end.

(** [DynamoFilterCondition]; [UNKNOWN s] is a string outside the union that
    reaches the compiler through a cast. *)
Inductive DynamoFilterCondition : Type :=
| EQUAL_TO | NOT_EQUAL_TO | LESS_THAN | LESS_THAN_OR_EQUAL_TO
| GREATER_THAN | GREATER_THAN_OR_EQUAL_TO
| EXISTS | NOT_EXISTS | BEGINS_WITH | CONTAINS | NOT_CONTAINS | BETWEEN
| UNKNOWN (s : string).

Definition condition_tag (c : DynamoFilterCondition) : string :=
  match c with
  | EQUAL_TO => "EQUAL_TO" | NOT_EQUAL_TO => "NOT_EQUAL_TO"
  | LESS_THAN => "LESS_THAN" | LESS_THAN_OR_EQUAL_TO => "LESS_THAN_OR_EQUAL_TO"
  | GREATER_THAN => "GREATER_THAN"
  | GREATER_THAN_OR_EQUAL_TO => "GREATER_THAN_OR_EQUAL_TO"
  | EXISTS => "EXISTS" | NOT_EXISTS => "NOT_EXISTS"
  | BEGINS_WITH => "BEGINS_WITH" | CONTAINS => "CONTAINS"
  | NOT_CONTAINS => "NOT_CONTAINS" | BETWEEN => "BETWEEN"
  | UNKNOWN s => s
  end.

(** [DynamoFilter]: an absent optional property is [None]. *)
Record DynamoFilter : Type := {
  name : string;
  type : DynamoFilterValueType;
  condition : DynamoFilterCondition;
  value : option string;
  value2 : option string;
  values : option (list string)
}.

Record GeneratedDynamoFilterAttributes : Type := {
  filterExpression : string;
  expressionAttributeNames : obj string;
  expressionAttributeValues : obj jsval
}.

(** The three accumulators of the compiling loop. *)
Record accumulators : Type := {
  names : obj string;
  vals : obj jsval;
  parts : list string
}.

Definition makeNameToken (i : nat) : string := "#f" ++ Str.of_nat i.
Definition makeValueToken (i : nat) (suffix : string) : string :=
  ":f" ++ Str.of_nat i ++ suffix.

Definition requireValue (f : DynamoFilter) (i : nat) : result string :=
  match value f with
  | Some v => Ok v
  | None =>
      Throw (Error (condition_tag (condition f) ++ " requires value for filter["
                    ++ Str.of_nat i ++ "]"))
  end.

Definition invalid_numeric (raw suffix : string) : exn :=
  Error ("Invalid numeric value " ++ Str.dquote ++ raw ++ Str.dquote ++ suffix).

Definition invalid_boolean (raw : string) : exn :=
  Error ("Invalid boolean value " ++ Str.dquote ++ raw ++ Str.dquote
         ++ " for type BOOL").

Section WithNumber.

(** The host's [Number(string)] conversion. *)
Variable Number : string -> float.

Definition parseValueByType (t : DynamoFilterValueType) (raw : string)
  : result jsval :=
  match t with
  | T_S => Ok (VStr raw)
  | T_N =>
      let n := Number raw in
      if negb (Number_isFinite n) then Throw (invalid_numeric raw " for type N")
      else Ok (VNum n)
  | T_BOOL =>
      let normalized := Str.toLowerCase (Str.trim raw) in
      if String.eqb normalized "true" || String.eqb normalized "1"
      then Ok (VBool true)
      else if String.eqb normalized "false" || String.eqb normalized "0"
      then Ok (VBool false)
      else Throw (invalid_boolean raw)
  | T_NULL => Ok VNull
  | _ => Ok (VStr raw)
  end.

(** [parseValueByType(type, filter.value!)] when [filter.value] is
    [undefined] at run time: [Number(undefined)] is NaN and
    [undefined.trim()] is a [TypeError]. *)
Definition parseValueByType_undefined (t : DynamoFilterValueType)
  : result jsval :=
  match t with
  | T_S => Ok VUndefined
  | T_N => Throw (invalid_numeric "undefined" " for type N")
  | T_BOOL =>
      Throw (TypeError "Cannot read properties of undefined (reading 'trim')")
  | T_NULL => Ok VNull
  | _ => Ok VUndefined
  end.

Definition parseSetElement (t : DynamoFilterValueType) (raw : string)
  : result jsval :=
  match t with
  | T_SS => Ok (VStr raw)
  | T_NS =>
      let n := Number raw in
      if negb (Number_isFinite n)
      then Throw (invalid_numeric raw " for type NS element")
      else Ok (VNum n)
  | _ => parseValueByType t raw
  end.

(** The inner [for (let j = 0; j < vals.length; j++)] of the set paths. *)
Fixpoint containsLoop (t : DynamoFilterValueType) (nameToken : string)
    (i j : nat) (rest : list string) (eav : obj jsval) (orParts : list string)
  : result (obj jsval * list string) :=
  match rest with
  | [] => Ok (eav, orParts)
  | raw :: rest' =>
      let tok := makeValueToken i ("vs" ++ Str.of_nat j) in
      v <- parseSetElement t raw ;;
      containsLoop t nameToken i (S j) rest' (Obj.set eav tok v)
        (push orParts ("contains(" ++ nameToken ++ ", " ++ tok ++ ")"))
  end.

Definition requires_values (c : DynamoFilterCondition)
    (t : DynamoFilterValueType) (i : nat) : exn :=
  Error (condition_tag c ++ " with " ++ type_tag t
         ++ " requires values[] (non-empty) for filter[" ++ Str.of_nat i ++ "]").

Definition comparison_operator (c : DynamoFilterCondition) : string :=
  match c with
  | EQUAL_TO => "="
  | NOT_EQUAL_TO => "<>"
  | LESS_THAN => "<"
  | LESS_THAN_OR_EQUAL_TO => "<="
  | GREATER_THAN => ">"
  | _ => ">="
  end.


(** One iteration of [for (let i = 0; i < filters.length; i++)]: the body of
    the loop on filter [i], from the accumulators before it to those after
    it, or the exception it throws. *)
Definition compileFilter (i : nat) (filter : DynamoFilter) (a : accumulators)
  : result accumulators :=
  let nameToken := makeNameToken i in
  let names' := Obj.set (names a) nameToken (name filter) in
  let t := type filter in
  match condition filter with
  | EXISTS =>
      Ok {| names := names'; vals := vals a;
            parts := push (parts a) ("(attribute_exists(" ++ nameToken ++ "))") |}
  | NOT_EXISTS =>
      Ok {| names := names'; vals := vals a;
            parts := push (parts a)
                       ("(attribute_not_exists(" ++ nameToken ++ "))") |}
  | BEGINS_WITH =>
      match t with
      | T_S =>
          let value := makeValueToken i "v" in
          raw <- requireValue filter i ;;
          v <- parseValueByType t raw ;;
          Ok {| names := names'; vals := Obj.set (vals a) value v;
                parts := push (parts a)
                           ("begins_with(" ++ nameToken ++ ", " ++ value ++ ")") |}
      | _ =>
          Throw (Error ("BEGINS_WITH is only valid for type S (filter["
                        ++ Str.of_nat i ++ "] has type " ++ type_tag t ++ ")"))
      end
  | CONTAINS =>
      if is_set_type t then
        match values filter with
        | None | Some [] => Throw (requires_values CONTAINS t i)
        | Some l =>
            '(eav, orParts) <- containsLoop t nameToken i 0 l (vals a) [] ;;
            Ok {| names := names'; vals := eav;
                  parts := push (parts a)
                    ("(" ++ match orParts with
                            | [p] => p
                            | _ => "(" ++ Str.join " OR " orParts ++ ")"
                            end ++ ")") |}
        end
      else
        let value := makeValueToken i "v" in
        v <- match Filter.value filter with
             | Some raw => parseValueByType t raw
             | None => parseValueByType_undefined t
             end ;;
        Ok {| names := names'; vals := Obj.set (vals a) value v;
              parts := push (parts a)
                         ("(contains(" ++ nameToken ++ ", " ++ value ++ "))") |}
  | NOT_CONTAINS =>
      if is_set_type t then
        match values filter with
        | None | Some [] => Throw (requires_values NOT_CONTAINS t i)
        | Some l =>
            '(eav, orParts) <- containsLoop t nameToken i 0 l (vals a) [] ;;
            Ok {| names := names'; vals := eav;
                  parts := push (parts a)
                    ("(NOT (" ++ Str.join " OR " orParts ++ "))") |}
        end
      else
        let value := makeValueToken i "v" in
        raw <- requireValue filter i ;;
        v <- parseValueByType t raw ;;
        Ok {| names := names'; vals := Obj.set (vals a) value v;
              parts := push (parts a)
                         ("NOT contains(" ++ nameToken ++ ", " ++ value ++ ")") |}
  | BETWEEN =>
      match Filter.value filter, value2 filter with
      | Some raw1, Some raw2 =>
          match t with
          | T_SS | T_NS | T_BOOL | T_NULL =>
              Throw (Error ("BETWEEN is not valid for type " ++ type_tag t
                            ++ " (filter[" ++ Str.of_nat i ++ "])"))
          | _ =>
              let v1 := makeValueToken i "v" in
              let v2 := makeValueToken i "v2" in
              x1 <- parseValueByType t raw1 ;;
              x2 <- parseValueByType t raw2 ;;
              Ok {| names := names';
                    vals := Obj.set (Obj.set (vals a) v1 x1) v2 x2;
                    parts := push (parts a)
                      ("(" ++ nameToken ++ " BETWEEN " ++ v1 ++ " AND " ++ v2
                       ++ ")") |}
          end
      | _, _ =>
          Throw (Error ("BETWEEN requires value and value2 for filter["
                        ++ Str.of_nat i ++ "]"))
      end
  | UNKNOWN s => Throw (Error ("Unsupported filter condition: " ++ s))
  | c =>
      if is_set_type t then
        Throw (Error ("Comparator " ++ Str.dquote ++ condition_tag c
                      ++ Str.dquote ++ " is not supported for " ++ type_tag t
                      ++ "; use CONTAINS/NOT_CONTAINS"))
      else
        let v := makeValueToken i "v" in
        raw <- requireValue filter i ;;
        x <- parseValueByType t raw ;;
        let op := comparison_operator c in
        Ok {| names := names'; vals := Obj.set (vals a) v x;
              parts := push (parts a)
                         ("(" ++ nameToken ++ " " ++ op ++ " " ++ v ++ ")") |}
  end.

(** The loop itself, from index [i] on. *)
Fixpoint compileFrom (i : nat) (filters : list DynamoFilter) (a : accumulators)
  : result accumulators :=
  match filters with
  | [] => Ok a
  | filter :: rest =>
      a' <- compileFilter i filter a ;;
      compileFrom (S i) rest a'
  end.

(** [generateDynamoFilterAttributes]; the [catch] only logs and rethrows. *)
Definition generateDynamoFilterAttributes (filters : list DynamoFilter)
  : result (option GeneratedDynamoFilterAttributes) :=
  match filters with
  | [] => Ok None
  | _ =>
      a <- compileFrom 0 filters {| names := []; vals := []; parts := [] |} ;;
      Ok (Some {| filterExpression := Str.join " AND " (parts a);
                  expressionAttributeNames := names a;
                  expressionAttributeValues := vals a |})
  end.

End WithNumber.

End Filter.

(* ================================================================== *)
(** * Key value coercion ([parseDynamoKeyValue]) *)
(* ================================================================== *)

Module KeyValue.

Section WithBuiltins.

Variable Number : string -> float.
(** [JSON.parse]: [None] when it throws. *)
Variable JSON_parse : string -> option jsval.
(** [Buffer.from(s, 'base64')] *)
Variable Buffer_from_base64 : string -> string.

Definition parseDynamoKeyValue (key keyType : string) : result jsval :=
  if String.eqb keyType "S" then Ok (VStr key)
  else if String.eqb keyType "N" then Ok (VNum (Number key))
  else if String.eqb keyType "BOOL"
  then Ok (VBool (String.eqb (Str.toLowerCase key) "true"))
  else if String.eqb keyType "NULL" then Ok VNull
  else if String.eqb keyType "M" then
    match JSON_parse key with
    | Some v => Ok v
    | None => Throw (Error "Invalid JSON format for partitionKeyType M (Map)")
    end
  else if String.eqb keyType "L" then
    match JSON_parse key with
    | Some v => Ok v
    | None => Throw (Error "Invalid JSON format for partitionKeyType L (List)")
    end
  else if String.eqb keyType "SS" then
    Ok (VArr (map (fun item => VStr (Str.trim item)) (Str.split "," key)))
  else if String.eqb keyType "NS" then
    Ok (VArr (map VNum
                (filter (fun num => negb (isNaN num))
                   (map (fun item => Number (Str.trim item))
                      (Str.split "," key)))))
  else if String.eqb keyType "BS" then
    Ok (VArr (map (fun item => VBuffer (Buffer_from_base64 (Str.trim item)))
                (Str.split "," key)))
  else Throw (Error ("Unsupported partitionKeyType: " ++ keyType)).

End WithBuiltins.

End KeyValue.

(* ================================================================== *)
(** * Reserved-word aliasing *)
(* ================================================================== *)

Module Reserved.

(** Case-insensitive match of the literal [kw] at the head of [s] (flag [i]
    on ASCII letters): the matched text and what follows it. *)
Fixpoint match_literal (kw s : string) : option (string * string) :=
  match kw with
  | EmptyString => Some (EmptyString, s)
  | String k kw' =>
      match s with
      | EmptyString => None
      | String c s' =>
          if Ascii.eqb (Str.lower_char k) (Str.lower_char c) then
            match match_literal kw' s' with
            | Some (m, rest) => Some (String c m, rest)
            | None => None
            end
          else None
      end
  end.

Definition word_before (prev : option ascii) : bool :=
  match prev with Some c => Str.is_word c | None => false end.

Definition word_after (s : string) : bool :=
  match s with String c _ => Str.is_word c | EmptyString => false end.

(** The assertion [\b] between the character [prev] and the text [s]. *)
Definition boundary (prev : option ascii) (s : string) : bool :=
  xorb (word_before prev) (word_after s).

(** The lookahead [(?=\s*=)]. *)
Fixpoint followed_by_equals (s : string) : bool :=
  match s with
  | EmptyString => false
  | String c s' =>
      if Ascii.eqb c "=" then true
      else if Str.is_space c then followed_by_equals s'
      else false
  end.

Fixpoint last_char (prev : option ascii) (m : string) : option ascii :=
  match m with
  | EmptyString => prev
  | String c m' => last_char (Some c) m'
  end.

(** The alternation [(?:k1|k2|...)] followed by [\b(?=\s*=)]: the first
    alternative, in order, after which the rest of the pattern matches. *)
Fixpoint match_alternatives (kws : list string) (prev : option ascii)
    (s : string) : option string :=
  match kws with
  | [] => None
  | kw :: kws' =>
      match match_literal kw s with
      | Some (m, rest) =>
          if boundary (last_char prev m) rest && followed_by_equals rest
          then Some m
          else match_alternatives kws' prev s
      | None => match_alternatives kws' prev s
      end
  end.

(** A match of [UPDATE_RESERVED_REGEX] starting between [prev] and [s]. *)
Definition match_here (kws : list string) (prev : option ascii) (s : string)
  : option string :=
  if boundary prev s then match_alternatives kws prev s else None.

(** [s.replace(regex, m => '#' + m)] with the flag [g]: scan left to right;
    [skip] counts the characters of the current match still to be copied. *)
Fixpoint replace_from (kws : list string) (prev : option ascii) (s : string)
    (skip : nat) : string :=
  match s with
  | EmptyString => EmptyString
  | String c s' =>
      match skip with
      | S k => String c (replace_from kws (Some c) s' k)
      | O =>
          match match_here kws prev s with
          | Some m =>
              String "#" (String c (replace_from kws (Some c) s'
                                      (String.length m - 1)))
          | None => String c (replace_from kws (Some c) s' 0)
          end
      end
  end.

Section WithKeywords.

(** [RESERVED_KEYWORDS_SET] in iteration order; the module that defines it
    (reserved-keywords-data) is not among the sources. Its members are
    lower-case words of letters, so that joining them with [|] yields the
    alternation modelled above. *)
Variable RESERVED_KEYWORDS : list string.

Definition replaceReservedKeywordsFromUpdateExp (updateExpression : string)
  : string :=
  replace_from RESERVED_KEYWORDS None updateExpression 0.

Definition replaceReservedKeywordsFromProjection (projection : string)
  : string :=
  Str.join ", "
    (map (fun item =>
            let trimmed := Str.trim item in
            if negb (Str.truthy trimmed) then trimmed
            else if Str.mem (Str.toLowerCase trimmed) RESERVED_KEYWORDS
                 then "#" ++ trimmed
                 else trimmed)
       (Str.split "," projection)).

End WithKeywords.

End Reserved.

(* ================================================================== *)
(** * Name extraction (utils/expression-attribute-names.ts) *)
(* ================================================================== *)

Module Names.

Definition extractExpAttributeNamesFromExpression (expression : string)
  : obj string :=
  fold_left
    (fun result raw =>
       let attr := Str.trim raw in
       if Str.startsWith attr "#" then Obj.set result attr (Str.slice1 attr)
       else result)
    (Str.split "," expression) [].

(** [expression.replace(/^\s*SET\s+/i, '')] *)
Definition strip_SET (expression : string) : string :=
  match Reserved.match_literal "SET" (Str.trimStart expression) with
  | Some (_, String c rest) =>
      if Str.is_space c then Str.trimStart rest else expression
  | _ => expression
  end.

Definition extractExpAttributeNamesFromUpdateExp (expression : string)
  : obj string :=
  let body := Str.trim (strip_SET expression) in
  if negb (Str.truthy body) then []
  else
    fold_left
      (fun result assignment =>
         let leftSide := Str.trim (hd EmptyString (Str.split "=" assignment)) in
         if negb (Str.truthy leftSide) || negb (Str.startsWith leftSide "#")
         then result
         else Obj.set result leftSide (Str.slice1 leftSide))
      (Str.split "," body) [].

End Names.

(* ================================================================== *)
(** * Query command builder ([buildQueryCommandInput]) *)
(* ================================================================== *)

Module Query.

(** What [dynamoQueryRequestSch] checks on a request, after its
    preprocessing has trimmed the strings and dropped the empty ones. *)
Definition key_type_ok (t : string) : bool := Str.mem t ["S"; "N"; "B"].

Definition opt_ok {A : Type} (ok : A -> bool) (o : option A) : bool :=
  match o with Some a => ok a | None => true end.

Definition some {A : Type} (o : option A) : bool :=
  match o with Some _ => true | None => false end.

Definition comparators : list string :=
  ["="; "<"; "<="; ">"; ">="; "BETWEEN"; "BEGINS_WITH"].

Definition shape_ok (q : DynamoQueryRequest) : bool :=
  Str.truthy (pKey q) && key_type_ok (pKeyType q) && Str.truthy (pKeyProp q)
  && opt_ok key_type_ok (sKeyType q)
  && opt_ok key_type_ok (skValue2Type q)
  && opt_ok (fun c => Str.mem c comparators) (skComparator q)
  && opt_ok (fun l => Z.ltb 0 l) (limit q)
  && opt_ok (fun o => Str.mem o ["ASC"; "DESC"]) (sorting q).

(** The [superRefine] of the schema: [true] when it adds no issue. *)
Definition refine_ok (data : DynamoQueryRequest) : bool :=
  match skComparator data with
  | Some c =>
      (* every comparator of the enum is a non-empty string *)
      Str.otruthy (sKey data) && Str.otruthy (sKeyProp data)
      && some (sKeyType data)
      && (if String.eqb c "BETWEEN"
          then Str.otruthy (skValue2 data) && some (skValue2Type data)
          else negb (Str.otruthy (skValue2 data) || some (skValue2Type data)))
  | None =>
      negb (Str.otruthy (sKey data) || Str.otruthy (sKeyProp data)
            || some (sKeyType data) || Str.otruthy (skValue2 data)
            || some (skValue2Type data))
  end.

Definition dynamoQueryRequestSch (q : DynamoQueryRequest) : bool :=
  shape_ok q && refine_ok q.

Record CustomQueryCommandInput : Type := {
  tableName : string;
  queryRequest : DynamoQueryRequest;
  filterExpression : option string;
  extraExpAttributeNames : option (obj string);
  extraExpAttributeValues : option (obj jsval);
  projectionExpression : option string;
  scanIndexForward : option bool;
  returnConsumedCapacity : option string
}.

Record QueryCommandInput : Type := {
  TableName : string;
  IndexName : option string;
  KeyConditionExpression : string;
  FilterExpression : option string;
  ExpressionAttributeNames : obj string;
  ExpressionAttributeValues : obj jsval;
  ProjectionExpression : option string;
  ScanIndexForward : option bool;
  ReturnConsumedCapacity : option string;
  ExclusiveStartKey : option (obj jsval);
  Limit : option Z
}.

Section WithBuiltins.

Variable Number : string -> float.
Variable JSON_parse : string -> option jsval.
Variable Buffer_from_base64 : string -> string.
Variable RESERVED_KEYWORDS : list string.

Let parseDynamoKeyValue :=
  KeyValue.parseDynamoKeyValue Number JSON_parse Buffer_from_base64.

(** [...(cond && { [k]: v })]: nothing is spread when [cond] is falsy. *)
Definition spread_when {V : Type} (cond : bool) (o : obj V) : obj V :=
  if cond then o else [].

Definition buildQueryCommandInput (input : CustomQueryCommandInput)
  : result QueryCommandInput :=
  let queryRequest := queryRequest input in
  KeyConditionExpression <-
    KeyCondition.createKeyConditionExpression queryRequest ;;
  let ProjectionExpression :=
    match projectionExpression input with
    | Some p =>
        if Str.truthy p
        then Some (Reserved.replaceReservedKeywordsFromProjection
                     RESERVED_KEYWORDS p)
        else None
    | None => None
    end in
  let ExpressionAttributeNames :=
    Obj.assign
      (Obj.assign
         (Obj.assign [("#pk", pKeyProp queryRequest)]
            (match sKeyProp queryRequest with
             | Some prop => spread_when (Str.truthy prop) [("#sk", prop)]
             | None => []
             end))
         (match ProjectionExpression with
          | Some p =>
              spread_when (Str.truthy p)
                (Names.extractExpAttributeNamesFromExpression p)
          | None => []
          end))
      (Obj.or_empty (extraExpAttributeNames input)) in
  let sType := match sKeyType queryRequest with Some t => t | None => "S" end in
  pk <- parseDynamoKeyValue (pKey queryRequest) (pKeyType queryRequest) ;;
  skEntry <-
    match sKey queryRequest with
    | Some k =>
        if Str.truthy k
        then v <- parseDynamoKeyValue k sType ;; Ok [(":sk", v)]
        else Ok []
    | None => Ok []
    end ;;
  skValue2Entry <-
    match skValue2 queryRequest with
    | Some k =>
        if Str.truthy k
        then v <- parseDynamoKeyValue k sType ;; Ok [(":skValue2", v)]
        else Ok []
    | None => Ok []
    end ;;
  let ExpressionAttributeValues :=
    Obj.assign
      (Obj.assign (Obj.assign [(":pk", pk)] skEntry) skValue2Entry)
      (Obj.or_empty (extraExpAttributeValues input)) in
  Ok {| TableName := tableName input;
        IndexName := indexName queryRequest;
        KeyConditionExpression := KeyConditionExpression;
        FilterExpression := filterExpression input;
        ExpressionAttributeNames := ExpressionAttributeNames;
        ExpressionAttributeValues := ExpressionAttributeValues;
        ProjectionExpression := ProjectionExpression;
        ScanIndexForward :=
          match sorting queryRequest with
          | Some o => Some (String.eqb (Str.toUpperCase o) "ASC")
          | None => scanIndexForward input
          end;
        ReturnConsumedCapacity := returnConsumedCapacity input;
        ExclusiveStartKey := lastEvaluatedKey queryRequest;
        Limit := limit queryRequest |}.

End WithBuiltins.

End Query.

(* ================================================================== *)
(** * Scan command builder ([buildScanCommandInput]) *)
(* ================================================================== *)

Module Scan.

Import Filter.

(** [dynamoFilterSch]: the object shape, then its [superRefine]. *)
Definition hasValue (f : DynamoFilter) : bool := Query.some (value f).
Definition hasValue2 (f : DynamoFilter) : bool := Query.some (value2 f).
Definition hasValues (f : DynamoFilter) : bool :=
  match values f with Some (_ :: _) => true | _ => false end.

Definition filter_shape_ok (f : DynamoFilter) : bool :=
  Str.truthy (name f)
  && match condition f with UNKNOWN _ => false | _ => true end
  && Query.opt_ok (fun l => negb (Nat.eqb (List.length l) 0)
                            && forallb Str.truthy l) (values f).

Definition filter_refine_ok (f : DynamoFilter) : bool :=
  match condition f with
  | EXISTS | NOT_EXISTS => negb (hasValue f || hasValue2 f || hasValues f)
  | BETWEEN => hasValue f && hasValue2 f && negb (hasValues f)
  | _ =>
      if is_set_type (type f)
      then hasValues f && negb (hasValue f || hasValue2 f)
      else hasValue f && negb (hasValue2 f) && negb (hasValues f)
  end.

Definition dynamoFilterSch (f : DynamoFilter) : bool :=
  filter_shape_ok f && filter_refine_ok f.

Definition dynamoFiltersInputSch (filters : list DynamoFilter) : bool :=
  forallb dynamoFilterSch filters && Nat.leb (List.length filters) 50.

(** [CustomScanCommandInput]; the integer properties are integers. *)
Record CustomScanCommandInput : Type := {
  tableName : string;
  indexName : option string;
  filtersAttributes : option (list DynamoFilter);
  filterExpression : option string;
  projectionExpression : option string;
  expressionAttributeNames : option (obj string);
  expressionAttributeValues : option (obj jsval);
  extraExpAttributeNames : option (obj string);
  extraExpAttributeValues : option (obj jsval);
  limit : option Z;
  exclusiveStartKey : option (obj jsval);
  consistentRead : option bool;
  segment : option Z;
  totalSegments : option Z;
  returnConsumedCapacity : option string;
  returnItemCollectionMetrics : option string
}.

Definition scan_shape_ok (v : CustomScanCommandInput) : bool :=
  Query.opt_ok dynamoFiltersInputSch (filtersAttributes v)
  && Query.opt_ok (fun l => Z.ltb 0 l) (limit v)
  && Query.opt_ok (fun n => Z.leb 0 n) (segment v)
  && Query.opt_ok (fun n => Z.ltb 0 n) (totalSegments v)
  && Query.opt_ok (fun c => Str.mem c ["INDEXES"; "TOTAL"; "NONE"])
       (returnConsumedCapacity v)
  && Query.opt_ok (fun c => Str.mem c ["SIZE"; "NONE"])
       (returnItemCollectionMetrics v).

Definition scan_refine_ok (v : CustomScanCommandInput) : bool :=
  match segment v, totalSegments v with
  | Some seg, Some tot =>
      negb (Z.leb tot 0) && negb (Z.ltb seg 0 || Z.leb tot seg)
  | None, None => true
  | _, _ => false
  end
  && negb (Str.otruthy (indexName v)
           && match consistentRead v with Some true => true | _ => false end).

(** [customScanCommandInputSch.parse]: the input itself, or a [ZodError]. *)
Definition customScanCommandInputSch (custom : CustomScanCommandInput)
  : result CustomScanCommandInput :=
  if scan_shape_ok custom && scan_refine_ok custom then Ok custom
  else Throw ZodError.

Record ScanCommandInput : Type := {
  TableName : string;
  IndexName : option string;
  ProjectionExpression : option string;
  Limit : option Z;
  ExclusiveStartKey : option (obj jsval);
  ConsistentRead : option bool;
  Segment : option Z;
  TotalSegments : option Z;
  ReturnConsumedCapacity : option string;
  ReturnItemCollectionMetrics : option string;
  FilterExpression : option string;
  ExpressionAttributeNames : option (obj string);
  ExpressionAttributeValues : option (obj jsval)
}.

(** [mergeAttrNames] and [mergeAttrValues]. *)
Definition mergeAttr {V : Type} (base extra : option (obj V))
  : option (obj V) :=
  match base, extra with
  | None, None => None
  | _, _ => Some (Obj.assign (Obj.or_empty base) (Obj.or_empty extra))
  end.

(** The exception of the guard at the top of the builder. *)
Definition both_rejected : exn :=
  QueryParseError
    "Provide either filtersAttributes or filterExpression (not both)." 400.

Definition isNonEmptyObject {V : Type} (v : option (obj V)) : bool :=
  match v with Some (_ :: _) => true | _ => false end.

(** A truthy optional string, kept; [undefined] and [''] are dropped. *)
Definition keep_truthy (o : option string) : option string :=
  if Str.otruthy o then o else None.

Definition non_empty_filters (o : option (list DynamoFilter)) : bool :=
  match o with Some (_ :: _) => true | _ => false end.

Definition with_filter (input : ScanCommandInput) (fe : string)
    (n : option (obj string)) (v : option (obj jsval)) : ScanCommandInput :=
  {| TableName := TableName input; IndexName := IndexName input;
     ProjectionExpression := ProjectionExpression input;
     Limit := Limit input; ExclusiveStartKey := ExclusiveStartKey input;
     ConsistentRead := ConsistentRead input; Segment := Segment input;
     TotalSegments := TotalSegments input;
     ReturnConsumedCapacity := ReturnConsumedCapacity input;
     ReturnItemCollectionMetrics := ReturnItemCollectionMetrics input;
     FilterExpression := Some fe;
     ExpressionAttributeNames := n;
     ExpressionAttributeValues := v |}.


(** No filter at all: the merged maps are attached, and removed again when
    they are empty. *)
Definition drop_empty {V : Type} (o : option (obj V)) : option (obj V) :=
  match o with Some [] => None | _ => o end.

Definition without_filter (input : ScanCommandInput)
    (n : option (obj string)) (v : option (obj jsval)) : ScanCommandInput :=
  {| TableName := TableName input; IndexName := IndexName input;
     ProjectionExpression := ProjectionExpression input;
     Limit := Limit input; ExclusiveStartKey := ExclusiveStartKey input;
     ConsistentRead := ConsistentRead input; Segment := Segment input;
     TotalSegments := TotalSegments input;
     ReturnConsumedCapacity := ReturnConsumedCapacity input;
     ReturnItemCollectionMetrics := ReturnItemCollectionMetrics input;
     FilterExpression := None;
     ExpressionAttributeNames := drop_empty n;
     ExpressionAttributeValues := drop_empty v |}.

Section WithGenerator.

(** The imported [generateDynamoFilterAttributes] of the filters module. *)
Variable generateDynamoFilterAttributes :
  list DynamoFilter -> result (option GeneratedDynamoFilterAttributes).

Definition buildScanCommandInput (custom : CustomScanCommandInput)
  : result ScanCommandInput :=
  parsed <- customScanCommandInputSch custom ;;
  let manualFilterExpression := filterExpression parsed in
  let manualNames := expressionAttributeNames parsed in
  let manualValues := expressionAttributeValues parsed in
  (* Generate filter expressions from filter attributes *)
  if non_empty_filters (filtersAttributes parsed) then
    Throw (QueryParseError
             "Provide either filtersAttributes or filterExpression (not both)."
             400)
  else
    let both_segments :=
      Query.some (segment parsed) && Query.some (totalSegments parsed) in
    let input :=
      {| TableName := tableName parsed;
         IndexName := keep_truthy (indexName parsed);
         ProjectionExpression := keep_truthy (projectionExpression parsed);
         Limit := match limit parsed with
                  | Some l => if Z.eqb l 0 then None else Some l
                  | None => None
                  end;
         ExclusiveStartKey := exclusiveStartKey parsed;
         ConsistentRead := consistentRead parsed;
         Segment := if both_segments then segment parsed else None;
         TotalSegments := if both_segments then totalSegments parsed else None;
         ReturnConsumedCapacity := keep_truthy (returnConsumedCapacity parsed);
         ReturnItemCollectionMetrics :=
           keep_truthy (returnItemCollectionMetrics parsed);
         FilterExpression := None;
         ExpressionAttributeNames := None;
         ExpressionAttributeValues := None |} in
    (* Auto-generated filterAttributes path *)
    if non_empty_filters (filtersAttributes parsed) then
      generated <- generateDynamoFilterAttributes
                     (match filtersAttributes parsed with
                      | Some l => l
                      | None => []
                      end) ;;
      match generated with
      | None =>
          Throw (QueryParseError
                   "Failed to generate filter expression from filtersAttributes."
                   400)
      | Some g =>
          if negb (Str.truthy (Filter.filterExpression g)) then
            Throw (QueryParseError "Generated filterExpression is empty." 400)
          else
            Ok (with_filter input (Filter.filterExpression g)
                  (mergeAttr (Some (Filter.expressionAttributeNames g))
                     (extraExpAttributeNames parsed))
                  (mergeAttr (Some (Filter.expressionAttributeValues g))
                     (extraExpAttributeValues parsed)))
      end
    else
      (* Manual filterExpression path *)
      match manualFilterExpression with
      | Some fe =>
          if Str.truthy fe then
            let needsNames := Str.includes fe "#" in
            let needsValues := Str.includes fe ":" in
            let mergedNames :=
              mergeAttr manualNames (extraExpAttributeNames parsed) in
            let mergedValues :=
              mergeAttr manualValues (extraExpAttributeValues parsed) in
            if needsNames && negb (isNonEmptyObject mergedNames) then
              Throw (QueryParseError
                "filterExpression contains name placeholders (#) but ExpressionAttributeNames is missing."
                400)
            else if needsValues && negb (isNonEmptyObject mergedValues) then
              Throw (QueryParseError
                "filterExpression contains value placeholders (:) but ExpressionAttributeValues is missing."
                400)
            else Ok (with_filter input fe mergedNames mergedValues)
          else
            Ok (without_filter input
                  (mergeAttr manualNames (extraExpAttributeNames parsed))
                  (mergeAttr manualValues (extraExpAttributeValues parsed)))
      | None =>
          Ok (without_filter input
                (mergeAttr manualNames (extraExpAttributeNames parsed))
                (mergeAttr manualValues (extraExpAttributeValues parsed)))
      end.

End WithGenerator.

End Scan.

(* ================================================================== *)
(** * Update command builder ([buildUpdateCommandInput]) *)
(* ================================================================== *)

Module Update.

Record CustomUpdateCommandInput : Type := {
  tableName : string;
  key : obj jsval;
  item : option (obj jsval);
  updateExpression : option string;
  conditionExpression : option string;
  expressionAttributeNames : option (obj string);
  expressionAttributeValues : option (obj jsval);
  extraExpAttributeNames : option (obj string);
  extraExpAttributeValues : option (obj jsval);
  returnValues : option string;
  returnConsumedCapacity : option string;
  returnItemCollectionMetrics : option string
}.

Record UpdateCommandInput : Type := {
  TableName : string;
  Key : obj jsval;
  ConditionExpression : option string;
  ReturnValues : string;
  ReturnConsumedCapacity : option string;
  ReturnItemCollectionMetrics : option string;
  ExpressionAttributeNames : option (obj string);
  ExpressionAttributeValues : option (obj jsval);
  UpdateExpression : option string
}.

(** [values[k] !== undefined]: the token [k] is in use. *)
Definition in_use (values : obj jsval) (k : string) : bool :=
  match Obj.get values k with
  | Some v => negb (is_undefined v)
  | None => false
  end.

Definition candidate (field : string) (counter : nat) : string :=
  ":" ++ field ++ "_update_" ++ Str.of_nat counter.

(** The [do ... while (values[candidate] !== undefined)] loop, started at
    [counter], with a bound on the number of probes. *)
Fixpoint probe (fuel : nat) (values : obj jsval) (field : string)
    (counter : nat) : option string :=
  match fuel with
  | O => None
  | S fuel' =>
      if in_use values (candidate field counter)
      then probe fuel' values field (S counter)
      else Some (candidate field counter)
  end.

(** The token chosen for [field].  One probe more than there are properties
    in [values] always finds a free candidate, so the last case is never
    taken. *)
Definition valueKeyFor (values : obj jsval) (field : string) : string :=
  let valueKey := ":" ++ field in
  if in_use values valueKey then
    match probe (S (List.length values)) values field 1 with
    | Some c => c
    | None => valueKey
    end
  else valueKey.

(** [for (const field in itemRecord)]: the assignments and the value map. *)
Fixpoint assignFields (itemRecord : obj jsval) (values : obj jsval)
    (updateParts : list string) : obj jsval * list string :=
  match itemRecord with
  | [] => (values, updateParts)
  | (field, value) :: rest =>
      let valueKey := valueKeyFor values field in
      assignFields rest (Obj.set values valueKey value)
        (push updateParts (field ++ " = " ++ valueKey))
  end.

(** [if (Object.keys(o).length > 0) commandInput.X = o] *)
Definition attach {V : Type} (o : obj V) : option (obj V) :=
  if Obj.is_empty o then None else Some o.

(** The merged names and values: the provided maps, then the extra ones. *)
Definition mergedNames (input : CustomUpdateCommandInput) : obj string :=
  Obj.assign (Obj.assign [] (Obj.or_empty (expressionAttributeNames input)))
    (Obj.or_empty (extraExpAttributeNames input)).

Definition mergedValues (input : CustomUpdateCommandInput) : obj jsval :=
  Obj.assign (Obj.assign [] (Obj.or_empty (expressionAttributeValues input)))
    (Obj.or_empty (extraExpAttributeValues input)).

Section WithKeywords.

Variable RESERVED_KEYWORDS : list string.

Definition buildUpdateCommandInput (input : CustomUpdateCommandInput)
  : result UpdateCommandInput :=
  let commandInput n v ue :=
    {| TableName := tableName input;
       Key := key input;
       ConditionExpression := conditionExpression input;
       ReturnValues := match returnValues input with
                       | Some r => r
                       | None => "NONE"
                       end;
       ReturnConsumedCapacity := returnConsumedCapacity input;
       ReturnItemCollectionMetrics := returnItemCollectionMetrics input;
       ExpressionAttributeNames := attach n;
       ExpressionAttributeValues := attach v;
       UpdateExpression := Some ue |} in
  let names := mergedNames input in
  let values := mergedValues input in
  if Str.otruthy (updateExpression input) then
    (* Mode 1: explicit updateExpression *)
    Ok (commandInput names values
          (match updateExpression input with Some e => e | None => "" end))
  else
    (* Mode 2: generated from item *)
    match item input with
    | None | Some [] =>
        Throw (Error
          "Either updateExpression or item with at least one field must be provided.")
    | Some itemRecord =>
        let '(values', updateParts) := assignFields itemRecord values [] in
        let rawExpression := "SET " ++ Str.join ", " updateParts in
        let updateExpression :=
          Reserved.replaceReservedKeywordsFromUpdateExp RESERVED_KEYWORDS
            rawExpression in
        let autoNames :=
          Names.extractExpAttributeNamesFromUpdateExp updateExpression in
        let names' :=
          fold_left
            (fun acc kv =>
               if Obj.has acc (fst kv) then acc
               else Obj.set acc (fst kv) (snd kv))
            autoNames names in
        Ok (commandInput names' values' updateExpression)
    end.

End WithKeywords.

End Update.

(* ================================================================== *)
(** * Get and put command builders, and [omit] *)
(* ================================================================== *)

Module Get.

Record CustomGetCommandInput : Type := {
  tableName : string;
  key : obj jsval;
  projectionExpression : option string;
  expressionAttributeNames : option (obj string);
  consistentRead : option bool;
  returnConsumedCapacity : option string
}.

Record GetCommandInput : Type := {
  TableName : string;
  Key : obj jsval;
  ProjectionExpression : option string;
  ConsistentRead : option bool;
  ReturnConsumedCapacity : option string;
  ExpressionAttributeNames : option (obj string)
}.

Section WithKeywords.

Variable RESERVED_KEYWORDS : list string.

Definition buildGetCommandInput (input : CustomGetCommandInput)
  : GetCommandInput :=
  let ProjectionExpression :=
    match projectionExpression input with
    | Some p =>
        if Str.truthy p
        then Some (Reserved.replaceReservedKeywordsFromProjection
                     RESERVED_KEYWORDS p)
        else None
    | None => None
    end in
  let expressionAttributeNames :=
    Obj.assign
      (Obj.assign []
         (match ProjectionExpression with
          | Some p =>
              if Str.truthy p
              then Names.extractExpAttributeNamesFromExpression p
              else []
          | None => []
          end))
      (Obj.or_empty (expressionAttributeNames input)) in
  {| TableName := tableName input;
     Key := key input;
     ProjectionExpression := ProjectionExpression;
     ConsistentRead := consistentRead input;
     ReturnConsumedCapacity := returnConsumedCapacity input;
     ExpressionAttributeNames := Update.attach expressionAttributeNames |}.

End WithKeywords.

End Get.

Module Put.

Record CustomPutCommandInput : Type := {
  tableName : string;
  item : obj jsval;
  conditionExpression : option string;
  expressionAttributeNames : option (obj string);
  expressionAttributeValues : option (obj jsval);
  returnValues : option string;
  returnConsumedCapacity : option string;
  returnItemCollectionMetrics : option string
}.

Record PutCommandInput : Type := {
  TableName : string;
  Item : obj jsval;
  ConditionExpression : option string;
  ReturnValues : string;
  ReturnConsumedCapacity : option string;
  ReturnItemCollectionMetrics : option string;
  ExpressionAttributeNames : option (obj string);
  ExpressionAttributeValues : option (obj jsval)
}.

Definition buildPutCommandInput (input : CustomPutCommandInput)
  : PutCommandInput :=
  let hasCondition := Str.otruthy (conditionExpression input) in
  let hasProvidedNames :=
    match expressionAttributeNames input with
    | Some (_ :: _) => true
    | _ => false
    end in
  let names :=
    if hasCondition || hasProvidedNames then
      let generatedNames :=
        match conditionExpression input with
        | Some c =>
            if Str.truthy c
            then Names.extractExpAttributeNamesFromExpression c
            else []
        | None => []
        end in
      let mergedNames :=
        if hasProvidedNames
        then Obj.assign (Obj.assign [] generatedNames)
               (Obj.or_empty (expressionAttributeNames input))
        else generatedNames in
      Update.attach mergedNames
    else None in
  {| TableName := tableName input;
     Item := item input;
     ConditionExpression := conditionExpression input;
     ReturnValues := match returnValues input with
                     | Some r => r
                     | None => "NONE"
                     end;
     ReturnConsumedCapacity := returnConsumedCapacity input;
     ReturnItemCollectionMetrics := returnItemCollectionMetrics input;
     ExpressionAttributeNames := names;
     ExpressionAttributeValues :=
       match expressionAttributeValues input with
       | Some (e :: v) => Some (e :: v)
       | _ => None
       end |}.

End Put.

Module Omit.

(** A member of [keys: K[]] with [K extends keyof T]: a string, a number
    or a symbol. *)
Inductive key : Type :=
| KString (s : string)
| KNumber (n : float)
| KSymbol (id : nat).

(** [keys.includes(key)] for a key of the [for...in] loop, which is always
    a string: only an equal string is the same value. *)
Definition includes (keys : list key) (k : string) : bool :=
  existsb
    (fun x => match x with KString s => String.eqb s k | _ => false end)
    keys.

(** The object under construction: its own properties and, once an
    assignment has changed it, its prototype ([None] is [Object.prototype],
    the prototype of [{}]). *)
Record target (V : Type) : Type := {
  own : obj V;
  prototype : option V
}.

Section WithHost.

Context {V : Type}.

(** The setter of [Object.prototype.__proto__] takes an object or [null]
    and ignores every other value. *)
Variable accepts_prototype : V -> bool.

(** Whether [result[k] = v] makes an own property of an ordinary object
    whose prototype is [p]: it does not when [p] answers the assignment
    itself (a setter, a read-only property, an integer-indexed object on a
    numeric key). *)
Variable sets_through : V -> string -> bool.

(** [result[key] = obj[key]].  Under [Object.prototype] the key [__proto__]
    reaches the inherited setter and makes no own property; every other key
    makes or updates an own property.  An object has one property per key,
    so [__proto__] is not met again once the prototype has changed. *)
Definition assign_property (result : target V) (k : string) (v : V)
  : target V :=
  match prototype result with
  | None =>
      if String.eqb k "__proto__" then
        if accepts_prototype v
        then {| own := own result; prototype := Some v |}
        else result
      else {| own := Obj.set (own result) k v; prototype := None |}
  | Some p =>
      if sets_through p k
      then {| own := Obj.set (own result) k v; prototype := Some p |}
      else result
  end.

(** [omit(obj, keys)]: [obj] holds the own enumerable properties in the
    order of [for...in]; the inherited ones fail the [hasOwnProperty]
    test. *)
Definition omit (o : obj V) (keys : list key) : target V :=
  fold_left
    (fun result kv =>
       if negb (includes keys (fst kv))
       then assign_property result (fst kv) (snd kv)
       else result)
    o {| own := []; prototype := None |}.

End WithHost.

End Omit.

(* ================================================================== *)
(** * Sample builtins for the worked examples *)
(* ================================================================== *)

Module Sample.

Fixpoint digits (s : string) (acc : Z) : option Z :=
  match s with
  | EmptyString => Some acc
  | String c s' =>
      if Str.is_digit c
      then digits s' (10 * acc + (Z.of_nat (nat_of_ascii c) - 48))%Z
      else None
  end.

Definition unsigned (s : string) : float :=
  if Nat.leb 1 (String.length s) && Nat.leb (String.length s) 15 then
    match digits s 0%Z with
    | Some z => PrimFloat.of_uint63 (Uint63.of_Z z)
    | None => PrimFloat.nan
    end
  else PrimFloat.nan.

(** A stand-in for the host's [Number(string)] in the examples.  It agrees
    with the host on the strings it is applied to below: blank strings (0),
    an optional sign followed by one to fifteen decimal digits, possibly
    surrounded by white space, and words that are no numeric literal, such
    as [abc] or [bad] (NaN).  Other numeric literals (fractions, exponents,
    [Infinity], hexadecimal) are outside its domain. *)
Definition Number (s : string) : float :=
  match Str.trim s with
  | EmptyString => PrimFloat.zero
  | String "-" d => PrimFloat.opp (unsigned d)
  | String "+" d => unsigned d
  | d => unsigned d
  end.

(** No example parses JSON or decodes base64. *)
Definition JSON_parse (s : string) : option jsval := None.
Definition Buffer_from_base64 (s : string) : string := s.

(** The reserved words that the tests and the examples of the doc comments
    rely on. *)
Definition RESERVED_KEYWORDS : list string := ["name"; "size"; "status"].

End Sample.

(* ================================================================== *)
(** * The specification's wording, for comparison with the code *)
(* ================================================================== *)

Module Spec.

Import Filter.

(** [mapi f l]: the elements of [l] with their index, from [i] on. *)
Fixpoint mapi_from {A B : Type} (f : nat -> A -> B) (i : nat) (l : list A)
  : list B :=
  match l with
  | [] => []
  | x :: l' => f i x :: mapi_from f (S i) l'
  end.

Definition mapi {A B : Type} (f : nat -> A -> B) (l : list A) : list B :=
  mapi_from f 0 l.

(** The [contains] calls of a set filter at index [i] with [n] elements,
    numbered from [j]. *)
Definition containsCalls (i j n : nat) : list string :=
  map (fun k => "contains(#f" ++ Str.of_nat i ++ ", :f" ++ Str.of_nat i
                ++ "vs" ++ Str.of_nat k ++ ")")
    (seq j n).

(** Section 4.2 of the specification: the fragment that the filter at index
    [i] contributes to the expression. *)
Definition fragment (i : nat) (f : DynamoFilter) : string :=
  let n := "#f" ++ Str.of_nat i in
  let v := ":f" ++ Str.of_nat i ++ "v" in
  let v2 := ":f" ++ Str.of_nat i ++ "v2" in
  let calls :=
    containsCalls i 0
      (List.length (match values f with Some l => l | None => [] end)) in
  match condition f with
  | EXISTS => "(attribute_exists(" ++ n ++ "))"
  | NOT_EXISTS => "(attribute_not_exists(" ++ n ++ "))"
  | BEGINS_WITH => "begins_with(" ++ n ++ ", " ++ v ++ ")"
  | CONTAINS =>
      if is_set_type (type f) then
        match calls with
        | [one] => "(" ++ one ++ ")"
        | _ => "((" ++ Str.join " OR " calls ++ "))"
        end
      else "(contains(" ++ n ++ ", " ++ v ++ "))"
  | NOT_CONTAINS =>
      if is_set_type (type f)
      then "(NOT (" ++ Str.join " OR " calls ++ "))"
      else "NOT contains(" ++ n ++ ", " ++ v ++ ")"
  | BETWEEN => "(" ++ n ++ " BETWEEN " ++ v ++ " AND " ++ v2 ++ ")"
  | EQUAL_TO => "(" ++ n ++ " = " ++ v ++ ")"
  | NOT_EQUAL_TO => "(" ++ n ++ " <> " ++ v ++ ")"
  | LESS_THAN => "(" ++ n ++ " < " ++ v ++ ")"
  | LESS_THAN_OR_EQUAL_TO => "(" ++ n ++ " <= " ++ v ++ ")"
  | GREATER_THAN => "(" ++ n ++ " > " ++ v ++ ")"
  | GREATER_THAN_OR_EQUAL_TO => "(" ++ n ++ " >= " ++ v ++ ")"
  | UNKNOWN _ => EmptyString
  end.

(** The types for which [BETWEEN] is forbidden. *)
Definition between_forbidden : list DynamoFilterValueType :=
  [T_SS; T_NS; T_BOOL; T_NULL].

(** The operator table of the comparison conditions. *)
Definition operator (c : DynamoFilterCondition) : string :=
  match c with
  | EQUAL_TO => "="
  | NOT_EQUAL_TO => "<>"
  | LESS_THAN => "<"
  | LESS_THAN_OR_EQUAL_TO => "<="
  | GREATER_THAN => ">"
  | GREATER_THAN_OR_EQUAL_TO => ">="
  | _ => EmptyString
  end.

(** The six comparison conditions. *)
Definition is_comparison (c : DynamoFilterCondition) : bool :=
  match c with
  | EQUAL_TO | NOT_EQUAL_TO | LESS_THAN | LESS_THAN_OR_EQUAL_TO
  | GREATER_THAN | GREATER_THAN_OR_EQUAL_TO => true
  | _ => false
  end.

(** Section 4.4 of the specification, the shape of its token rule: the
    value token of [field] is [:field] when that token is not taken,
    otherwise the first [:field_update_n], [n = 1, 2, ...], that is not
    taken.  [used] is the test for a token being taken. *)
Inductive token_rule (used : string -> bool) (field : string)
  : string -> Prop :=
| chosen_plain :
    used (":" ++ field) = false ->
    token_rule used field (":" ++ field)
| chosen_probed (n : nat) :
    used (":" ++ field) = true ->
    1 <= n ->
    (forall m, 1 <= m < n -> used (Update.candidate field m) = true) ->
    used (Update.candidate field n) = false ->
    token_rule used field (Update.candidate field n).

(** The test in the words of the specification: the token already exists in
    the accumulated value map, that is, the map has an entry under it. *)
Definition exists_in (values : obj jsval) (token : string) : bool :=
  Obj.has values token.

(** The rule of the specification. *)
Definition chosen_token (values : obj jsval) (field token : string) : Prop :=
  token_rule (exists_in values) field token.

(** The assignment fragments and the final value map of an item, field by
    field in iteration order, each token chosen by the rule against the map
    accumulated so far. *)
Inductive assigns (used : obj jsval -> string -> bool)
  : obj jsval -> obj jsval -> list string -> obj jsval -> Prop :=
| assigns_done (values : obj jsval) : assigns used [] values [] values
| assigns_field (field : string) (value : jsval) (rest : obj jsval)
    (values : obj jsval) (token : string) (fragments : list string)
    (values' : obj jsval) :
    token_rule (used values) field token ->
    assigns used rest (Obj.set values token value) fragments values' ->
    assigns used ((field, value) :: rest) values
      ((field ++ " = " ++ token) :: fragments) values'.

End Spec.

(* ================================================================== *)
(** * Concrete inputs of the worked examples *)
(* ================================================================== *)

Module Examples.

(** A request with a sort key and a given comparator spelling. *)
Definition sortKeyRequest (comparator : option string) : DynamoQueryRequest :=
  {| pKey := "user-123"; pKeyType := "S"; pKeyProp := "userId";
     sKey := Some "order-456"; sKeyType := Some "S"; sKeyProp := Some "orderId";
     skValue2 := None; skValue2Type := None;
     skComparator := comparator; indexName := None; limit := None;
     lastEvaluatedKey := None; sorting := None |}.

(** A validated query for the files of a folder whose name begins with
    [doc]. *)
Definition beginsWithQuery : Query.CustomQueryCommandInput :=
  {| Query.tableName := "Files";
     Query.queryRequest :=
       {| pKey := "folder-1"; pKeyType := "S"; pKeyProp := "folderId";
          sKey := Some "doc"; sKeyType := Some "S"; sKeyProp := Some "fileName";
          skValue2 := None; skValue2Type := None;
          skComparator := Some "BEGINS_WITH"; indexName := None;
          limit := None; lastEvaluatedKey := None; sorting := None |};
     Query.filterExpression := None;
     Query.extraExpAttributeNames := None;
     Query.extraExpAttributeValues := None;
     Query.projectionExpression := None;
     Query.scanIndexForward := None;
     Query.returnConsumedCapacity := None |}.

Definition scalarFilter (n : string) (t : Filter.DynamoFilterValueType)
    (c : Filter.DynamoFilterCondition) (v v2 : option string)
  : Filter.DynamoFilter :=
  {| Filter.name := n; Filter.type := t; Filter.condition := c;
     Filter.value := v; Filter.value2 := v2; Filter.values := None |}.

Definition setFilter (n : string) (t : Filter.DynamoFilterValueType)
    (c : Filter.DynamoFilterCondition) (l : list string)
  : Filter.DynamoFilter :=
  {| Filter.name := n; Filter.type := t; Filter.condition := c;
     Filter.value := None; Filter.value2 := None; Filter.values := Some l |}.

Definition noAccumulators : Filter.accumulators :=
  {| Filter.names := []; Filter.vals := []; Filter.parts := [] |}.

(** A scan that only supplies [filtersAttributes]. *)
Definition scanWithFilters : Scan.CustomScanCommandInput :=
  {| Scan.tableName := "Users"; Scan.indexName := None;
     Scan.filtersAttributes :=
       Some [scalarFilter "status" Filter.T_S Filter.EQUAL_TO
               (Some "ACTIVE") None];
     Scan.filterExpression := None; Scan.projectionExpression := None;
     Scan.expressionAttributeNames := None;
     Scan.expressionAttributeValues := None;
     Scan.extraExpAttributeNames := None;
     Scan.extraExpAttributeValues := None;
     Scan.limit := None; Scan.exclusiveStartKey := None;
     Scan.consistentRead := None; Scan.segment := None;
     Scan.totalSegments := None; Scan.returnConsumedCapacity := None;
     Scan.returnItemCollectionMetrics := None |}.

(** The same scan with a [segment] but no [totalSegments], which the
    schema refuses. *)
Definition scanWithLoneSegment : Scan.CustomScanCommandInput :=
  {| Scan.tableName := "Users"; Scan.indexName := None;
     Scan.filtersAttributes :=
       Some [scalarFilter "status" Filter.T_S Filter.EQUAL_TO
               (Some "ACTIVE") None];
     Scan.filterExpression := None; Scan.projectionExpression := None;
     Scan.expressionAttributeNames := None;
     Scan.expressionAttributeValues := None;
     Scan.extraExpAttributeNames := None;
     Scan.extraExpAttributeValues := None;
     Scan.limit := None; Scan.exclusiveStartKey := None;
     Scan.consistentRead := None; Scan.segment := Some 0%Z;
     Scan.totalSegments := None; Scan.returnConsumedCapacity := None;
     Scan.returnItemCollectionMetrics := None |}.

(** The input of the repository's test of [BEGINS_WITH]: the prefix is
    carried by [skValue2] and there is no [sKey] (the schema refuses it). *)
Definition beginsWithTestQuery : Query.CustomQueryCommandInput :=
  {| Query.tableName := "Files";
     Query.queryRequest :=
       {| pKey := "folder-1"; pKeyType := "S"; pKeyProp := "folderId";
          sKey := None; sKeyType := Some "S"; sKeyProp := Some "fileName";
          skValue2 := Some "doc"; skValue2Type := None;
          skComparator := Some "BEGINS_WITH"; indexName := None;
          limit := None; lastEvaluatedKey := None; sorting := None |};
     Query.filterExpression := None;
     Query.extraExpAttributeNames := None;
     Query.extraExpAttributeValues := None;
     Query.projectionExpression := None;
     Query.scanIndexForward := None;
     Query.returnConsumedCapacity := None |}.

(** An update of the field [name] whose caller already uses [:name]. *)
Definition updateName (callerValues : obj jsval) (item : obj jsval)
  : Update.CustomUpdateCommandInput :=
  {| Update.tableName := "Users"; Update.key := [("userId", VStr "123")];
     Update.item := Some item; Update.updateExpression := None;
     Update.conditionExpression := None;
     Update.expressionAttributeNames := None;
     Update.expressionAttributeValues := Some callerValues;
     Update.extraExpAttributeNames := None;
     Update.extraExpAttributeValues := None;
     Update.returnValues := None; Update.returnConsumedCapacity := None;
     Update.returnItemCollectionMetrics := None |}.

End Examples.

(* ================================================================== *)
(** * Further inputs and wording for the additional properties *)
(* ================================================================== *)

Module Cases.

(** The exception of [parseDynamoKeyValue] on the binary key type. *)
Definition unsupported_B : exn := Error "Unsupported partitionKeyType: B".

Definition queryOf (q : DynamoQueryRequest)
    (extraValues : option (obj jsval)) : Query.CustomQueryCommandInput :=
  {| Query.tableName := "Events";
     Query.queryRequest := q;
     Query.filterExpression := None;
     Query.extraExpAttributeNames := None;
     Query.extraExpAttributeValues := extraValues;
     Query.projectionExpression := None;
     Query.scanIndexForward := None;
     Query.returnConsumedCapacity := None |}.

Definition request (pType : string) (comparator : option string)
    (sk sk2 : option string) (sType : option string) : DynamoQueryRequest :=
  {| pKey := "event-1"; pKeyType := pType; pKeyProp := "eventType";
     sKey := sk; sKeyType := sType;
     sKeyProp := match sk with Some _ => Some "eventDate" | None => None end;
     skValue2 := sk2; skValue2Type := sType;
     skComparator := comparator; indexName := None; limit := None;
     lastEvaluatedKey := None; sorting := None |}.

(** A validated request whose partition key is declared binary. *)
Definition binaryKeyQuery : Query.CustomQueryCommandInput :=
  queryOf (request "B" None None None None) None.

(** A validated [BETWEEN] request. *)
Definition betweenQuery : Query.CustomQueryCommandInput :=
  queryOf (request "S" (Some "BETWEEN") (Some "2023-01-01")
             (Some "2023-12-31") (Some "S")) None.

(** A request whose caller rebinds [:pk] through the extra values. *)
Definition overridingQuery : Query.CustomQueryCommandInput :=
  queryOf (request "S" None None None None)
    (Some [(":pk", VStr "override")]).

(** A parallel scan with a manual filter expression. *)
Definition manualScan : Scan.CustomScanCommandInput :=
  {| Scan.tableName := "Users"; Scan.indexName := None;
     Scan.filtersAttributes := None;
     Scan.filterExpression := Some "#age > :minAge";
     Scan.projectionExpression := None;
     Scan.expressionAttributeNames := Some [("#age", "age")];
     Scan.expressionAttributeValues := Some [(":minAge", VNum PrimFloat.one)];
     Scan.extraExpAttributeNames := None;
     Scan.extraExpAttributeValues := None;
     Scan.limit := Some 25%Z; Scan.exclusiveStartKey := None;
     Scan.consistentRead := None; Scan.segment := Some 1%Z;
     Scan.totalSegments := Some 4%Z; Scan.returnConsumedCapacity := None;
     Scan.returnItemCollectionMetrics := None |}.

(** The exception of [buildUpdateCommandInput]. *)
Definition nothing_to_update : exn :=
  Error
    "Either updateExpression or item with at least one field must be provided.".

(** The assignment of [field] under [token]. *)
Definition assignment (field : string * jsval) (token : string) : string :=
  fst field ++ " = " ++ token.

(** An update generated from an item, with the caller's names and values. *)
Definition updateOf (names : option (obj string))
    (values : option (obj jsval)) (item : obj jsval)
  : Update.CustomUpdateCommandInput :=
  {| Update.tableName := "Users";
     Update.key := [("userId", VStr "123")];
     Update.item := Some item;
     Update.updateExpression := None;
     Update.conditionExpression := None;
     Update.expressionAttributeNames := names;
     Update.expressionAttributeValues := values;
     Update.extraExpAttributeNames := None;
     Update.extraExpAttributeValues := None;
     Update.returnValues := None;
     Update.returnConsumedCapacity := None;
     Update.returnItemCollectionMetrics := None |}.

(** A string of decimal digits. *)
Fixpoint all_digits (s : string) : bool :=
  match s with
  | EmptyString => true
  | String c s' => Str.is_digit c && all_digits s'
  end.

(** The value tokens of the filter at index [i]: [:f{i}v...]. *)
Definition value_token_of (i : nat) (k : string) : Prop :=
  exists suffix, k = Filter.makeValueToken i (String "v" suffix).

End Cases.

(* ================================================================== *)
(** * Facts about strings and objects *)
(* ================================================================== *)

Module StrFacts.

Lemma of_nat_inj (n m : nat) : Str.of_nat n = Str.of_nat m -> n = m.
Proof.
  unfold Str.of_nat. intros E.
  apply Unsigned.to_uint_inj.
  assert (H : Some (Nat.to_uint n) = Some (Nat.to_uint m)).
  { rewrite <- (NilEmpty.usu (Nat.to_uint n)), <- (NilEmpty.usu (Nat.to_uint m)).
    now rewrite E. }
  now inversion H.
Qed.

Lemma append_inj_r (p a b : string) : p ++ a = p ++ b -> a = b.
Proof.
  induction p as [| c p IH]; simpl; intros E; [exact E |].
  inversion E. auto.
Qed.

Lemma append_assoc (a b c : string) : (a ++ b) ++ c = a ++ (b ++ c).
Proof.
  induction a as [| x a IH]; simpl; [reflexivity | now rewrite IH].
Qed.

End StrFacts.

Module ObjFacts.

Section Facts.
Context {V : Type}.
Implicit Types (o : obj V) (k : string) (v : V).

Lemma get_set_same o k v : Obj.get (Obj.set o k v) k = Some v.
Proof.
  induction o as [| [k' v'] o IH]; simpl.
  - now rewrite String.eqb_refl.
  - destruct (String.eqb k' k) eqn:E; simpl; rewrite E; [reflexivity | exact IH].
Qed.

Lemma get_set_other o k k' v :
  k <> k' -> Obj.get (Obj.set o k v) k' = Obj.get o k'.
Proof.
  intros Hne. induction o as [| [k0 v0] o IH]; simpl.
  - destruct (String.eqb k k') eqn:E; [| reflexivity].
    apply String.eqb_eq in E. contradiction.
  - destruct (String.eqb k0 k) eqn:E; simpl.
    + apply String.eqb_eq in E. subst k0.
      destruct (String.eqb k k') eqn:E'; [| reflexivity].
      apply String.eqb_eq in E'. contradiction.
    + now rewrite IH.
Qed.

Lemma has_set o k k' v :
  Obj.has (Obj.set o k v) k' = (String.eqb k k' || Obj.has o k')%bool.
Proof.
  unfold Obj.has. destruct (String.eqb k k') eqn:E.
  - apply String.eqb_eq in E. subst. now rewrite get_set_same.
  - apply String.eqb_neq in E. now rewrite get_set_other.
Qed.

Lemma has_assign o extra k :
  Obj.has (Obj.assign o extra) k = (Obj.has o k || Obj.has extra k)%bool.
Proof.
  unfold Obj.assign. revert o.
  induction extra as [| [k' v'] extra IH]; intros o; simpl.
  - now rewrite orb_false_r.
  - rewrite IH, has_set. unfold Obj.has. simpl.
    destruct (String.eqb k' k), (Obj.get o k), (Obj.get extra k); reflexivity.
Qed.

(** Setting a property that the object does not have appends it. *)
Lemma set_fresh o k v : Obj.get o k = None -> Obj.set o k v = push o (k, v).
Proof.
  unfold push. induction o as [| [k' v'] o IH]; simpl; [reflexivity |].
  destruct (String.eqb k' k); [discriminate |].
  intros H. now rewrite IH.
Qed.

Lemma get_none_not_key o k : ~ In k (Obj.keys o) -> Obj.get o k = None.
Proof.
  unfold Obj.keys. induction o as [| [k' v'] o IH]; simpl; [reflexivity |].
  intros H. destruct (String.eqb k' k) eqn:E.
  - apply String.eqb_eq in E. tauto.
  - apply IH. tauto.
Qed.

Lemma get_some_key o k v : Obj.get o k = Some v -> In k (Obj.keys o).
Proof.
  unfold Obj.keys. induction o as [| [k' v'] o IH]; simpl; [discriminate |].
  destruct (String.eqb k' k) eqn:E.
  - apply String.eqb_eq in E. auto.
  - auto.
Qed.

Lemma keys_length o : List.length (Obj.keys o) = List.length o.
Proof. apply length_map. Qed.

End Facts.

End ObjFacts.

(* ================================================================== *)
(** * Properties of the key-condition compiler *)
(* ================================================================== *)

Module KeyConditionFacts.
Import KeyCondition Examples.

Ltac split_orb H :=
  repeat match type of H with
         | (_ || _)%bool = false =>
             let H1 := fresh "Hne" in
             apply orb_false_iff in H; destruct H as [H1 H]
         end.

Lemma getOperatorSymbolByKey_unrecognized (operation : string) :
  recognized operation = false ->
  getOperatorSymbolByKey operation =
    Throw (Error ("Invalid operation key: " ++ operation)).
Proof.
  unfold recognized, Str.mem, spellings, getOperatorSymbolByKey; simpl existsb.
  intros H. split_orb H.
  repeat match goal with
         | E : String.eqb _ _ = false |- _ => rewrite E; clear E
         end.
  reflexivity.
Qed.

Lemma getOperatorSymbolByKey_equal (operation : string) :
  getOperatorSymbolByKey operation = Ok "=" <->
  (Str.toUpperCase operation = "EQUAL" \/ Str.toUpperCase operation = "=").
Proof.
  unfold getOperatorSymbolByKey.
  set (u := Str.toUpperCase operation).
  split.
  - repeat match goal with
           | |- context [if ?b then _ else _] => destruct b eqn:?; try discriminate
           end.
    intros _.
    match goal with
    | H : (_ || _)%bool = true |- _ =>
        apply orb_true_iff in H; destruct H as [H | H];
        apply String.eqb_eq in H; auto
    end.
  - intros [E | E]; rewrite E; reflexivity.
Qed.

Lemma getOperatorSymbolByKey_range (operation symbol : string) :
  getOperatorSymbolByKey operation = Ok symbol ->
  In symbol ["BETWEEN"; "BEGINS_WITH"; ">"; "<"; ">="; "<="; "="].
Proof.
  unfold getOperatorSymbolByKey.
  repeat match goal with
         | |- context [if ?b then _ else _] => destruct b
         end;
    intros E; inversion E; subst; simpl; tauto.
Qed.

(** C1, as the code has it: with a sort key present, a comparator spelling
    that is not recognized makes the compiler throw [Invalid operation key];
    the equality text [ AND #sk = :sk] is produced exactly when the
    comparator is absent or is a spelling of equality ([=] or [EQUAL] in any
    letter case). *)
Theorem unrecognized_comparator_throws (q : DynamoQueryRequest) :
  Str.otruthy (sKey q) = true ->
  (forall op, skComparator q = Some op -> recognized op = false ->
     createKeyConditionExpression q =
       Throw (Error ("Invalid operation key: " ++ op)))
  /\
  (createKeyConditionExpression q = Ok "#pk = :pk AND #sk = :sk" <->
     (skComparator q = None \/
      exists op, skComparator q = Some op /\
                 (Str.toUpperCase op = "EQUAL" \/ Str.toUpperCase op = "="))).
Proof.
  intros Hs. split.
  - intros op Hc Hr. unfold createKeyConditionExpression.
    rewrite Hs, Hc. simpl negb. cbv iota.
    now rewrite (getOperatorSymbolByKey_unrecognized _ Hr).
  - unfold createKeyConditionExpression. rewrite Hs. simpl negb. cbv iota.
    split.
    + intros H.
      destruct (skComparator q) as [op |] eqn:Hc; [right | now left].
      exists op. split; [reflexivity |].
      apply getOperatorSymbolByKey_equal.
      destruct (getOperatorSymbolByKey op) as [symbol |] eqn:Hg;
        [| discriminate].
      pose proof (getOperatorSymbolByKey_range _ Hg) as Hin.
      simpl in Hin.
      destruct Hin as [<- | [<- | [<- | [<- | [<- | [<- | [<- | []]]]]]]];
        simpl in H; try discriminate; try reflexivity.
      destruct (negb (Str.otruthy (skValue2 q))); discriminate.
    + intros [Hc | [op [Hc He]]]; rewrite Hc.
      * reflexivity.
      * apply getOperatorSymbolByKey_equal in He. now rewrite He.
Qed.

Lemma unrecognized_comparator_throws_witness :
  createKeyConditionExpression (sortKeyRequest (Some "FOO")) =
    Throw (Error "Invalid operation key: FOO").
Proof.
  exact (proj1 (unrecognized_comparator_throws
                  (sortKeyRequest (Some "FOO")) eq_refl)
               "FOO" eq_refl eq_refl).
Defined.

(** The claim as the specification words it fails: the sort key is present,
    the spelling [FOO] is not recognized, and the compiler throws instead of
    falling back to equality. *)
Lemma unrecognized_comparator_no_fallback :
  Str.otruthy (sKey (sortKeyRequest (Some "FOO"))) = true /\
  recognized "FOO" = false /\
  createKeyConditionExpression (sortKeyRequest (Some "FOO")) <>
    Ok "#pk = :pk AND #sk = :sk" /\
  is_ok (createKeyConditionExpression (sortKeyRequest (Some "FOO"))) = false.
Proof.
  repeat split; try reflexivity. discriminate.
Qed.

End KeyConditionFacts.

(* ================================================================== *)
(** * Properties of the query command builder *)
(* ================================================================== *)

Module QueryFacts.
Import Query Examples.

Section WithBuiltins.

Variable Number : string -> float.
Variable JSON_parse : string -> option jsval.
Variable Buffer_from_base64 : string -> string.
Variable RESERVED_KEYWORDS : list string.

Lemma validated_begins_with (q : DynamoQueryRequest) :
  dynamoQueryRequestSch q = true ->
  skComparator q = Some "BEGINS_WITH" ->
  Str.otruthy (sKey q) = true /\ Str.otruthy (skValue2 q) = false.
Proof.
  unfold dynamoQueryRequestSch, refine_ok. intros H Hc. rewrite Hc in H.
  simpl in H.
  apply andb_true_iff in H. destruct H as [_ H].
  apply andb_true_iff in H. destruct H as [H H2].
  apply andb_true_iff in H. destruct H as [H _].
  apply andb_true_iff in H. destruct H as [H _].
  split; [exact H |].
  apply negb_true_iff, orb_false_iff in H2. tauto.
Qed.

(** C2, what the builder does on a validated request with the comparator
    [BEGINS_WITH]: whenever it returns a command, the key condition is the
    [begins_with] text over [:skValue2], yet the value map binds [:sk] and
    binds [:skValue2] only if the caller's extra values happen to. *)
Theorem begins_with_binds_sk_not_skValue2
    (input : CustomQueryCommandInput) (cmd : QueryCommandInput) :
  dynamoQueryRequestSch (queryRequest input) = true ->
  skComparator (queryRequest input) = Some "BEGINS_WITH" ->
  buildQueryCommandInput Number JSON_parse Buffer_from_base64
    RESERVED_KEYWORDS input = Ok cmd ->
  KeyConditionExpression cmd = "#pk = :pk AND begins_with(#sk, :skValue2)" /\
  Obj.has (ExpressionAttributeValues cmd) ":sk" = true /\
  Obj.has (ExpressionAttributeValues cmd) ":skValue2" =
    Obj.has (Obj.or_empty (extraExpAttributeValues input)) ":skValue2".
Proof.
  intros Hv Hc.
  destruct (validated_begins_with _ Hv Hc) as [Hs Hs2].
  unfold buildQueryCommandInput, KeyCondition.createKeyConditionExpression.
  rewrite Hs, Hc. simpl negb. cbv iota. simpl bind at 1.
  destruct (KeyValue.parseDynamoKeyValue _ _ _ (pKey _) _) as [pk |];
    [simpl bind at 1 | discriminate].
  destruct (sKey (queryRequest input)) as [k |] eqn:Hk; [| discriminate].
  simpl in Hs. rewrite Hs.
  destruct (KeyValue.parseDynamoKeyValue _ _ _ k _) as [vk |];
    [simpl bind at 1 | discriminate].
  assert (E2 : match skValue2 (queryRequest input) with
               | Some k2 =>
                   if Str.truthy k2
                   then v <- KeyValue.parseDynamoKeyValue Number JSON_parse
                               Buffer_from_base64 k2
                               match sKeyType (queryRequest input) with
                               | Some t => t
                               | None => "S"
                               end ;; Ok [(":skValue2", v)]
                   else Ok []
               | None => Ok []
               end = Ok []).
  { destruct (skValue2 (queryRequest input)) as [k2 |]; [| reflexivity].
    simpl in Hs2. now rewrite Hs2. }
  rewrite E2. simpl bind.
  intros E. inversion E; subst cmd; clear E. simpl.
  split; [reflexivity |].
  rewrite !ObjFacts.has_assign. simpl. tauto.
Qed.

End WithBuiltins.

(** The command built for the validated request [beginsWithQuery]: the key
    condition mentions [:skValue2], the value map does not bind it. *)
Lemma beginsWithQuery_command :
  buildQueryCommandInput Sample.Number Sample.JSON_parse
    Sample.Buffer_from_base64 Sample.RESERVED_KEYWORDS beginsWithQuery =
  Ok {| TableName := "Files"; IndexName := None;
        KeyConditionExpression := "#pk = :pk AND begins_with(#sk, :skValue2)";
        FilterExpression := None;
        ExpressionAttributeNames := [("#pk", "folderId"); ("#sk", "fileName")];
        ExpressionAttributeValues :=
          [(":pk", VStr "folder-1"); (":sk", VStr "doc")];
        ProjectionExpression := None; ScanIndexForward := None;
        ReturnConsumedCapacity := None; ExclusiveStartKey := None;
        Limit := None |}.
Proof. vm_compute. reflexivity. Qed.

(** On the input of the repository's own test the value map is the
    expected one, but the key condition stops at the partition key. *)
Lemma beginsWithTestQuery_command :
  dynamoQueryRequestSch (queryRequest beginsWithTestQuery) = false /\
  buildQueryCommandInput Sample.Number Sample.JSON_parse
    Sample.Buffer_from_base64 Sample.RESERVED_KEYWORDS beginsWithTestQuery =
  Ok {| TableName := "Files"; IndexName := None;
        KeyConditionExpression := "#pk = :pk";
        FilterExpression := None;
        ExpressionAttributeNames := [("#pk", "folderId"); ("#sk", "fileName")];
        ExpressionAttributeValues :=
          [(":pk", VStr "folder-1"); (":skValue2", VStr "doc")];
        ProjectionExpression := None; ScanIndexForward := None;
        ReturnConsumedCapacity := None; ExclusiveStartKey := None;
        Limit := None |}.
Proof. split; vm_compute; reflexivity. Qed.

Lemma begins_with_binds_sk_not_skValue2_witness :
  dynamoQueryRequestSch (queryRequest beginsWithQuery) = true /\
  exists cmd,
    buildQueryCommandInput Sample.Number Sample.JSON_parse
      Sample.Buffer_from_base64 Sample.RESERVED_KEYWORDS beginsWithQuery
      = Ok cmd /\
    KeyConditionExpression cmd = "#pk = :pk AND begins_with(#sk, :skValue2)" /\
    Obj.has (ExpressionAttributeValues cmd) ":sk" = true /\
    Obj.has (ExpressionAttributeValues cmd) ":skValue2" = false.
Proof.
  split; [reflexivity |].
  eexists. split; [exact beginsWithQuery_command |].
  exact (begins_with_binds_sk_not_skValue2 Sample.Number Sample.JSON_parse
           Sample.Buffer_from_base64 Sample.RESERVED_KEYWORDS beginsWithQuery
           eq_refl eq_refl beginsWithQuery_command).
Defined.

End QueryFacts.

(* ================================================================== *)
(** * Properties of the scan command builder *)
(* ================================================================== *)

Module ScanFacts.
Import Scan Examples.

(** The schema [parse] hands back the input it accepted. *)
Lemma parse_identity (custom parsed : CustomScanCommandInput) :
  customScanCommandInputSch custom = Ok parsed -> parsed = custom.
Proof.
  unfold customScanCommandInputSch.
  destruct (scan_shape_ok custom && scan_refine_ok custom); [| discriminate].
  now intros [= <-].
Qed.

(** C10, as the code has it: an input that passes the schema and has a
    non-empty [filtersAttributes] is rejected with the 400
    [QueryParseError], whatever its [filterExpression]; an input that fails
    the schema is rejected even earlier, so no input with filters yields a
    command; and the generator is never consulted: the outcome does not
    depend on it. *)
Theorem filtersAttributes_always_rejected
    (generate generate' :
       list Filter.DynamoFilter ->
       result (option Filter.GeneratedDynamoFilterAttributes))
    (custom : CustomScanCommandInput) :
  (non_empty_filters (filtersAttributes custom) = true ->
   (forall parsed, customScanCommandInputSch custom = Ok parsed ->
      buildScanCommandInput generate custom = Throw both_rejected) /\
   is_ok (buildScanCommandInput generate custom) = false) /\
  buildScanCommandInput generate' custom = buildScanCommandInput generate custom.
Proof.
  split.
  - intros Hne. split.
    + intros parsed Hp. unfold buildScanCommandInput.
      rewrite Hp. simpl bind.
      rewrite (parse_identity _ Hp), Hne. reflexivity.
    + unfold buildScanCommandInput.
      destruct (customScanCommandInputSch custom) as [parsed |] eqn:Hp;
        [| reflexivity].
      simpl bind. rewrite (parse_identity _ Hp), Hne. reflexivity.
  - unfold buildScanCommandInput.
    destruct (customScanCommandInputSch custom) as [parsed |];
      [| reflexivity].
    simpl bind.
    destruct (non_empty_filters (filtersAttributes parsed)); reflexivity.
Qed.

Lemma filtersAttributes_always_rejected_witness :
  buildScanCommandInput (Filter.generateDynamoFilterAttributes Sample.Number)
    scanWithFilters = Throw both_rejected.
Proof.
  exact (proj1 (proj1 (filtersAttributes_always_rejected
                         (Filter.generateDynamoFilterAttributes Sample.Number)
                         (Filter.generateDynamoFilterAttributes Sample.Number)
                         scanWithFilters) eq_refl)
               scanWithFilters eq_refl).
Defined.

(** The claim as worded fails on an input that the schema refuses: its
    [filtersAttributes] is a non-empty array, and the builder throws the
    validation error of [parse], not the [QueryParseError]. *)
Lemma refused_input_fails_in_parse :
  non_empty_filters (filtersAttributes scanWithLoneSegment) = true /\
  buildScanCommandInput (Filter.generateDynamoFilterAttributes Sample.Number)
    scanWithLoneSegment = Throw ZodError /\
  buildScanCommandInput (Filter.generateDynamoFilterAttributes Sample.Number)
    scanWithLoneSegment <> Throw both_rejected.
Proof. repeat split. discriminate. Qed.

End ScanFacts.

(* ================================================================== *)
(** * Properties of the filter compiler *)
(* ================================================================== *)

Module FilterFacts.
Import Filter Examples.

Ltac bind_ok H :=
  match type of H with
  | bind ?r _ = Ok _ =>
      let E := fresh "E" in
      destruct r eqn:E; simpl bind in H; [| discriminate H]
  end.

(** From [Ok x = Ok y] to [x = y], substituted, without normalising. *)
Ltac ok_inv H :=
  match type of H with
  | Ok ?x = Ok ?y =>
      apply (f_equal (fun r => match r with Ok z => z | Throw _ => x end)) in H;
      cbv beta iota in H; subst y
  end.

(** Both sides of an equation of concatenations, nested to the right. *)
Ltac str_norm :=
  repeat (progress (rewrite ?StrFacts.append_assoc; simpl)).

Lemma makeNameToken_inj (i j : nat) : makeNameToken i = makeNameToken j -> i = j.
Proof.
  unfold makeNameToken. intros E.
  apply StrFacts.append_inj_r in E. now apply StrFacts.of_nat_inj.
Qed.

Local Arguments Spec.containsCalls : simpl never.

Section WithNumber.

Variable Number : string -> float.

Lemma containsLoop_parts (t : DynamoFilterValueType) (i : nat)
    (l : list string) :
  forall j eav orParts eav' orParts',
    containsLoop Number t (makeNameToken i) i j l eav orParts
      = Ok (eav', orParts') ->
    orParts' = (orParts ++ Spec.containsCalls i j (List.length l))%list.
Proof.
  induction l as [| raw l IH]; simpl; intros j eav orParts eav' orParts' H.
  - inversion H. now rewrite app_nil_r.
  - bind_ok H. apply IH in H. subst orParts'.
    unfold push. rewrite <- app_assoc. f_equal.
    unfold Spec.containsCalls. cbn [seq map app]. f_equal.
    unfold makeNameToken, makeValueToken. str_norm. reflexivity.
Qed.

Lemma contains_wrap (calls : list string) :
  "(" ++ match calls with
         | [p] => p
         | _ => "(" ++ Str.join " OR " calls ++ ")"
         end ++ ")"
  = match calls with
    | [one] => "(" ++ one ++ ")"
    | _ => "((" ++ Str.join " OR " calls ++ "))"
    end.
Proof.
  destruct calls as [| c [| c' cs]]; [| reflexivity |];
    generalize (Str.join " OR ") as j; intros j; str_norm; reflexivity.
Qed.

(** What one iteration adds: the name [#f{i}] for the filter's attribute and
    the fragment of the specification. *)
Lemma compileFilter_effect (i : nat) (f : DynamoFilter) (a a' : accumulators) :
  compileFilter Number i f a = Ok a' ->
  names a' = Obj.set (names a) (makeNameToken i) (name f) /\
  parts a' = push (parts a) (Spec.fragment i f).
Proof.
  unfold compileFilter, Spec.fragment.
  destruct (condition f) eqn:Hc; intros H.
  1-6: destruct (is_set_type (type f)); [discriminate H |];
       repeat bind_ok H; inversion H; subst a'; split; reflexivity.
  1-2: inversion H; subst a'; split; reflexivity.
  - (* BEGINS_WITH *)
    destruct (type f); try discriminate H.
    cbv beta iota in H. repeat bind_ok H.
    inversion H; subst a'. split; reflexivity.
  - (* CONTAINS *)
    destruct (is_set_type (type f)).
    + destruct (values f) as [[| raw l] |]; try discriminate H.
      cbv beta iota in H. bind_ok H. destruct a0 as [eav orParts].
      apply containsLoop_parts in E. cbn [app List.length] in E.
      subst orParts. ok_inv H.
      split; [reflexivity |]. cbv [parts]; cbv beta iota. f_equal.
      apply contains_wrap.
    + bind_ok H. inversion H; subst a'. split; reflexivity.
  - (* NOT_CONTAINS *)
    destruct (is_set_type (type f)).
    + destruct (values f) as [[| raw l] |]; try discriminate H.
      cbv beta iota in H. bind_ok H. destruct a0 as [eav orParts].
      apply containsLoop_parts in E. cbn [app List.length] in E.
      subst orParts. ok_inv H.
      split; reflexivity.
    + repeat bind_ok H. inversion H; subst a'. split; reflexivity.
  - (* BETWEEN *)
    destruct (value f), (value2 f); try discriminate H.
    destruct (type f); try discriminate H; cbv beta iota in H;
      repeat bind_ok H; inversion H; subst a'; split; reflexivity.
  - discriminate H.
Qed.

Lemma compileFrom_effect (fs : list DynamoFilter) :
  forall i a a',
    compileFrom Number i fs a = Ok a' ->
    names a' =
      Obj.assign (names a)
        (Spec.mapi_from (fun k f => (makeNameToken k, name f)) i fs) /\
    parts a' = (parts a ++ Spec.mapi_from Spec.fragment i fs)%list.
Proof.
  induction fs as [| f fs IH]; simpl; intros i a a' H.
  - ok_inv H. now rewrite app_nil_r.
  - bind_ok H. apply compileFilter_effect in E. destruct E as [En Ep].
    apply IH in H. destruct H as [Hn Hp].
    rewrite Hn, Hp, En, Ep. unfold push. rewrite <- app_assoc.
    split; reflexivity.
Qed.

End WithNumber.

Lemma name_keys (fs : list DynamoFilter) (i : nat) :
  Obj.keys (Spec.mapi_from (fun k f => (makeNameToken k, name f)) i fs)
  = map makeNameToken (seq i (List.length fs)).
Proof.
  revert i. induction fs as [| f fs IH]; intros i; simpl; [reflexivity |].
  f_equal. apply IH.
Qed.

Lemma name_keys_NoDup (fs : list DynamoFilter) (i : nat) :
  NoDup (Obj.keys (Spec.mapi_from (fun k f => (makeNameToken k, name f)) i fs)).
Proof.
  rewrite name_keys. apply Injective_map_NoDup.
  - intros x y. apply makeNameToken_inj.
  - apply seq_NoDup.
Qed.

Lemma assign_fresh {V : Type} (extra : obj V) :
  forall o,
    NoDup (Obj.keys extra) ->
    (forall k, In k (Obj.keys extra) -> ~ In k (Obj.keys o)) ->
    Obj.assign o extra = (o ++ extra)%list.
Proof.
  unfold Obj.assign.
  induction extra as [| [k v] extra IH]; intros o Hnd Hfresh; simpl.
  - now rewrite app_nil_r.
  - simpl in Hnd. inversion Hnd as [| ? ? Hk Hnd']; subst.
    rewrite ObjFacts.set_fresh.
    + unfold push. rewrite IH; [now rewrite <- app_assoc | exact Hnd' |].
      intros k' Hin. unfold Obj.keys. rewrite map_app, in_app_iff. simpl.
      intros [Ho | [-> | []]].
      * apply (Hfresh k'); [simpl; auto | exact Ho].
      * contradiction.
    + apply ObjFacts.get_none_not_key. apply Hfresh. simpl. auto.
Qed.

Lemma mapi_from_length {A B : Type} (f : nat -> A -> B) (l : list A) (i : nat) :
  List.length (Spec.mapi_from f i l) = List.length l.
Proof.
  revert i. induction l as [| x l IH]; intros i; simpl; [reflexivity |].
  now rewrite IH.
Qed.

(** The expression and the name map of a successful compilation. *)
Lemma generated_shape
    (Number : string -> float) (filters : list DynamoFilter)
    (g : GeneratedDynamoFilterAttributes) :
  generateDynamoFilterAttributes Number filters = Ok (Some g) ->
  filterExpression g = Str.join " AND " (Spec.mapi Spec.fragment filters) /\
  List.length (Spec.mapi Spec.fragment filters) = List.length filters /\
  expressionAttributeNames g =
    Spec.mapi (fun i f => (makeNameToken i, name f)) filters /\
  Obj.keys (expressionAttributeNames g) =
    map makeNameToken (seq 0 (List.length filters)) /\
  NoDup (Obj.keys (expressionAttributeNames g)).
Proof.
  unfold generateDynamoFilterAttributes. intros H.
  destruct filters as [| f fs]; [discriminate H |].
  bind_ok H. apply compileFrom_effect in E. destruct E as [En Ep].
  cbn [names parts app] in En, Ep.
  rewrite assign_fresh in En;
    [| apply name_keys_NoDup | intros k _ []].
  cbn [app] in En.
  assert (Hg : g = {| filterExpression := Str.join " AND " (parts a);
                      expressionAttributeNames := names a;
                      expressionAttributeValues := vals a |}) by congruence.
  subst g. cbn [filterExpression expressionAttributeNames].
  rewrite En, Ep. unfold Spec.mapi.
  repeat split.
  - apply mapi_from_length.
  - apply name_keys.
  - apply name_keys_NoDup.
Qed.

(** C3: a filter set that compiles yields the fragments of its filters, one
    per filter and in input order, joined with [" AND "], and a name map
    that lists the tokens [#f0 .. #f{n-1}] in input order, each bound to the
    attribute name of the filter at that index, with no token repeated. *)
Theorem expression_joins_fragments_names_in_order
    (Number : string -> float) (filters : list DynamoFilter)
    (g : GeneratedDynamoFilterAttributes) :
  generateDynamoFilterAttributes Number filters = Ok (Some g) ->
  filterExpression g = Str.join " AND " (Spec.mapi Spec.fragment filters) /\
  List.length (Spec.mapi Spec.fragment filters) = List.length filters /\
  expressionAttributeNames g =
    Spec.mapi (fun i f => (makeNameToken i, name f)) filters /\
  Obj.keys (expressionAttributeNames g) =
    map makeNameToken (seq 0 (List.length filters)) /\
  NoDup (Obj.keys (expressionAttributeNames g)).
Proof. apply generated_shape. Qed.

Ltac run_filter :=
  unfold generateDynamoFilterAttributes; cbn [compileFrom];
  unfold compileFilter, requireValue;
  cbn [name type condition value value2 values bind];
  repeat match goal with
         | E : ?x = _ |- context [?x] => rewrite E
         end;
  cbn [containsLoop bind is_set_type];
  repeat (match goal with
          | E : ?x = _ |- context [?x] => rewrite E
          end; cbn [containsLoop bind]);
  try reflexivity.

(** C4: the parentheses of the containment conditions, for a filter that is
    alone in its set (index 0).  On a set type, [CONTAINS] with one element
    renders [(contains(#f0, :f0vs0))] and with two elements the doubly
    parenthesized disjunction; [NOT_CONTAINS] on a scalar type renders
    [NOT contains(#f0, :f0v)] bare, and on a set type
    [(NOT (contains(...) OR contains(...)))]. *)
Theorem containment_parentheses
    (Number : string -> float) (f : DynamoFilter) :
  (is_set_type (type f) = true ->
   (forall a va,
      condition f = CONTAINS -> values f = Some [a] ->
      parseSetElement Number (type f) a = Ok va ->
      generateDynamoFilterAttributes Number [f] =
        Ok (Some {| filterExpression := "(contains(#f0, :f0vs0))";
                    expressionAttributeNames := [("#f0", name f)];
                    expressionAttributeValues := [(":f0vs0", va)] |})) /\
   (forall a b va vb,
      condition f = CONTAINS -> values f = Some [a; b] ->
      parseSetElement Number (type f) a = Ok va ->
      parseSetElement Number (type f) b = Ok vb ->
      generateDynamoFilterAttributes Number [f] =
        Ok (Some {| filterExpression :=
                      "((contains(#f0, :f0vs0) OR contains(#f0, :f0vs1)))";
                    expressionAttributeNames := [("#f0", name f)];
                    expressionAttributeValues :=
                      [(":f0vs0", va); (":f0vs1", vb)] |})) /\
   (forall a b va vb,
      condition f = NOT_CONTAINS -> values f = Some [a; b] ->
      parseSetElement Number (type f) a = Ok va ->
      parseSetElement Number (type f) b = Ok vb ->
      generateDynamoFilterAttributes Number [f] =
        Ok (Some {| filterExpression :=
                      "(NOT (contains(#f0, :f0vs0) OR contains(#f0, :f0vs1)))";
                    expressionAttributeNames := [("#f0", name f)];
                    expressionAttributeValues :=
                      [(":f0vs0", va); (":f0vs1", vb)] |})) /\
   (forall l g,
      condition f = NOT_CONTAINS -> values f = Some l ->
      generateDynamoFilterAttributes Number [f] = Ok (Some g) ->
      filterExpression g =
        "(NOT (" ++ Str.join " OR " (Spec.containsCalls 0 0 (List.length l))
        ++ "))")) /\
  (is_set_type (type f) = false ->
   forall raw v,
     condition f = NOT_CONTAINS -> value f = Some raw ->
     parseValueByType Number (type f) raw = Ok v ->
     generateDynamoFilterAttributes Number [f] =
       Ok (Some {| filterExpression := "NOT contains(#f0, :f0v)";
                   expressionAttributeNames := [("#f0", name f)];
                   expressionAttributeValues := [(":f0v", v)] |})).
Proof.
  split.
  - intros Hset. repeat split.
    + intros a va Hc Hv Ea. run_filter.
    + intros a b va vb Hc Hv Ea Eb. run_filter.
    + intros a b va vb Hc Hv Ea Eb. run_filter.
    + intros l g Hc Hv H.
      apply generated_shape in H.
      destruct H as [H _]. rewrite H.
      unfold Spec.mapi, Spec.fragment.
      cbn [Spec.mapi_from Str.join String.concat].
      now rewrite Hc, Hv, Hset.
  - intros Hset raw v Hc Hv E. run_filter.
Qed.

Lemma containment_parentheses_witness :
  generateDynamoFilterAttributes Sample.Number
    [setFilter "scores" T_NS CONTAINS ["1"; "2"]] =
    Ok (Some {| filterExpression :=
                  "((contains(#f0, :f0vs0) OR contains(#f0, :f0vs1)))";
                expressionAttributeNames := [("#f0", "scores")];
                expressionAttributeValues :=
                  [(":f0vs0", VNum (Sample.Number "1"));
                   (":f0vs1", VNum (Sample.Number "2"))] |}) /\
  generateDynamoFilterAttributes Sample.Number
    [scalarFilter "title" T_S NOT_CONTAINS (Some "draft") None] =
    Ok (Some {| filterExpression := "NOT contains(#f0, :f0v)";
                expressionAttributeNames := [("#f0", "title")];
                expressionAttributeValues := [(":f0v", VStr "draft")] |}).
Proof.
  split.
  - exact (proj1 (proj2 (proj1 (containment_parentheses Sample.Number
                                  (setFilter "scores" T_NS CONTAINS ["1"; "2"]))
                           eq_refl))
             "1" "2" _ _ eq_refl eq_refl eq_refl eq_refl).
  - exact (proj2 (containment_parentheses Sample.Number
                    (scalarFilter "title" T_S NOT_CONTAINS (Some "draft") None))
             eq_refl "draft" _ eq_refl eq_refl eq_refl).
Defined.

Lemma parseValueByType_fails (Number : string -> float)
    (t : DynamoFilterValueType) (raw : string) (e : exn) :
  parseValueByType Number t raw = Throw e ->
  (t = T_N /\ Number_isFinite (Number raw) = false /\
   e = invalid_numeric raw " for type N") \/
  (t = T_BOOL /\ e = invalid_boolean raw).
Proof.
  destruct t; simpl; try discriminate.
  - destruct (Number_isFinite (Number raw)); simpl; [discriminate |].
    intros [= <-]. left. auto.
  - repeat match goal with
           | |- context [if ?b then _ else _] => destruct b; try discriminate
           end.
    intros [= <-]. right. auto.
Qed.

(** C5, as the code has it.  A [BETWEEN] filter without [value] or [value2]
    fails with the missing-operand error; otherwise a declared type among
    string-set, number-set, boolean and null fails with the type-mismatch
    error; otherwise both operands are coerced, in order, and a failing
    coercion (a type [N] operand that is not a finite number) is the
    outcome; when both coerce, the fragment
    [(#f{i} BETWEEN :f{i}v AND :f{i}v2)] is rendered and the two tokens are
    bound to the coerced operands. *)
Theorem between_outcomes
    (Number : string -> float) (i : nat) (f : DynamoFilter) (a : accumulators) :
  condition f = BETWEEN ->
  (value f = None \/ value2 f = None ->
   compileFilter Number i f a =
     Throw (Error ("BETWEEN requires value and value2 for filter["
                   ++ Str.of_nat i ++ "]"))) /\
  (forall raw1 raw2,
     value f = Some raw1 -> value2 f = Some raw2 ->
     (In (type f) Spec.between_forbidden ->
      compileFilter Number i f a =
        Throw (Error ("BETWEEN is not valid for type " ++ type_tag (type f)
                      ++ " (filter[" ++ Str.of_nat i ++ "])"))) /\
     (~ In (type f) Spec.between_forbidden ->
      (forall x1 x2,
         parseValueByType Number (type f) raw1 = Ok x1 ->
         parseValueByType Number (type f) raw2 = Ok x2 ->
         compileFilter Number i f a =
           Ok {| names := Obj.set (names a) ("#f" ++ Str.of_nat i) (name f);
                 vals := Obj.set (Obj.set (vals a)
                                    (":f" ++ Str.of_nat i ++ "v") x1)
                           (":f" ++ Str.of_nat i ++ "v2") x2;
                 parts := push (parts a)
                            ("(#f" ++ Str.of_nat i ++ " BETWEEN :f"
                             ++ Str.of_nat i ++ "v AND :f" ++ Str.of_nat i
                             ++ "v2)") |}) /\
      (forall e,
         parseValueByType Number (type f) raw1 = Throw e ->
         compileFilter Number i f a = Throw e /\
         type f = T_N /\ e = invalid_numeric raw1 " for type N") /\
      (forall x1 e,
         parseValueByType Number (type f) raw1 = Ok x1 ->
         parseValueByType Number (type f) raw2 = Throw e ->
         compileFilter Number i f a = Throw e /\
         type f = T_N /\ e = invalid_numeric raw2 " for type N"))).
Proof.
  intros Hc. unfold compileFilter. rewrite Hc. split.
  - intros [Hv | Hv]; rewrite Hv; [reflexivity |].
    destruct (value f); reflexivity.
  - intros raw1 raw2 Hv1 Hv2. rewrite Hv1, Hv2. unfold Spec.between_forbidden.
    split.
    + intros Hin. simpl in Hin.
      destruct Hin as [<- | [<- | [<- | [<- | []]]]]; reflexivity.
    + intros Hnot.
      assert (Ht : type f = T_S \/ type f = T_N).
      { destruct (type f); simpl in Hnot; tauto. }
      repeat split.
      * intros x1 x2 E1 E2.
        destruct Ht as [Ht | Ht]; rewrite Ht in *; cbv beta iota;
          rewrite E1, E2; cbn [bind]; unfold makeNameToken, makeValueToken;
          f_equal; f_equal; f_equal; str_norm; reflexivity.
      * destruct Ht as [Ht | Ht]; rewrite Ht in *; cbv beta iota;
          rewrite H; reflexivity.
      * destruct (parseValueByType_fails _ _ _ H) as [[Ht' _] | [Ht' _]];
          [exact Ht' | destruct Ht as [Ht | Ht]; congruence].
      * destruct (parseValueByType_fails _ _ _ H) as [[_ [_ He]] | [Ht' _]];
          [exact He | destruct Ht as [Ht | Ht]; congruence].
      * destruct Ht as [Ht | Ht]; rewrite Ht in *; cbv beta iota;
          rewrite H, H0; reflexivity.
      * destruct (parseValueByType_fails _ _ _ H0) as [[Ht' _] | [Ht' _]];
          [exact Ht' | destruct Ht as [Ht | Ht]; congruence].
      * destruct (parseValueByType_fails _ _ _ H0) as [[_ [_ He]] | [Ht' _]];
          [exact He | destruct Ht as [Ht | Ht]; congruence].
Qed.

Lemma between_outcomes_witness :
  compileFilter Sample.Number 0
    (scalarFilter "age" T_N BETWEEN (Some "18") (Some "65")) noAccumulators =
    Ok {| names := [("#f0", "age")];
          vals := [(":f0v", VNum (Sample.Number "18"));
                   (":f0v2", VNum (Sample.Number "65"))];
          parts := ["(#f0 BETWEEN :f0v AND :f0v2)"] |}.
Proof.
  refine (proj1 (proj2 (proj2 (between_outcomes Sample.Number 0
                     (scalarFilter "age" T_N BETWEEN (Some "18") (Some "65"))
                     noAccumulators eq_refl)
                   "18" "65" eq_refl eq_refl) _)
           _ _ eq_refl eq_refl).
  simpl. intros H. repeat (destruct H as [H | H]; [discriminate H |]).
  exact H.
Defined.

(** The claim as the specification words it fails: both operands of this
    [BETWEEN] filter are strings and its type is [N], which is not
    forbidden, yet nothing is rendered: the coercion of [abc] throws. *)
Lemma between_not_rendered :
  let f := scalarFilter "age" T_N BETWEEN (Some "abc") (Some "5") in
  value f = Some "abc" /\ value2 f = Some "5" /\
  ~ In (type f) Spec.between_forbidden /\
  compileFilter Sample.Number 0 f noAccumulators =
    Throw (invalid_numeric "abc" " for type N") /\
  generateDynamoFilterAttributes Sample.Number [f] =
    Throw (invalid_numeric "abc" " for type N").
Proof.
  simpl. repeat split.
  intros H. repeat (destruct H as [H | H]; [discriminate H |]). exact H.
Qed.

(** C6, as the code has it.  A comparison filter on a set type fails with
    an error that ends in [use CONTAINS/NOT_CONTAINS]; on any other type it
    requires [value], coerces it (a failing coercion, of a non-finite number
    or of a string that is no boolean, is then the outcome), binds the one
    token [:f{i}v] and renders [(#f{i} {op} :f{i}v)] with the operator of
    the table. *)
Theorem comparison_outcomes
    (Number : string -> float) (i : nat) (f : DynamoFilter) (a : accumulators) :
  Spec.is_comparison (condition f) = true ->
  (is_set_type (type f) = true ->
   compileFilter Number i f a =
     Throw (Error (("Comparator " ++ Str.dquote ++ condition_tag (condition f)
                    ++ Str.dquote ++ " is not supported for "
                    ++ type_tag (type f) ++ "; ")
                   ++ "use CONTAINS/NOT_CONTAINS"))) /\
  (is_set_type (type f) = false ->
   (value f = None ->
    compileFilter Number i f a =
      Throw (Error (condition_tag (condition f) ++ " requires value for filter["
                    ++ Str.of_nat i ++ "]"))) /\
   (forall raw,
      value f = Some raw ->
      (forall x,
         parseValueByType Number (type f) raw = Ok x ->
         compileFilter Number i f a =
           Ok {| names := Obj.set (names a) ("#f" ++ Str.of_nat i) (name f);
                 vals := Obj.set (vals a) (":f" ++ Str.of_nat i ++ "v") x;
                 parts := push (parts a)
                            ("(#f" ++ Str.of_nat i ++ " "
                             ++ Spec.operator (condition f) ++ " :f"
                             ++ Str.of_nat i ++ "v)") |}) /\
      (forall e,
         parseValueByType Number (type f) raw = Throw e ->
         compileFilter Number i f a = Throw e /\
         (e = invalid_numeric raw " for type N" \/ e = invalid_boolean raw)))).
Proof.
  intros Hc. unfold compileFilter.
  split; [intros Hset | intros Hset; split; [intros Hv | intros raw Hv; split]].
  - destruct (condition f); try discriminate Hc; rewrite Hset;
      do 2 f_equal; str_norm; reflexivity.
  - unfold requireValue.
    destruct (condition f); try discriminate Hc; rewrite Hset, Hv; reflexivity.
  - intros x E. unfold requireValue.
    destruct (condition f); try discriminate Hc; rewrite Hset, Hv; cbn [bind];
      rewrite E; cbn [bind]; unfold makeNameToken, makeValueToken;
      cbn [comparison_operator Spec.operator];
      f_equal; f_equal; f_equal; str_norm; reflexivity.
  - intros e E. unfold requireValue. split.
    + destruct (condition f); try discriminate Hc; rewrite Hset, Hv; cbn [bind];
        rewrite E; reflexivity.
    + destruct (parseValueByType_fails _ _ _ E) as [[_ [_ He]] | [_ He]]; auto.
Qed.

Lemma comparison_outcomes_witness :
  compileFilter Sample.Number 0
    (scalarFilter "age" T_N GREATER_THAN_OR_EQUAL_TO (Some "18") None)
    noAccumulators =
    Ok {| names := [("#f0", "age")];
          vals := [(":f0v", VNum (Sample.Number "18"))];
          parts := ["(#f0 >= :f0v)"] |}.
Proof.
  exact (proj1 (proj2 (proj2 (comparison_outcomes Sample.Number 0
                   (scalarFilter "age" T_N GREATER_THAN_OR_EQUAL_TO
                      (Some "18") None)
                   noAccumulators eq_refl) eq_refl)
                 "18" eq_refl) _ eq_refl).
Defined.

(** The claim as the specification words it fails: the type of this
    [EQUAL_TO] filter is not a set type and its [value] is present, yet no
    fragment is rendered: [maybe] is no boolean. *)
Lemma comparison_not_rendered :
  let f := scalarFilter "active" T_BOOL EQUAL_TO (Some "maybe") None in
  Spec.is_comparison (condition f) = true /\
  is_set_type (type f) = false /\ value f = Some "maybe" /\
  compileFilter Sample.Number 0 f noAccumulators =
    Throw (invalid_boolean "maybe") /\
  generateDynamoFilterAttributes Sample.Number [f] =
    Throw (invalid_boolean "maybe").
Proof. simpl. repeat split. Qed.

Lemma expression_joins_fragments_names_in_order_witness :
  exists g,
    generateDynamoFilterAttributes Sample.Number
      [setFilter "tags" T_SS CONTAINS ["a"; "b"];
       scalarFilter "age" T_N BETWEEN (Some "18") (Some "65");
       scalarFilter "email" T_S EXISTS None None] = Ok (Some g) /\
    filterExpression g =
      "((contains(#f0, :f0vs0) OR contains(#f0, :f0vs1))) AND (#f1 BETWEEN :f1v AND :f1v2) AND (attribute_exists(#f2))" /\
    expressionAttributeNames g =
      [("#f0", "tags"); ("#f1", "age"); ("#f2", "email")].
Proof.
  eexists. split; [vm_compute; reflexivity |].
  pose proof (expression_joins_fragments_names_in_order Sample.Number
                [setFilter "tags" T_SS CONTAINS ["a"; "b"];
                 scalarFilter "age" T_N BETWEEN (Some "18") (Some "65");
                 scalarFilter "email" T_S EXISTS None None]
                (g := {| filterExpression := _; expressionAttributeNames := _;
                         expressionAttributeValues := _ |})
                ltac:(vm_compute; reflexivity)) as [He [_ [Hn _]]].
  split; [exact He | exact Hn].
Defined.

End FilterFacts.

(* ================================================================== *)
(** * Properties of the two number-set coercions *)
(* ================================================================== *)

Module CoercionFacts.
Import Filter Examples.

Lemma NaN_not_finite (n : float) : isNaN n = true -> Number_isFinite n = false.
Proof.
  unfold isNaN, Number_isFinite, PrimFloat.is_finite. intros H. now rewrite H.
Qed.

Section WithBuiltins.

Variable Number : string -> float.
Variable JSON_parse : string -> option jsval.
Variable Buffer_from_base64 : string -> string.

Lemma containsLoop_strict (i : nat) (nameToken : string) (l : list string) :
  forall j eav orParts,
    Exists (fun raw => Number_isFinite (Number raw) = false) l ->
    exists raw,
      In raw l /\ Number_isFinite (Number raw) = false /\
      containsLoop Number T_NS nameToken i j l eav orParts =
        Throw (invalid_numeric raw " for type NS element").
Proof.
  induction l as [| x l IH]; intros j eav orParts Hex.
  - inversion Hex.
  - simpl. destruct (Number_isFinite (Number x)) eqn:Hx; simpl.
    + inversion Hex as [? ? Hbad | ? ? Hrest]; subst; [congruence |].
      destruct (IH (S j) (Obj.set eav (makeValueToken i ("vs" ++ Str.of_nat j))
                            (VNum (Number x)))
                  (push orParts
                     ("contains(" ++ nameToken ++ ", "
                      ++ makeValueToken i ("vs" ++ Str.of_nat j) ++ ")"))
                  Hrest)
        as [raw [Hin [Hf Hr]]].
      exists raw. auto.
    + exists x. auto.
Qed.

(** C9: [parseDynamoKeyValue] on a number set never throws: it splits on
    commas, converts each trimmed element and keeps, in order, exactly the
    conversions that are not NaN; the set element coercion of the
    [CONTAINS] and [NOT_CONTAINS] filters instead throws the invalid-numeric
    error on an element whose conversion is NaN, and so does the compilation
    of a number-set filter that has such an element. *)
Theorem number_set_lenient_element_strict :
  (forall key,
     exists nums,
       KeyValue.parseDynamoKeyValue Number JSON_parse Buffer_from_base64
         key "NS" = Ok (VArr (map VNum nums)) /\
       nums = filter (fun num => negb (isNaN num))
                (map (fun item => Number (Str.trim item)) (Str.split "," key)) /\
       (forall num, In num nums <->
          isNaN num = false /\
          exists item, In item (Str.split "," key) /\
                       num = Number (Str.trim item))) /\
  (forall raw,
     isNaN (Number raw) = true ->
     parseSetElement Number T_NS raw =
       Throw (invalid_numeric raw " for type NS element")) /\
  (forall i f a l,
     type f = T_NS ->
     condition f = CONTAINS \/ condition f = NOT_CONTAINS ->
     values f = Some l ->
     Exists (fun raw => isNaN (Number raw) = true) l ->
     exists raw,
       In raw l /\
       compileFilter Number i f a =
         Throw (invalid_numeric raw " for type NS element")).
Proof.
  repeat split.
  - intros key. eexists. split; [reflexivity |]. split; [reflexivity |].
    intros num. rewrite filter_In, in_map_iff, negb_true_iff.
    split.
    + intros [[item [E Hin]] Hn]. split; [exact Hn |]. exists item. auto.
    + intros [Hn [item [Hin E]]]. split; [| exact Hn]. exists item. auto.
  - intros raw H. simpl. now rewrite (NaN_not_finite _ H).
  - intros i f a l Ht Hc Hv Hex.
    assert (Hex' : Exists (fun raw => Number_isFinite (Number raw) = false) l).
    { apply Exists_exists in Hex. destruct Hex as [raw [Hin Hn]].
      apply Exists_exists. exists raw. split; [exact Hin |].
      now apply NaN_not_finite. }
    destruct l as [| x l]; [inversion Hex |].
    destruct (containsLoop_strict i (makeNameToken i) 0 (vals a) [] Hex')
      as [raw [Hin [_ Hr]]].
    exists raw. split; [exact Hin |].
    unfold compileFilter.
    destruct Hc as [Hc | Hc]; rewrite Hc, Ht, Hv; cbn [is_set_type];
      cbv beta iota; rewrite Hr; reflexivity.
Qed.

End WithBuiltins.

Lemma number_set_lenient_element_strict_witness :
  KeyValue.parseDynamoKeyValue Sample.Number Sample.JSON_parse
    Sample.Buffer_from_base64 "1, abc,2" "NS" =
    Ok (VArr [VNum (Sample.Number "1"); VNum (Sample.Number "2")]) /\
  exists raw,
    In raw ["1"; "bad"] /\
    generateDynamoFilterAttributes Sample.Number
      [setFilter "nums" T_NS CONTAINS ["1"; "bad"]] =
      Throw (invalid_numeric raw " for type NS element").
Proof.
  split; [reflexivity |].
  destruct (proj2 (proj2 (number_set_lenient_element_strict Sample.Number
                            Sample.JSON_parse Sample.Buffer_from_base64))
              0 (setFilter "nums" T_NS CONTAINS ["1"; "bad"]) noAccumulators
              ["1"; "bad"] eq_refl (or_introl eq_refl) eq_refl
              ltac:(apply Exists_cons_tl, Exists_cons_hd; reflexivity))
    as [raw [Hin Hr]].
  exists raw. split; [exact Hin |].
  unfold generateDynamoFilterAttributes. cbn [compileFrom].
  fold noAccumulators. rewrite Hr. reflexivity.
Defined.

End CoercionFacts.

(* ================================================================== *)
(** * Properties of the update command builder *)
(* ================================================================== *)

Module UpdateFacts.
Import Update Examples.

Lemma candidate_inj (field : string) (n m : nat) :
  candidate field n = candidate field m -> n = m.
Proof.
  unfold candidate. intros E.
  apply (StrFacts.append_inj_r ":") in E.
  apply StrFacts.append_inj_r in E.
  apply (StrFacts.append_inj_r "_update_") in E.
  now apply StrFacts.of_nat_inj.
Qed.

Lemma in_use_key (values : obj jsval) (k : string) :
  in_use values k = true -> In k (Obj.keys values).
Proof.
  unfold in_use. destruct (Obj.get values k) as [v |] eqn:E; [| discriminate].
  intros _. exact (ObjFacts.get_some_key _ _ E).
Qed.

(** What a bounded run of the probing loop returns. *)
Lemma probe_spec (values : obj jsval) (field : string) (fuel : nat) :
  forall counter,
    match probe fuel values field counter with
    | Some t =>
        exists n,
          counter <= n < counter + fuel /\ t = candidate field n /\
          in_use values t = false /\
          forall m, counter <= m < n ->
                    in_use values (candidate field m) = true
    | None =>
        forall m, counter <= m < counter + fuel ->
                  in_use values (candidate field m) = true
    end.
Proof.
  induction fuel as [| fuel IH]; intros counter; simpl.
  - intros m Hm. lia.
  - destruct (in_use values (candidate field counter)) eqn:Hu.
    + specialize (IH (S counter)).
      destruct (probe fuel values field (S counter)) as [t |].
      * destruct IH as [n [Hn [Ht [Hf Hlt]]]].
        exists n. repeat split; try lia; auto.
        intros m Hm. destruct (Nat.eq_dec m counter) as [-> | Hne];
          [exact Hu | apply Hlt; lia].
      * intros m Hm. destruct (Nat.eq_dec m counter) as [-> | Hne];
          [exact Hu | apply IH; lia].
    + exists counter. repeat split; try lia; auto.
Qed.

(** One probe more than there are properties always succeeds: the
    candidates are pairwise distinct, and only properties are in use. *)
Lemma probe_terminates (values : obj jsval) (field : string) :
  probe (S (List.length values)) values field 1 <> None.
Proof.
  intros Hnone.
  pose proof (probe_spec values field (S (List.length values)) 1) as H.
  rewrite Hnone in H.
  set (cs := map (candidate field) (seq 1 (S (List.length values)))).
  assert (Hnd : NoDup cs).
  { apply Injective_map_NoDup; [| apply seq_NoDup].
    intros x y. apply candidate_inj. }
  assert (Hincl : incl cs (Obj.keys values)).
  { intros k Hk. apply in_map_iff in Hk. destruct Hk as [m [<- Hm]].
    apply in_seq in Hm. apply in_use_key, H. lia. }
  pose proof (NoDup_incl_length Hnd Hincl) as Hlen.
  unfold cs in Hlen.
  rewrite length_map, length_seq, ObjFacts.keys_length in Hlen. lia.
Qed.

Lemma valueKeyFor_chosen (values : obj jsval) (field : string) :
  Spec.token_rule (in_use values) field (valueKeyFor values field).
Proof.
  unfold valueKeyFor.
  destruct (in_use values (":" ++ field)) eqn:Hu; [| now constructor].
  pose proof (probe_spec values field (S (List.length values)) 1) as H.
  pose proof (probe_terminates values field) as Hsome.
  destruct (probe (S (List.length values)) values field 1) as [t |];
    [| contradiction].
  destruct H as [n [Hn [-> [Hf Hlt]]]].
  apply Spec.chosen_probed; auto. lia.
Qed.

Lemma chosen_token_unused (used : string -> bool) (field token : string) :
  Spec.token_rule used field token -> used token = false.
Proof. now intros []. Qed.

(** The rule only looks at the test on the tokens. *)
Lemma token_rule_ext (used used' : string -> bool) (field token : string) :
  (forall k, used k = used' k) ->
  Spec.token_rule used field token -> Spec.token_rule used' field token.
Proof.
  intros Hext [Hu | n Hu Hn Hlt Hf].
  - apply Spec.chosen_plain. now rewrite <- Hext.
  - apply Spec.chosen_probed; try assumption.
    + now rewrite <- Hext.
    + intros m Hm. rewrite <- Hext. now apply Hlt.
    + now rewrite <- Hext.
Qed.

(** The loop over the item's fields assigns the tokens by the rule, with
    the test of the code: a token is taken when the map binds it to a value
    other than [undefined]. *)
Lemma assignFields_assigns (itemRecord : obj jsval) :
  forall values updateParts,
    exists fragments,
      snd (assignFields itemRecord values updateParts)
        = (updateParts ++ fragments)%list /\
      Spec.assigns in_use itemRecord values fragments
        (fst (assignFields itemRecord values updateParts)).
Proof.
  induction itemRecord as [| [field value] rest IH]; intros values updateParts.
  - exists []. simpl. split; [now rewrite app_nil_r | constructor].
  - cbn [assignFields].
    destruct (IH (Obj.set values (valueKeyFor values field) value)
                (push updateParts (field ++ " = " ++ valueKeyFor values field)))
      as [fragments [Hs Ha]].
    exists ((field ++ " = " ++ valueKeyFor values field) :: fragments).
    split.
    + rewrite Hs. unfold push. now rewrite <- app_assoc.
    + econstructor; [apply valueKeyFor_chosen | exact Ha].
Qed.

(** A property that holds a value other than [undefined] keeps it. *)
Lemma assigns_preserves (itemRecord values : obj jsval)
    (fragments : list string) (values' : obj jsval) :
  Spec.assigns in_use itemRecord values fragments values' ->
  forall k v,
    Obj.get values k = Some v -> is_undefined v = false ->
    Obj.get values' k = Some v.
Proof.
  induction 1 as [| field value rest values token fragments values' Hc _ IH];
    intros k v Hg Hd; [exact Hg |].
  apply IH; [| exact Hd].
  rewrite ObjFacts.get_set_other; [exact Hg |].
  intros ->. apply chosen_token_unused in Hc.
  unfold in_use in Hc. rewrite Hg, Hd in Hc. discriminate.
Qed.

Lemma assigns_nonempty (used : obj jsval -> string -> bool)
    (itemRecord values : obj jsval)
    (fragments : list string) (values' : obj jsval) :
  Spec.assigns used itemRecord values fragments values' ->
  itemRecord <> [] \/ values <> [] -> values' <> [].
Proof.
  induction 1 as [| field value rest values token fragments values' _ _ IH].
  - intros [H | H]; [contradiction | exact H].
  - intros _. apply IH. right.
    destruct values as [| [k0 v0] values]; simpl; [discriminate |].
    destruct (String.eqb k0 token); discriminate.
Qed.

(** On a map without [undefined] values the test of the code is the test of
    the specification. *)
Lemma in_use_exists (values : obj jsval) (k : string) :
  Forall (fun kv => is_undefined (snd kv) = false) values ->
  in_use values k = Spec.exists_in values k.
Proof.
  unfold in_use, Spec.exists_in, Obj.has.
  induction 1 as [| [k' v'] values Hd _ IH]; simpl; [reflexivity |].
  destruct (String.eqb k' k); [| exact IH].
  simpl in Hd. now rewrite Hd.
Qed.

Lemma set_defined (values : obj jsval) (k : string) (v : jsval) :
  Forall (fun kv => is_undefined (snd kv) = false) values ->
  is_undefined v = false ->
  Forall (fun kv => is_undefined (snd kv) = false) (Obj.set values k v).
Proof.
  intros H Hv. induction H as [| [k' v'] values Hd Htail IH]; simpl.
  - now repeat constructor.
  - destruct (String.eqb k' k); constructor; simpl; auto.
Qed.

(** Without [undefined] values, in the map and in the item, the loop
    follows the rule of the specification as worded. *)
Lemma assigns_as_specified (itemRecord values : obj jsval)
    (fragments : list string) (values' : obj jsval) :
  Spec.assigns in_use itemRecord values fragments values' ->
  Forall (fun kv => is_undefined (snd kv) = false) values ->
  Forall (fun kv => is_undefined (snd kv) = false) itemRecord ->
  Spec.assigns Spec.exists_in itemRecord values fragments values'.
Proof.
  induction 1 as [| field value rest values token fragments values' Hc _ IH];
    intros Hvalues Hitem; [constructor |].
  inversion Hitem as [| ? ? Hvalue Hrest]; subst. simpl in Hvalue.
  constructor.
  - eapply token_rule_ext; [| exact Hc].
    intros k. now apply in_use_exists.
  - apply IH; [now apply set_defined | exact Hrest].
Qed.

(** C7, as the code has it.  When the update expression is generated from
    the item, every field gets its token by the rule of the specification
    with the test of the code: a token is taken when the accumulated value
    map binds it to a value other than [undefined].  The fragments
    [field = token] make the [SET] expression, and no entry of the caller's
    value map that holds a value other than [undefined] is overwritten.
    When neither the caller's map nor the item holds [undefined], this is
    the rule as the specification words it, on existing tokens.  A caller
    that binds [:name] to such a value sees the field [name] assigned under
    [:name_update_1]. *)
Theorem update_tokens_avoid_collisions (RESERVED_KEYWORDS : list string) :
  (forall input itemRecord,
     Str.otruthy (updateExpression input) = false ->
     item input = Some itemRecord -> itemRecord <> [] ->
     exists fragments values' cmd,
       buildUpdateCommandInput RESERVED_KEYWORDS input = Ok cmd /\
       Spec.assigns in_use itemRecord (mergedValues input) fragments values' /\
       UpdateExpression cmd =
         Some (Reserved.replaceReservedKeywordsFromUpdateExp RESERVED_KEYWORDS
                 ("SET " ++ Str.join ", " fragments)) /\
       ExpressionAttributeValues cmd = Some values' /\
       (forall k v,
          Obj.get (mergedValues input) k = Some v -> is_undefined v = false ->
          Obj.get values' k = Some v) /\
       (Forall (fun kv => is_undefined (snd kv) = false) (mergedValues input) ->
        Forall (fun kv => is_undefined (snd kv) = false) itemRecord ->
        Spec.assigns Spec.exists_in itemRecord (mergedValues input)
          fragments values')) /\
  (forall v x,
     is_undefined v = false ->
     exists cmd,
       buildUpdateCommandInput RESERVED_KEYWORDS
         (updateName [(":name", v)] [("name", x)]) = Ok cmd /\
       UpdateExpression cmd =
         Some (Reserved.replaceReservedKeywordsFromUpdateExp RESERVED_KEYWORDS
                 "SET name = :name_update_1") /\
       ExpressionAttributeValues cmd =
         Some [(":name", v); (":name_update_1", x)]).
Proof.
  split.
  - intros input itemRecord Hmode Hitem Hne.
    unfold buildUpdateCommandInput. rewrite Hmode, Hitem.
    destruct (assignFields_assigns itemRecord (mergedValues input) [])
      as [fragments [Hs Ha]].
    destruct (assignFields itemRecord (mergedValues input) [])
      as [values' updateParts] eqn:Hloop.
    cbn [fst snd app] in Hs, Ha. subst updateParts.
    destruct itemRecord as [| entry rest]; [contradiction |].
    exists fragments, values'. eexists.
    split; [reflexivity |].
    split; [exact Ha |].
    split; [reflexivity |].
    split; [| split].
    + cbn [ExpressionAttributeValues]. unfold attach.
      pose proof (assigns_nonempty Ha (or_introl Hne)) as Hv.
      destruct values'; [contradiction | reflexivity].
    + exact (assigns_preserves Ha).
    + exact (assigns_as_specified Ha).
  - intros v x Hd. eexists.
    unfold buildUpdateCommandInput, mergedValues, mergedNames, updateName.
    cbn [updateExpression item expressionAttributeValues
         extraExpAttributeValues expressionAttributeNames
         extraExpAttributeNames Str.otruthy Obj.or_empty].
    unfold assignFields, valueKeyFor, in_use.
    cbn [Obj.assign fold_left Obj.set fst snd Obj.get String.eqb Ascii.eqb
         Bool.eqb append List.length].
    rewrite Hd. cbn [negb probe]. unfold in_use.
    split; [reflexivity |]. split; reflexivity.
Qed.

Lemma update_tokens_avoid_collisions_witness :
  buildUpdateCommandInput Sample.RESERVED_KEYWORDS
    (updateName [(":name", VStr "caller")] [("name", VStr "John Doe")]) =
  Ok {| TableName := "Users"; Key := [("userId", VStr "123")];
        ConditionExpression := None; ReturnValues := "NONE";
        ReturnConsumedCapacity := None; ReturnItemCollectionMetrics := None;
        ExpressionAttributeNames := Some [("#name", "name")];
        ExpressionAttributeValues :=
          Some [(":name", VStr "caller"); (":name_update_1", VStr "John Doe")];
        UpdateExpression := Some "SET #name = :name_update_1" |} /\
  Obj.get [(":name", VStr "caller"); (":name_update_1", VStr "John Doe")]
    ":name" = Some (VStr "caller") /\
  exists fragments,
    Spec.assigns Spec.exists_in [("name", VStr "John Doe")]
      [(":name", VStr "caller")] fragments
      [(":name", VStr "caller"); (":name_update_1", VStr "John Doe")].
Proof.
  split; [vm_compute; reflexivity |].
  destruct (proj1 (update_tokens_avoid_collisions Sample.RESERVED_KEYWORDS)
              (updateName [(":name", VStr "caller")] [("name", VStr "John Doe")])
              [("name", VStr "John Doe")] eq_refl eq_refl
              ltac:(discriminate))
    as [fragments [values' [cmd [Hb [Ha [Hu [Hv [Hkeep Hspec]]]]]]]].
  vm_compute in Hb. injection Hb as <-. cbn in Hv. injection Hv as <-.
  split; [exact (Hkeep ":name" (VStr "caller") eq_refl eq_refl) |].
  exists fragments.
  exact (Hspec ltac:(repeat constructor) ltac:(repeat constructor)).
Defined.

(** The claim as the specification words it fails when the caller's map
    holds [:name] with the value [undefined]: the token exists in the map,
    so the rule of the specification asks for [:name_update_1], yet the code
    assigns the field [name] under [:name] itself and overwrites the
    caller's entry. *)
Lemma undefined_binding_overwritten :
  let input := updateName [(":name", VUndefined)] [("name", VStr "John Doe")] in
  Spec.exists_in (mergedValues input) ":name" = true /\
  Obj.get (mergedValues input) ":name" = Some VUndefined /\
  buildUpdateCommandInput Sample.RESERVED_KEYWORDS input =
    Ok {| TableName := "Users"; Key := [("userId", VStr "123")];
          ConditionExpression := None; ReturnValues := "NONE";
          ReturnConsumedCapacity := None; ReturnItemCollectionMetrics := None;
          ExpressionAttributeNames := Some [("#name", "name")];
          ExpressionAttributeValues := Some [(":name", VStr "John Doe")];
          UpdateExpression := Some "SET #name = :name" |} /\
  ~ Spec.chosen_token (mergedValues input) "name" ":name" /\
  Spec.chosen_token (mergedValues input) "name" ":name_update_1".
Proof.
  cbv zeta. split; [reflexivity |]. split; [reflexivity |].
  split; [vm_compute; reflexivity |]. split.
  - unfold Spec.chosen_token. intros H.
    inversion H as [Hu |]. discriminate Hu.
  - change ":name_update_1" with (candidate "name" 1).
    apply Spec.chosen_probed; [reflexivity | lia | intros m Hm; lia
                              | reflexivity].
Qed.

End UpdateFacts.

(* ================================================================== *)
(** * Properties of reserved-word aliasing *)
(* ================================================================== *)

Module ReservedFacts.
Import Reserved.

(** C8, the update form at work: reserved words before [=] are prefixed in
    one pass, whatever their letter case, and other words are left alone;
    but a reserved word that already carries the marker is prefixed again,
    [#size =] becomes [##size =], where the projection form leaves [#size]
    as it is; the names then extracted from the result alias [##size]. *)
Theorem update_form_prefixes_again :
  replaceReservedKeywordsFromUpdateExp Sample.RESERVED_KEYWORDS
    "SET size = :size, Name= :name, color = :c, resize = :r, status  = :status"
  = "SET #size = :size, #Name= :name, color = :c, resize = :r, #status  = :status"
  /\
  replaceReservedKeywordsFromUpdateExp Sample.RESERVED_KEYWORDS
    "SET #size = :size" = "SET ##size = :size" /\
  replaceReservedKeywordsFromProjection Sample.RESERVED_KEYWORDS "#size, size"
  = "#size, #size" /\
  Names.extractExpAttributeNamesFromUpdateExp "SET ##size = :size"
  = [("##size", "#size")].
Proof. repeat split. Qed.

End ReservedFacts.

(* ================================================================== *)
(** * Further properties: key conditions *)
(* ================================================================== *)

Module KeyConditionMore.
Import KeyCondition.

Lemma upper_char_idem (c : ascii) :
  Str.upper_char (Str.upper_char c) = Str.upper_char c.
Proof.
  destruct c as [[] [] [] [] [] [] [] []]; reflexivity.
Qed.

Lemma toUpperCase_idem (s : string) :
  Str.toUpperCase (Str.toUpperCase s) = Str.toUpperCase s.
Proof.
  unfold Str.toUpperCase.
  induction s as [| c s IH]; simpl; [reflexivity |].
  now rewrite upper_char_idem, IH.
Qed.

Lemma resolution_by_upper_case (op op' symbol : string) :
  Str.toUpperCase op = Str.toUpperCase op' ->
  getOperatorSymbolByKey op = Ok symbol ->
  getOperatorSymbolByKey op' = Ok symbol.
Proof.
  unfold getOperatorSymbolByKey. intros <-.
  repeat match goal with
         | |- context [if ?b then _ else _] => destruct b; [exact (fun H => H) |]
         end.
  discriminate.
Qed.

(** Comparator resolution depends on the spelling only up to letter case,
    never fails on a spelling it has resolved once, and its results are the
    seven canonical symbols, each of which resolves to itself. *)
Theorem comparator_resolution_canonical (op symbol : string) :
  getOperatorSymbolByKey op = Ok symbol ->
  In symbol ["BETWEEN"; "BEGINS_WITH"; ">"; "<"; ">="; "<="; "="] /\
  getOperatorSymbolByKey symbol = Ok symbol /\
  getOperatorSymbolByKey (Str.toUpperCase op) = Ok symbol /\
  getOperatorSymbolByKey (Str.toLowerCase op) = Ok symbol.
Proof.
  intros H.
  pose proof (KeyConditionFacts.getOperatorSymbolByKey_range _ H) as Hin.
  split; [exact Hin |]. split; [| split].
  - simpl in Hin.
    destruct Hin as [<- | [<- | [<- | [<- | [<- | [<- | [<- | []]]]]]]];
      reflexivity.
  - apply (resolution_by_upper_case op); [| exact H].
    now rewrite toUpperCase_idem.
  - apply (resolution_by_upper_case op); [| exact H].
    unfold Str.toUpperCase, Str.toLowerCase.
    clear H Hin. induction op as [| c s IH]; simpl; [reflexivity |].
    rewrite <- IH. f_equal.
    destruct c as [[] [] [] [] [] [] [] []]; reflexivity.
Qed.

Lemma comparator_resolution_canonical_witness :
  getOperatorSymbolByKey "less_than_or_equal" = Ok "<=" /\
  getOperatorSymbolByKey "<=" = Ok "<=".
Proof.
  pose proof (comparator_resolution_canonical "Less_Than_Or_Equal" (symbol := "<=")
                eq_refl) as [_ [Hs [_ Hl]]].
  split; [exact Hl | exact Hs].
Defined.

Lemma recognized_resolves (op : string) :
  recognized op = true -> exists symbol, getOperatorSymbolByKey op = Ok symbol.
Proof.
  unfold recognized, Str.mem, spellings, getOperatorSymbolByKey.
  simpl existsb. intros H.
  repeat match goal with
         | |- context [if ?b then _ else _] =>
             destruct b eqn:?; [eexists; reflexivity |]
         end.
  repeat match goal with
         | E : (_ || _)%bool = false |- _ =>
             apply orb_false_iff in E; destruct E
         end.
  repeat match goal with
         | E : String.eqb _ _ = false |- _ => rewrite E in H; clear E
         end.
  discriminate H.
Qed.

Lemma resolves_BETWEEN (op : string) :
  getOperatorSymbolByKey op = Ok "BETWEEN" <-> Str.toUpperCase op = "BETWEEN".
Proof.
  unfold getOperatorSymbolByKey. split.
  - destruct (String.eqb (Str.toUpperCase op) "BETWEEN") eqn:E.
    + intros _. now apply String.eqb_eq.
    + repeat match goal with
             | |- context [if ?b then _ else _] => destruct b; try discriminate
             end.
  - intros ->. reflexivity.
Qed.

(** The key-condition compiler throws in two situations only, both with a
    sort key present: the comparator spelling is not recognized, or it is a
    spelling of [BETWEEN] and the second sort value is missing.  Without a
    sort key nothing is checked, not even the comparator. *)
Theorem key_condition_failures (q : DynamoQueryRequest) :
  is_ok (createKeyConditionExpression q) = false <->
  Str.otruthy (sKey q) = true /\
  exists op, skComparator q = Some op /\
    (recognized op = false \/
     (Str.toUpperCase op = "BETWEEN" /\ Str.otruthy (skValue2 q) = false)).
Proof.
  unfold createKeyConditionExpression.
  destruct (Str.otruthy (sKey q)) eqn:Hs; simpl negb; cbv iota.
  2: { simpl. split; [discriminate | intros [H _]; discriminate]. }
  destruct (skComparator q) as [op |] eqn:Hc.
  2: { simpl. split; [discriminate |].
       intros [_ [op [H _]]]. discriminate. }
  split.
  - intros H. split; [reflexivity |]. exists op. split; [reflexivity |].
    destruct (recognized op) eqn:Hr; [right | now left].
    destruct (recognized_resolves _ Hr) as [symbol Hg].
    rewrite Hg in H. simpl bind in H.
    pose proof (KeyConditionFacts.getOperatorSymbolByKey_range _ Hg) as Hin.
    simpl in Hin.
    destruct Hin as [<- | [<- | [<- | [<- | [<- | [<- | [<- | []]]]]]]];
      simpl in H; try discriminate.
    split; [now apply resolves_BETWEEN |].
    destruct (Str.otruthy (skValue2 q)); [discriminate | reflexivity].
  - intros [_ [op' [[= <-] [Hr | [Hu Hv]]]]].
    + now rewrite (KeyConditionFacts.getOperatorSymbolByKey_unrecognized _ Hr).
    + apply resolves_BETWEEN in Hu. rewrite Hu. simpl. now rewrite Hv.
Qed.

Lemma key_condition_failures_witness :
  is_ok (createKeyConditionExpression
           {| pKey := "p"; pKeyType := "S"; pKeyProp := "pk";
              sKey := Some "a"; sKeyType := Some "S"; sKeyProp := Some "sk";
              skValue2 := None; skValue2Type := None;
              skComparator := Some "between"; indexName := None;
              limit := None; lastEvaluatedKey := None; sorting := None |})
  = false.
Proof.
  apply key_condition_failures. split; [reflexivity |].
  exists "between". split; [reflexivity |]. right. split; reflexivity.
Defined.

(** A request that [dynamoQueryRequestSch] accepts always compiles, and to
    the text of its comparator. *)
Theorem validated_request_compiles (q : DynamoQueryRequest) :
  Query.dynamoQueryRequestSch q = true ->
  (skComparator q = None ->
   createKeyConditionExpression q = Ok "#pk = :pk") /\
  (forall op, skComparator q = Some op ->
     In op ["="; "<"; "<="; ">"; ">="] ->
     createKeyConditionExpression q =
       Ok ("#pk = :pk AND #sk " ++ op ++ " :sk")) /\
  (skComparator q = Some "BETWEEN" ->
   createKeyConditionExpression q =
     Ok "#pk = :pk AND #sk BETWEEN :sk AND :skValue2") /\
  (skComparator q = Some "BEGINS_WITH" ->
   createKeyConditionExpression q =
     Ok "#pk = :pk AND begins_with(#sk, :skValue2)") /\
  is_ok (createKeyConditionExpression q) = true.
Proof.
  unfold Query.dynamoQueryRequestSch, Query.shape_ok, Query.refine_ok.
  intros H. apply andb_true_iff in H. destruct H as [Hshape Href].
  repeat (apply andb_true_iff in Hshape; destruct Hshape as [Hshape ?]).
  unfold createKeyConditionExpression.
  destruct (skComparator q) as [c |] eqn:Hc.
  - repeat (apply andb_true_iff in Href; destruct Href as [Href ?]).
    rewrite Href. simpl negb. cbv iota.
    match goal with
    | Hm : Query.opt_ok (fun c => Str.mem c Query.comparators) _ = true |- _ =>
        simpl in Hm; repeat (apply orb_true_iff in Hm; destruct Hm as [Hm | Hm]);
        try discriminate Hm; apply String.eqb_eq in Hm; subst c
    end;
    (repeat split; try discriminate;
     try (intros op [= <-] Hin; reflexivity);
     try (intros op [= <-] Hin; simpl in Hin;
          repeat (destruct Hin as [Hin | Hin]; try discriminate Hin);
          contradiction);
     try reflexivity).
    all: simpl in *;
      match goal with
      | Hb : (_ && _)%bool = true |- _ =>
          apply andb_true_iff in Hb; destruct Hb as [Hb _]; rewrite Hb
      end; intros; reflexivity.
  - apply negb_true_iff in Href.
    repeat (apply orb_false_iff in Href; destruct Href as [Href ?]).
    rewrite Href. simpl.
    repeat split; discriminate.
Qed.

Lemma validated_request_compiles_witness :
  createKeyConditionExpression (Examples.sortKeyRequest (Some ">=")) =
    Ok "#pk = :pk AND #sk >= :sk".
Proof.
  exact (proj1 (proj2 (validated_request_compiles
                         (Examples.sortKeyRequest (Some ">=")) eq_refl))
           ">=" eq_refl ltac:(simpl; tauto)).
Defined.

End KeyConditionMore.

(* ================================================================== *)
(** * Further properties: objects *)
(* ================================================================== *)

Module ObjMore.

Section Facts.
Context {V : Type}.
Implicit Types (o extra : obj V) (k : string) (v : V).

(** [{ ...o, ...extra }]: a property of [extra] wins, the others are those
    of [o]. *)
Lemma get_assign extra :
  forall o k,
    NoDup (Obj.keys extra) ->
    Obj.get (Obj.assign o extra) k =
      match Obj.get extra k with
      | Some v => Some v
      | None => Obj.get o k
      end.
Proof.
  unfold Obj.assign.
  induction extra as [| [k' v'] extra IH]; intros o k Hnd; simpl;
    [reflexivity |].
  simpl in Hnd. inversion Hnd as [| ? ? Hnotin Hnd']; subst.
  rewrite (IH _ _ Hnd').
  destruct (String.eqb k' k) eqn:E.
  - apply String.eqb_eq in E. subst k'.
    rewrite (ObjFacts.get_none_not_key _ _ Hnotin).
    apply ObjFacts.get_set_same.
  - destruct (Obj.get extra k); [reflexivity |].
    apply ObjFacts.get_set_other. now apply String.eqb_neq.
Qed.

Lemma keys_set o k v :
  Obj.keys (Obj.set o k v) =
    if Obj.has o k then Obj.keys o else (Obj.keys o ++ [k])%list.
Proof.
  unfold Obj.has, Obj.keys.
  induction o as [| [k' v'] o IH]; simpl; [reflexivity |].
  destruct (String.eqb k' k) eqn:E; simpl; [reflexivity |].
  rewrite IH. now destruct (Obj.get o k).
Qed.

Lemma has_key o k : Obj.has o k = true <-> In k (Obj.keys o).
Proof.
  unfold Obj.has. split.
  - destruct (Obj.get o k) eqn:E; [| discriminate].
    intros _. exact (ObjFacts.get_some_key _ _ E).
  - intros Hin. destruct (Obj.get o k) eqn:E; [reflexivity |].
    exfalso. revert E. unfold Obj.keys in Hin.
    induction o as [| [k' v'] o IH]; simpl in *; [contradiction |].
    destruct (String.eqb k' k) eqn:E'; [discriminate |].
    apply String.eqb_neq in E'. destruct Hin as [-> | Hin]; [contradiction |].
    now apply IH.
Qed.

(** Setting properties keeps the keys pairwise distinct. *)
Lemma set_NoDup o k v : NoDup (Obj.keys o) -> NoDup (Obj.keys (Obj.set o k v)).
Proof.
  intros Hnd. rewrite keys_set.
  destruct (Obj.has o k) eqn:E; [exact Hnd |].
  apply NoDup_app; [exact Hnd | repeat constructor; simpl; tauto |].
  intros x Hin [<- | []].
  apply has_key in Hin. congruence.
Qed.

End Facts.

End ObjMore.

(* ================================================================== *)
(** * Further properties: the query command builder *)
(* ================================================================== *)

Module QueryMore.
Import Query.

Section WithBuiltins.

Variable Number : string -> float.
Variable JSON_parse : string -> option jsval.
Variable Buffer_from_base64 : string -> string.
Variable RESERVED_KEYWORDS : list string.

Let parse := KeyValue.parseDynamoKeyValue Number JSON_parse Buffer_from_base64.
Let build :=
  buildQueryCommandInput Number JSON_parse Buffer_from_base64 RESERVED_KEYWORDS.

Lemma key_type_cases (t : string) :
  key_type_ok t = true ->
  (t = "B" /\ forall k, parse k t = Throw Cases.unsupported_B) \/
  (t <> "B" /\ forall k, exists v, parse k t = Ok v).
Proof.
  unfold key_type_ok. simpl. intros H.
  repeat (apply orb_true_iff in H; destruct H as [H | H]);
    try discriminate H; apply String.eqb_eq in H; subst t.
  - right. split; [discriminate |]. intros k. eexists. reflexivity.
  - right. split; [discriminate |]. intros k. eexists. reflexivity.
  - left. split; [reflexivity |]. intros k. reflexivity.
Qed.

(** The facts the schema guarantees about the sort key, by comparator. *)
Lemma validated_sort_key (q : DynamoQueryRequest) :
  dynamoQueryRequestSch q = true ->
  key_type_ok (pKeyType q) = true /\
  match skComparator q with
  | Some c =>
      Str.otruthy (sKey q) = true /\ Str.otruthy (sKeyProp q) = true /\
      (exists t, sKeyType q = Some t /\ key_type_ok t = true) /\
      Str.otruthy (skValue2 q) = String.eqb c "BETWEEN"
  | None =>
      Str.otruthy (sKey q) = false /\ Str.otruthy (sKeyProp q) = false /\
      Str.otruthy (skValue2 q) = false
  end.
Proof.
  unfold dynamoQueryRequestSch, shape_ok, refine_ok. intros H.
  apply andb_true_iff in H. destruct H as [Hshape Href].
  repeat (apply andb_true_iff in Hshape; destruct Hshape as [Hshape ?]).
  split; [assumption |].
  destruct (skComparator q) as [c |].
  - repeat (apply andb_true_iff in Href; destruct Href as [Href ?]).
    repeat split; try assumption.
    + destruct (sKeyType q) as [t |]; [| discriminate].
      exists t. split; [reflexivity | assumption].
    + destruct (String.eqb c "BETWEEN").
      * match goal with
        | Hb : (_ && _)%bool = true |- _ =>
            apply andb_true_iff in Hb; tauto
        end.
      * match goal with
        | Hb : negb _ = true |- _ =>
            apply negb_true_iff, orb_false_iff in Hb; tauto
        end.
  - apply negb_true_iff in Href.
    repeat (apply orb_false_iff in Href; destruct Href as [Href ?]).
    auto.
Qed.

(** The schema admits the binary key type [B], the value coercion does not:
    a validated request is turned into a command exactly when neither its
    partition key nor a sort key in use is declared binary, and otherwise
    the builder throws [Unsupported partitionKeyType: B]. *)
Theorem binary_keys_unsupported (input : CustomQueryCommandInput) :
  dynamoQueryRequestSch (queryRequest input) = true ->
  let q := queryRequest input in
  let uses_B :=
    pKeyType q = "B" \/ (skComparator q <> None /\ sKeyType q = Some "B") in
  (uses_B -> build input = Throw Cases.unsupported_B) /\
  (~ uses_B -> is_ok (build input) = true).
Proof.
  intros Hv q uses_B. subst uses_B.
  destruct (validated_sort_key _ Hv) as [Hpk Hsk].
  pose proof (KeyConditionMore.validated_request_compiles _ Hv)
    as [_ [_ [_ [_ Hok]]]].
  unfold build, buildQueryCommandInput. fold q in Hpk, Hsk, Hok |- *.
  destruct (KeyCondition.createKeyConditionExpression q) as [e |];
    [clear Hok | discriminate Hok].
  simpl bind at 1. fold parse.
  destruct (key_type_cases _ Hpk) as [[Hb Hp] | [Hb Hp]].
  - split; [| intros Hn; exfalso; apply Hn; now left].
    intros _. now rewrite Hp.
  - destruct (Hp (pKey q)) as [pk Epk]. rewrite Epk. simpl bind at 1.
    destruct (skComparator q) as [c |].
    + destruct Hsk as [Hs [_ [[t [Ht Htok]] Hs2]]]. rewrite Ht.
      destruct (sKey q) as [k |]; [| discriminate Hs].
      simpl in Hs. rewrite Hs.
      destruct (key_type_cases _ Htok) as [[Hbt Hpt] | [Hbt Hpt]].
      * split; [| intros Hn; exfalso; apply Hn; right;
                  split; [discriminate | now subst t]].
        intros _. now rewrite Hpt.
      * split; [intros [Hx | [_ [=]]]; contradiction |].
        intros _. destruct (Hpt k) as [vk Ek]. rewrite Ek. simpl bind at 1.
        destruct (skValue2 q) as [k2 |]; [| reflexivity].
        destruct (Str.truthy k2); [| reflexivity].
        destruct (Hpt k2) as [vk2 Ek2]. now rewrite Ek2.
    + destruct Hsk as [Hs [_ Hs2]].
      split; [intros [Hx | [Hx _]]; contradiction |].
      intros _.
      destruct (sKey q) as [k |]; simpl in Hs; [rewrite Hs |];
        (destruct (skValue2 q) as [k2 |]; simpl in Hs2; [rewrite Hs2 |]);
        reflexivity.
Qed.

(** The maps of a command that the builder returns. *)
Lemma build_inv (input : CustomQueryCommandInput) (cmd : QueryCommandInput) :
  build input = Ok cmd ->
  let q := queryRequest input in
  exists pk skEntry skValue2Entry projected,
    KeyCondition.createKeyConditionExpression q
      = Ok (KeyConditionExpression cmd) /\
    ExpressionAttributeValues cmd =
      Obj.assign (Obj.assign (Obj.assign [(":pk", pk)] skEntry) skValue2Entry)
        (Obj.or_empty (extraExpAttributeValues input)) /\
    ExpressionAttributeNames cmd =
      Obj.assign
        (Obj.assign
           (Obj.assign [("#pk", pKeyProp q)]
              (if Str.otruthy (sKeyProp q)
               then [("#sk", match sKeyProp q with Some x => x | None => "" end)]
               else []))
           projected)
        (Obj.or_empty (extraExpAttributeNames input)) /\
    (if Str.otruthy (sKey q) then exists v, skEntry = [(":sk", v)]
     else skEntry = []) /\
    (if Str.otruthy (skValue2 q) then exists v, skValue2Entry = [(":skValue2", v)]
     else skValue2Entry = []).
Proof.
  intros H q. unfold build, buildQueryCommandInput in H. fold q in H.
  destruct (KeyCondition.createKeyConditionExpression q) as [e |];
    [| discriminate H].
  simpl bind in H at 1. fold parse in H.
  destruct (parse (pKey q) (pKeyType q)) as [pk |]; [| discriminate H].
  simpl bind in H at 1.
  match type of H with
  | bind ?r _ = _ => destruct r as [skEntry |] eqn:Esk; [| discriminate H]
  end.
  simpl bind in H at 1.
  match type of H with
  | bind ?r _ = _ => destruct r as [skValue2Entry |] eqn:Esk2; [| discriminate H]
  end.
  simpl bind in H. FilterFacts.ok_inv H.
  exists pk, skEntry, skValue2Entry. eexists.
  cbn [KeyConditionExpression ExpressionAttributeValues ExpressionAttributeNames].
  split; [reflexivity |]. split; [reflexivity |]. split.
  - f_equal. f_equal. f_equal.
    destruct (sKeyProp q) as [x |]; simpl; [| reflexivity].
    unfold spread_when. now destruct (Str.truthy x).
  - split.
    + destruct (sKey q) as [k |]; simpl; [| now inversion Esk].
      destruct (Str.truthy k); [| now inversion Esk].
      destruct (parse k _) as [v |]; [| discriminate Esk].
      exists v. now inversion Esk.
    + destruct (skValue2 q) as [k |]; simpl; [| now inversion Esk2].
      destruct (Str.truthy k); [| now inversion Esk2].
      destruct (parse k _) as [v |]; [| discriminate Esk2].
      exists v. now inversion Esk2.
Qed.

(** In every command built from a validated request the placeholders of
    the partition key are bound, those of the sort key are bound whenever a
    comparator is given, and [:skValue2] is bound for [BETWEEN]: for every
    comparator but [BEGINS_WITH] each token of the key condition has its
    binding. *)
Theorem key_condition_tokens_bound
    (input : CustomQueryCommandInput) (cmd : QueryCommandInput) :
  dynamoQueryRequestSch (queryRequest input) = true ->
  build input = Ok cmd ->
  Obj.has (ExpressionAttributeNames cmd) "#pk" = true /\
  Obj.has (ExpressionAttributeValues cmd) ":pk" = true /\
  (skComparator (queryRequest input) <> None ->
   Obj.has (ExpressionAttributeNames cmd) "#sk" = true /\
   Obj.has (ExpressionAttributeValues cmd) ":sk" = true) /\
  (skComparator (queryRequest input) = Some "BETWEEN" ->
   KeyConditionExpression cmd = "#pk = :pk AND #sk BETWEEN :sk AND :skValue2" /\
   Obj.has (ExpressionAttributeValues cmd) ":skValue2" = true).
Proof.
  intros Hv Hb.
  destruct (build_inv _ Hb) as [pk [skE [sk2E [proj [Hk [Hvals [Hnames [Hsk Hsk2]]]]]]]].
  destruct (validated_sort_key _ Hv) as [_ Hc].
  rewrite Hvals, Hnames, !ObjFacts.has_assign.
  split; [reflexivity |]. split; [reflexivity |]. split.
  - intros Hne. destruct (skComparator (queryRequest input)) as [c |];
      [| contradiction].
    destruct Hc as [Hs [Hp _]]. rewrite Hs in Hsk. rewrite Hp.
    destruct Hsk as [v ->]. split; reflexivity.
  - intros Hbt. rewrite Hbt in Hc. destruct Hc as [_ [_ [_ Hs2]]].
    simpl in Hs2. rewrite Hs2 in Hsk2. destruct Hsk2 as [v ->].
    split.
    + pose proof (KeyConditionMore.validated_request_compiles _ Hv)
        as [_ [_ [Hbetween _]]].
      rewrite (Hbetween Hbt) in Hk. now inversion Hk.
    + simpl. now rewrite orb_true_r.
Qed.

(** The caller's extra names and values are merged last: each of their
    entries is in the command as given, whatever the builder generated
    under the same token. *)
Theorem extras_take_precedence
    (input : CustomQueryCommandInput) (cmd : QueryCommandInput) :
  build input = Ok cmd ->
  (forall extra k v,
     extraExpAttributeNames input = Some extra -> NoDup (Obj.keys extra) ->
     Obj.get extra k = Some v ->
     Obj.get (ExpressionAttributeNames cmd) k = Some v) /\
  (forall extra k v,
     extraExpAttributeValues input = Some extra -> NoDup (Obj.keys extra) ->
     Obj.get extra k = Some v ->
     Obj.get (ExpressionAttributeValues cmd) k = Some v).
Proof.
  intros Hb.
  destruct (build_inv _ Hb) as [pk [skE [sk2E [proj [_ [Hvals [Hnames _]]]]]]].
  split; intros extra k v He Hnd Hg.
  - rewrite Hnames, He. simpl Obj.or_empty.
    now rewrite (ObjMore.get_assign _ _ _ Hnd), Hg.
  - rewrite Hvals, He. simpl Obj.or_empty.
    now rewrite (ObjMore.get_assign _ _ _ Hnd), Hg.
Qed.

End WithBuiltins.

Lemma binary_keys_unsupported_witness :
  buildQueryCommandInput Sample.Number Sample.JSON_parse
    Sample.Buffer_from_base64 Sample.RESERVED_KEYWORDS Cases.binaryKeyQuery
  = Throw Cases.unsupported_B.
Proof.
  exact (proj1 (binary_keys_unsupported Sample.Number Sample.JSON_parse
                  Sample.Buffer_from_base64 Sample.RESERVED_KEYWORDS
                  Cases.binaryKeyQuery eq_refl)
           (or_introl eq_refl)).
Defined.

Lemma key_condition_tokens_bound_witness :
  exists cmd,
    buildQueryCommandInput Sample.Number Sample.JSON_parse
      Sample.Buffer_from_base64 Sample.RESERVED_KEYWORDS Cases.betweenQuery
      = Ok cmd /\
    KeyConditionExpression cmd = "#pk = :pk AND #sk BETWEEN :sk AND :skValue2" /\
    Obj.has (ExpressionAttributeValues cmd) ":skValue2" = true.
Proof.
  eexists. split; [vm_compute; reflexivity |].
  exact (proj2 (proj2 (proj2 (key_condition_tokens_bound Sample.Number
           Sample.JSON_parse Sample.Buffer_from_base64
           Sample.RESERVED_KEYWORDS Cases.betweenQuery
           (cmd := {| TableName := _; IndexName := _;
                      KeyConditionExpression := _; FilterExpression := _;
                      ExpressionAttributeNames := _;
                      ExpressionAttributeValues := _;
                      ProjectionExpression := _; ScanIndexForward := _;
                      ReturnConsumedCapacity := _; ExclusiveStartKey := _;
                      Limit := _ |})
           eq_refl ltac:(vm_compute; reflexivity)))) eq_refl).
Defined.

Lemma extras_take_precedence_witness :
  exists cmd,
    buildQueryCommandInput Sample.Number Sample.JSON_parse
      Sample.Buffer_from_base64 Sample.RESERVED_KEYWORDS Cases.overridingQuery
      = Ok cmd /\
    Obj.get (ExpressionAttributeValues cmd) ":pk" = Some (VStr "override").
Proof.
  eexists. split; [vm_compute; reflexivity |].
  refine (proj2 (extras_take_precedence Sample.Number Sample.JSON_parse
            Sample.Buffer_from_base64 Sample.RESERVED_KEYWORDS
            Cases.overridingQuery
            (cmd := {| TableName := _; IndexName := _;
                       KeyConditionExpression := _; FilterExpression := _;
                       ExpressionAttributeNames := _;
                       ExpressionAttributeValues := _;
                       ProjectionExpression := _; ScanIndexForward := _;
                       ReturnConsumedCapacity := _; ExclusiveStartKey := _;
                       Limit := _ |})
            ltac:(vm_compute; reflexivity))
           [(":pk", VStr "override")] ":pk" (VStr "override") eq_refl _ eq_refl).
  repeat constructor. simpl. tauto.
Defined.

End QueryMore.

(* ================================================================== *)
(** * Further properties: the filter compiler *)
(* ================================================================== *)

Module FilterMore.
Import Filter.

Section WithNumber.

Variable Number : string -> float.

Lemma compileFrom_app (l1 l2 : list DynamoFilter) :
  forall i a,
    compileFrom Number i (l1 ++ l2) a =
      (a' <- compileFrom Number i l1 a ;;
       compileFrom Number (i + List.length l1) l2 a').
Proof.
  induction l1 as [| f l1 IH]; intros i a; simpl.
  - now rewrite Nat.add_0_r.
  - destruct (compileFilter Number i f a) as [a' |]; simpl; [| reflexivity].
    rewrite IH. now rewrite Nat.add_succ_r.
Qed.

(** Compilation stops at the first filter that fails: when the filters
    before index [i] compile and the one at [i] throws, that exception is
    the outcome for the whole set, whatever follows. *)
Theorem first_failing_filter_decides
    (before after : list DynamoFilter) (f : DynamoFilter)
    (a : accumulators) (e : exn) :
  compileFrom Number 0 before Examples.noAccumulators = Ok a ->
  compileFilter Number (List.length before) f a = Throw e ->
  generateDynamoFilterAttributes Number (before ++ f :: after) = Throw e.
Proof.
  intros Hb Hf. unfold generateDynamoFilterAttributes.
  destruct (before ++ f :: after)%list eqn:El.
  - now destruct before.
  - rewrite <- El. fold Examples.noAccumulators.
    rewrite compileFrom_app, Hb. simpl. now rewrite Hf.
Qed.

(** [EXISTS] and [NOT_EXISTS] never fail and bind no value, whatever
    operands the filter carries: the compiler does not look at them. *)
Theorem existence_filters_ignore_operands
    (i : nat) (f : DynamoFilter) (a : accumulators) :
  condition f = EXISTS \/ condition f = NOT_EXISTS ->
  exists a',
    compileFilter Number i f a = Ok a' /\
    vals a' = vals a /\
    names a' = Obj.set (names a) (makeNameToken i) (name f) /\
    parts a' =
      push (parts a)
        ("(attribute_" ++ (if match condition f with EXISTS => true | _ => false end
                           then "exists(" else "not_exists(")
         ++ makeNameToken i ++ "))").
Proof.
  unfold compileFilter.
  intros [Hc | Hc]; rewrite Hc; eexists; repeat split.
Qed.

Lemma fragment_first_char (i : nat) (f : DynamoFilter) :
  (forall s, condition f <> UNKNOWN s) ->
  exists c r, Spec.fragment i f = String c r.
Proof.
  intros Hc. unfold Spec.fragment.
  destruct (condition f) eqn:E; try (eexists; eexists; reflexivity).
  - destruct (is_set_type (type f)); [| eexists; eexists; reflexivity].
    destruct (Spec.containsCalls _ _ _) as [| x [| y l]];
      eexists; eexists; reflexivity.
  - destruct (is_set_type (type f)); eexists; eexists; reflexivity.
  - exfalso. exact (Hc s eq_refl).
Qed.

Lemma compiled_not_UNKNOWN (i : nat) (f : DynamoFilter)
    (a a' : accumulators) :
  compileFilter Number i f a = Ok a' -> forall s, condition f <> UNKNOWN s.
Proof.
  unfold compileFilter. intros H s Hc. rewrite Hc in H. discriminate H.
Qed.

(** The compiler returns [null] for the empty filter list only, and a
    compiled expression is never the empty string: the check for an empty
    generated expression in the scan builder can never fire. *)
Theorem compiled_expression_not_empty (filters : list DynamoFilter) :
  (generateDynamoFilterAttributes Number filters = Ok None <-> filters = []) /\
  (forall g,
     generateDynamoFilterAttributes Number filters = Ok (Some g) ->
     Str.truthy (filterExpression g) = true).
Proof.
  split.
  - split; [| intros ->; reflexivity].
    unfold generateDynamoFilterAttributes.
    destruct filters as [| f fs]; [reflexivity |].
    destruct (compileFrom _ _ _ _); discriminate.
  - intros g H.
    pose proof (FilterFacts.generated_shape _ _ H) as [He _].
    unfold generateDynamoFilterAttributes in H.
    destruct filters as [| f fs]; [discriminate H |].
    cbn [compileFrom] in H.
    destruct (compileFilter Number 0 f _) as [a' |] eqn:Ef;
      [| discriminate H].
    destruct (fragment_first_char 0 f (compiled_not_UNKNOWN _ _ _ Ef))
      as [c [r Hfr]].
    rewrite He. unfold Spec.mapi. cbn [Spec.mapi_from].
    rewrite Hfr. unfold Str.join. simpl.
    destruct (Spec.mapi_from Spec.fragment 1 fs); reflexivity.
Qed.

(** A filter of type [S] that the schema accepts always compiles. *)
Lemma validated_S_filter_compiles (i : nat) (f : DynamoFilter)
    (a : accumulators) :
  Scan.dynamoFilterSch f = true -> type f = T_S ->
  exists a', compileFilter Number i f a = Ok a'.
Proof.
  unfold Scan.dynamoFilterSch, Scan.filter_shape_ok, Scan.filter_refine_ok,
    Scan.hasValue, Scan.hasValue2, Scan.hasValues.
  intros H Ht. apply andb_true_iff in H. destruct H as [Hshape Href].
  apply andb_true_iff in Hshape. destruct Hshape as [Hshape _].
  apply andb_true_iff in Hshape. destruct Hshape as [_ Hcond].
  unfold compileFilter, requireValue. rewrite Ht in *. simpl in Href.
  destruct (condition f); try discriminate Hcond;
    simpl; try (eexists; reflexivity);
    destruct (value f) as [raw |]; try discriminate Href;
    simpl; try (eexists; reflexivity).
  destruct (value2 f); [eexists; reflexivity | discriminate Href].
Qed.

(** A filter set that [dynamoFiltersInputSch] accepts and whose filters all
    have type [S] always compiles. *)
Theorem validated_string_filters_compile (filters : list DynamoFilter) :
  Scan.dynamoFiltersInputSch filters = true ->
  Forall (fun f => type f = T_S) filters ->
  is_ok (generateDynamoFilterAttributes Number filters) = true.
Proof.
  unfold Scan.dynamoFiltersInputSch. intros H Hall.
  apply andb_true_iff in H. destruct H as [Hvalid _].
  rewrite forallb_forall in Hvalid. rewrite Forall_forall in Hall.
  assert (Hloop : forall l i a,
             (forall f, In f l -> In f filters) ->
             exists a', compileFrom Number i l a = Ok a').
  { induction l as [| f l IH]; intros i a Hin; simpl.
    - eexists. reflexivity.
    - destruct (validated_S_filter_compiles i f a) as [a' Ea'].
      + apply Hvalid, Hin. now left.
      + apply Hall, Hin. now left.
      + rewrite Ea'. simpl. apply IH. intros f' Hf'. apply Hin. now right. }
  unfold generateDynamoFilterAttributes.
  destruct filters as [| f fs] eqn:El; [reflexivity |].
  destruct (Hloop (f :: fs) 0 Examples.noAccumulators (fun _ H => H))
    as [a' Ea'].
  unfold Examples.noAccumulators in Ea'. now rewrite Ea'.
Qed.

Lemma of_nat_digits (n : nat) : Cases.all_digits (Str.of_nat n) = true.
Proof.
  unfold Str.of_nat. generalize (Nat.to_uint n) as d.
  induction d; simpl; auto.
Qed.

Lemma digits_then_v (d1 : string) :
  forall d2 s1 s2,
    Cases.all_digits d1 = true -> Cases.all_digits d2 = true ->
    d1 ++ String "v" s1 = d2 ++ String "v" s2 -> d1 = d2.
Proof.
  induction d1 as [| c d1 IH]; intros [| c2 d2] s1 s2 H1 H2 E; simpl in *.
  - reflexivity.
  - inversion E; subst c2. discriminate H2.
  - inversion E; subst c. discriminate H1.
  - inversion E; subst c2.
    apply andb_true_iff in H1. apply andb_true_iff in H2.
    f_equal. apply (IH d2 s1 s2); tauto.
Qed.

(** Value tokens of different filters differ. *)
Lemma value_token_index (i j : nat) (k : string) :
  Cases.value_token_of i k -> Cases.value_token_of j k -> i = j.
Proof.
  intros [s1 ->] [s2 E]. unfold makeValueToken in E.
  apply (StrFacts.append_inj_r ":f") in E.
  apply digits_then_v in E; try apply of_nat_digits.
  now apply StrFacts.of_nat_inj.
Qed.

Lemma containsLoop_frame (t : DynamoFilterValueType) (nameToken : string)
    (i : nat) (l : list string) :
  forall j eav orParts eav' orParts' k,
    containsLoop Number t nameToken i j l eav orParts = Ok (eav', orParts') ->
    ~ Cases.value_token_of i k ->
    Obj.get eav' k = Obj.get eav k.
Proof.
  induction l as [| raw l IH]; simpl; intros j eav orParts eav' orParts' k H Hk.
  - now inversion H.
  - FilterFacts.bind_ok H. rewrite (IH _ _ _ _ _ k H Hk).
    apply ObjFacts.get_set_other. intros <-. apply Hk.
    now exists ("s" ++ Str.of_nat j).
Qed.

(** One iteration only touches value tokens of its own index. *)
Lemma compileFilter_frame (i : nat) (f : DynamoFilter) (a a' : accumulators)
    (k : string) :
  compileFilter Number i f a = Ok a' ->
  ~ Cases.value_token_of i k ->
  Obj.get (vals a') k = Obj.get (vals a) k.
Proof.
  intros H Hk.
  assert (Hv : k <> makeValueToken i "v").
  { intros ->. apply Hk. now exists "". }
  assert (Hv2 : k <> makeValueToken i "v2").
  { intros ->. apply Hk. now exists "2". }
  unfold compileFilter in H.
  destruct (condition f); try discriminate H;
    try (destruct (is_set_type (type f)); [discriminate H |];
         repeat FilterFacts.bind_ok H; FilterFacts.ok_inv H;
         cbn [vals]; now apply ObjFacts.get_set_other);
    try (FilterFacts.ok_inv H; reflexivity).
  - destruct (type f); try discriminate H. cbv beta iota in H.
    repeat FilterFacts.bind_ok H. FilterFacts.ok_inv H.
    cbn [vals]. now apply ObjFacts.get_set_other.
  - destruct (is_set_type (type f)).
    + destruct (values f) as [[| raw l] |]; try discriminate H.
      cbv beta iota in H. FilterFacts.bind_ok H. destruct a0 as [eav orParts].
      FilterFacts.ok_inv H. cbn [vals].
      eapply containsLoop_frame; eassumption.
    + FilterFacts.bind_ok H. FilterFacts.ok_inv H.
      cbn [vals]. now apply ObjFacts.get_set_other.
  - destruct (is_set_type (type f)).
    + destruct (values f) as [[| raw l] |]; try discriminate H.
      cbv beta iota in H. FilterFacts.bind_ok H. destruct a0 as [eav orParts].
      FilterFacts.ok_inv H. cbn [vals].
      eapply containsLoop_frame; eassumption.
    + repeat FilterFacts.bind_ok H. FilterFacts.ok_inv H.
      cbn [vals]. now apply ObjFacts.get_set_other.
  - destruct (value f), (value2 f); try discriminate H.
    destruct (type f); try discriminate H; cbv beta iota in H;
      repeat FilterFacts.bind_ok H; FilterFacts.ok_inv H; cbn [vals];
      rewrite !ObjFacts.get_set_other; auto.
Qed.

Lemma compileFrom_frame (l : list DynamoFilter) :
  forall i a a' k,
    compileFrom Number i l a = Ok a' ->
    (forall j, i <= j -> ~ Cases.value_token_of j k) ->
    Obj.get (vals a') k = Obj.get (vals a) k.
Proof.
  induction l as [| f l IH]; simpl; intros i a a' k H Hk.
  - now inversion H.
  - FilterFacts.bind_ok H.
    erewrite IH; [| eassumption | intros j Hj; apply Hk; lia].
    eapply compileFilter_frame; [eassumption |]. apply Hk. lia.
Qed.

(** Value tokens are never reused across filters: a binding made while
    compiling the filter at index [i] under one of its own tokens is still
    in the value map of the result, whatever filters follow. *)
Theorem bindings_survive_later_filters
    (before after : list DynamoFilter) (f : DynamoFilter)
    (a a' : accumulators) (g : GeneratedDynamoFilterAttributes)
    (k : string) (v : jsval) :
  compileFrom Number 0 before Examples.noAccumulators = Ok a ->
  compileFilter Number (List.length before) f a = Ok a' ->
  generateDynamoFilterAttributes Number (before ++ f :: after) = Ok (Some g) ->
  Cases.value_token_of (List.length before) k ->
  Obj.get (vals a') k = Some v ->
  Obj.get (expressionAttributeValues g) k = Some v.
Proof.
  intros Hb Hf Hg Hk Hget. unfold generateDynamoFilterAttributes in Hg.
  destruct (before ++ f :: after)%list eqn:El; [discriminate Hg |].
  rewrite <- El in Hg. fold Examples.noAccumulators in Hg.
  rewrite compileFrom_app, Hb in Hg. cbn [bind compileFrom Nat.add] in Hg.
  rewrite Hf in Hg. cbn [bind] in Hg.
  FilterFacts.bind_ok Hg. injection Hg as <-.
  cbn [expressionAttributeValues].
  erewrite compileFrom_frame; [exact Hget | eassumption |].
  intros j Hj Hkj. pose proof (value_token_index Hk Hkj). lia.
Qed.

End WithNumber.

Lemma compiled_expression_not_empty_witness :
  generateDynamoFilterAttributes Sample.Number
    [Examples.scalarFilter "email" T_S EXISTS None None]
  = Ok (Some {| filterExpression := "(attribute_exists(#f0))";
                expressionAttributeNames := [("#f0", "email")];
                expressionAttributeValues := [] |}) /\
  Str.truthy "(attribute_exists(#f0))" = true.
Proof.
  split; [reflexivity |].
  exact (proj2 (compiled_expression_not_empty Sample.Number
                  [Examples.scalarFilter "email" T_S EXISTS None None])
           {| filterExpression := "(attribute_exists(#f0))";
              expressionAttributeNames := [("#f0", "email")];
              expressionAttributeValues := [] |}
           eq_refl).
Defined.

Lemma bindings_survive_later_filters_witness :
  exists g,
    generateDynamoFilterAttributes Sample.Number
      [Examples.scalarFilter "city" T_S EQUAL_TO (Some "Oslo") None;
       Examples.scalarFilter "age" T_N GREATER_THAN (Some "18") None]
      = Ok (Some g) /\
    Obj.get (expressionAttributeValues g) ":f0v" = Some (VStr "Oslo").
Proof.
  eexists. split; [vm_compute; reflexivity |].
  refine (bindings_survive_later_filters Sample.Number []
            [Examples.scalarFilter "age" T_N GREATER_THAN (Some "18") None]
            (Examples.scalarFilter "city" T_S EQUAL_TO (Some "Oslo") None)
            (g := {| filterExpression := _; expressionAttributeNames := _;
                     expressionAttributeValues := _ |})
            (k := ":f0v") (v := VStr "Oslo")
            eq_refl eq_refl ltac:(vm_compute; reflexivity) _ eq_refl).
  now exists "".
Defined.

Lemma first_failing_filter_decides_witness :
  generateDynamoFilterAttributes Sample.Number
    [Examples.scalarFilter "email" T_S EXISTS None None;
     Examples.scalarFilter "age" T_N EQUAL_TO (Some "abc") None;
     Examples.scalarFilter "x" T_S (UNKNOWN "IN") None None]
  = Throw (invalid_numeric "abc" " for type N").
Proof.
  exact (first_failing_filter_decides Sample.Number
           [Examples.scalarFilter "email" T_S EXISTS None None]
           [Examples.scalarFilter "x" T_S (UNKNOWN "IN") None None]
           (Examples.scalarFilter "age" T_N EQUAL_TO (Some "abc") None)
           eq_refl eq_refl).
Defined.

Lemma existence_filters_ignore_operands_witness :
  exists a',
    compileFilter Sample.Number 0
      {| name := "email"; type := T_N; condition := NOT_EXISTS;
         value := Some "oops"; value2 := Some "x"; values := Some ["y"] |}
      Examples.noAccumulators = Ok a' /\
    vals a' = [] /\ parts a' = ["(attribute_not_exists(#f0))"].
Proof.
  destruct (existence_filters_ignore_operands Sample.Number 0
              {| name := "email"; type := T_N; condition := NOT_EXISTS;
                 value := Some "oops"; value2 := Some "x";
                 values := Some ["y"] |}
              Examples.noAccumulators (or_intror eq_refl))
    as [a' [H [Hv [_ Hp]]]].
  exists a'. split; [exact H |]. split; [exact Hv | exact Hp].
Defined.

Lemma validated_string_filters_compile_witness :
  is_ok (generateDynamoFilterAttributes Sample.Number
           [Examples.scalarFilter "title" T_S BEGINS_WITH (Some "Dr") None;
            Examples.scalarFilter "city" T_S BETWEEN (Some "A") (Some "M")])
  = true.
Proof.
  apply validated_string_filters_compile; [reflexivity |].
  repeat constructor.
Defined.

End FilterMore.

(* ================================================================== *)
(** * Further properties: reserved-word aliasing and name extraction *)
(* ================================================================== *)

Module ReservedMore.
Import Reserved.

Lemma trimEnd_cons (c : ascii) (s : string) :
  Str.trimEnd (String c s) = EmptyString \/
  Str.trimEnd (String c s) = String c (Str.trimEnd s).
Proof.
  simpl. destruct (Str.trimEnd s); [| now right].
  destruct (Str.is_space c); [now left | now right].
Qed.

Lemma trimEnd_unfold (c : ascii) (s : string) :
  Str.trimEnd (String c s) =
    match Str.trimEnd s with
    | EmptyString => if Str.is_space c then EmptyString else String c EmptyString
    | r => String c r
    end.
Proof. reflexivity. Qed.

Lemma trimEnd_idem (s : string) : Str.trimEnd (Str.trimEnd s) = Str.trimEnd s.
Proof.
  induction s as [| c s IH]; [reflexivity |].
  rewrite trimEnd_unfold. destruct (Str.trimEnd s) as [| c' r] eqn:E.
  - destruct (Str.is_space c) eqn:Ec; [reflexivity |].
    simpl. now rewrite Ec.
  - rewrite trimEnd_unfold, IH. reflexivity.
Qed.

Lemma trimStart_no_lead (s : string) :
  match Str.trimStart s with
  | String c _ => Str.is_space c = false
  | EmptyString => True
  end.
Proof.
  induction s as [| c s IH]; simpl; [exact I |].
  destruct (Str.is_space c) eqn:E; [exact IH | exact E].
Qed.

Lemma trim_idem (s : string) : Str.trim (Str.trim s) = Str.trim s.
Proof.
  unfold Str.trim. pose proof (trimStart_no_lead s) as H.
  destruct (Str.trimStart s) as [| c r]; [reflexivity |].
  destruct (trimEnd_cons c r) as [E | E]; rewrite E; [reflexivity |].
  simpl Str.trimStart. rewrite H. rewrite <- E. apply trimEnd_idem.
Qed.

Lemma includes_trimStart (s : string) (c : ascii) :
  Str.includes s c = false -> Str.includes (Str.trimStart s) c = false.
Proof.
  induction s as [| a s IH]; simpl; [auto |].
  intros H. apply orb_false_iff in H. destruct H as [Ha Hs].
  destruct (Str.is_space a); [auto |]. simpl. now rewrite Ha, Hs.
Qed.

Lemma includes_trimEnd (s : string) (c : ascii) :
  Str.includes s c = false -> Str.includes (Str.trimEnd s) c = false.
Proof.
  induction s as [| a s IH]; simpl; [auto |].
  intros H. apply orb_false_iff in H. destruct H as [Ha Hs].
  specialize (IH Hs).
  destruct (Str.trimEnd s); [destruct (Str.is_space a) |]; simpl in *;
    rewrite ?Ha, ?IH; auto.
Qed.

Lemma split_parts_free (sep : ascii) (s : string) :
  Forall (fun x => Str.includes x sep = false) (Str.split sep s).
Proof.
  induction s as [| c s IH]; simpl; [repeat constructor |].
  destruct (Ascii.eqb c sep) eqn:E; [constructor; [reflexivity | exact IH] |].
  destruct (Str.split sep s) as [| h t]; [repeat constructor; simpl; now rewrite E |].
  inversion IH; subst. constructor; [| assumption].
  simpl. now rewrite E.
Qed.

Lemma split_free (sep : ascii) (x : string) :
  Str.includes x sep = false -> Str.split sep x = [x].
Proof.
  induction x as [| c x IH]; simpl; [reflexivity |].
  intros H. apply orb_false_iff in H. destruct H as [Hc Hx].
  now rewrite Hc, (IH Hx).
Qed.

Lemma split_app_sep (sep : ascii) (x s : string) :
  Str.includes x sep = false ->
  Str.split sep (x ++ String sep s) = x :: Str.split sep s.
Proof.
  induction x as [| c x IH]; simpl.
  - intros _. now rewrite Ascii.eqb_refl.
  - intros H. apply orb_false_iff in H. destruct H as [Hc Hx].
    now rewrite Hc, (IH Hx).
Qed.

(** Splitting the joined items gives them back, each but the first with the
    blank that [join(', ')] put before it. *)
Lemma split_join (x : string) (rest : list string) :
  Forall (fun y => Str.includes y "," = false) (x :: rest) ->
  Str.split "," (Str.join ", " (x :: rest)) =
    x :: map (fun y => String " " y) rest.
Proof.
  revert x. induction rest as [| y rest IH]; intros x H.
  - simpl. apply split_free. now inversion H.
  - inversion H as [| ? ? Hx Hrest]; subst.
    change (Str.join ", " (x :: y :: rest))
      with (x ++ String "," (String " " (Str.join ", " (y :: rest)))).
    rewrite split_app_sep by exact Hx.
    change (Str.split "," (String " " (Str.join ", " (y :: rest))))
      with (match Str.split "," (Str.join ", " (y :: rest)) with
            | h :: t => String " " h :: t
            | [] => [String " " EmptyString]
            end).
    now rewrite (IH y Hrest).
Qed.

Lemma marked_not_reserved (kws : list string) (t : string) :
  Forall (fun kw => Str.startsWith kw "#" = false) kws ->
  Str.mem (Str.toLowerCase (String "#" t)) kws = false.
Proof.
  unfold Str.mem.
  induction 1 as [| kw kws Hkw _ IH]; [reflexivity |].
  cbn [existsb]. rewrite IH, orb_false_r.
  destruct kw as [| c kw]; [reflexivity |].
  change (Str.toLowerCase (String "#" t))
    with (String "#" (Str.toLowerCase t)).
  cbn [String.eqb]. destruct (Ascii.eqb "#" c) eqn:E; [| reflexivity].
  apply Ascii.eqb_eq in E. subst c. simpl in Hkw.
  destruct kw; discriminate Hkw.
Qed.

Section WithKeywords.

Variable RESERVED_KEYWORDS : list string.

(** What the projection form does to one comma-separated item. *)
Let alias (item : string) : string :=
  let trimmed := Str.trim item in
  if negb (Str.truthy trimmed) then trimmed
  else if Str.mem (Str.toLowerCase trimmed) RESERVED_KEYWORDS
       then "#" ++ trimmed
       else trimmed.

Hypothesis no_marked_keyword :
  Forall (fun kw => Str.startsWith kw "#" = false) RESERVED_KEYWORDS.

Lemma alias_fixed (item : string) (Hfree : Str.includes item "," = false) :
  let x := alias item in
  Str.includes x "," = false /\ alias x = x /\
  alias (String " " x) = x.
Proof.
  assert (Htf : Str.includes (Str.trim item) "," = false)
    by (apply includes_trimEnd, includes_trimStart, Hfree).
  assert (Hblank : forall y, alias (String " " y) = alias y) by reflexivity.
  cbv zeta. rewrite Hblank.
  destruct (Str.trim item) as [| c t] eqn:Et.
  - assert (Hitem : alias item = EmptyString)
      by (unfold alias; cbv zeta; now rewrite Et).
    rewrite Hitem. repeat split; reflexivity.
  - assert (Htrimmed : Str.trim (String c t) = String c t)
      by (rewrite <- Et; apply trim_idem).
    destruct (Str.mem (Str.toLowerCase (String c t)) RESERVED_KEYWORDS) eqn:Em.
    + assert (Hitem : alias item = String "#" (String c t))
        by (unfold alias; cbv zeta; rewrite Et; simpl negb; cbv iota;
            now rewrite Em).
      rewrite Hitem.
      assert (Htrim : Str.trim (String "#" (String c t))
                      = String "#" (String c t)).
      { unfold Str.trim in *. simpl Str.trimStart.
        assert (Hs : Str.trimStart (String c t) = String c t).
        { pose proof (trimStart_no_lead item) as Hl. fold (Str.trim item) in Hl.
          unfold Str.trim in Et.
          destruct (Str.trimStart item) as [| c0 r0] eqn:E0;
            [discriminate Et |].
          destruct (trimEnd_cons c0 r0) as [E | E]; rewrite E in Et;
            [discriminate Et |].
          inversion Et; subst c0. simpl. now rewrite Hl. }
        rewrite Hs in Htrimmed.
        rewrite trimEnd_unfold, Htrimmed. reflexivity. }
      split; [simpl; simpl in Htf; exact Htf |].
      assert (Ha : alias (String "#" (String c t)) = String "#" (String c t)).
      { unfold alias. cbv zeta. rewrite Htrim. simpl negb. cbv iota.
        now rewrite (marked_not_reserved _ no_marked_keyword). }
      split; exact Ha.
    + assert (Hitem : alias item = String c t)
        by (unfold alias; cbv zeta; rewrite Et; simpl negb; cbv iota;
            now rewrite Em).
      rewrite Hitem. split; [exact Htf |].
      assert (Ha : alias (String c t) = String c t).
      { unfold alias. cbv zeta. rewrite Htrimmed. simpl negb. cbv iota.
        now rewrite Em. }
      split; exact Ha.
Qed.

(** The projection form never prefixes twice: provided no reserved word
    itself begins with the marker, aliasing an already aliased projection
    changes nothing. *)
Theorem projection_aliasing_idempotent (projection : string) :
  replaceReservedKeywordsFromProjection RESERVED_KEYWORDS
    (replaceReservedKeywordsFromProjection RESERVED_KEYWORDS projection)
  = replaceReservedKeywordsFromProjection RESERVED_KEYWORDS projection.
Proof.
  unfold replaceReservedKeywordsFromProjection. fold alias.
  pose proof (split_parts_free "," projection) as Hfree.
  destruct (Str.split "," projection) as [| x rest].
  - reflexivity.
  - inversion Hfree as [| ? ? Hx Hrest]; subst.
    cbn [map].
    destruct (alias_fixed x Hx) as [Hx1 [Hx2 _]].
    assert (Hall : Forall (fun y => Str.includes y "," = false)
                     (alias x :: map alias rest)).
    { constructor; [exact Hx1 |].
      clear - Hrest no_marked_keyword.
      induction Hrest as [| y l Hy Hl IH]; simpl; constructor; auto.
      now destruct (alias_fixed y Hy). }
    rewrite (split_join Hall). cbn [map]. rewrite map_map, map_map.
    rewrite Hx2. f_equal. f_equal.
    clear - Hrest no_marked_keyword.
    induction Hrest as [| y l Hy Hl IH]; simpl; [reflexivity |].
    rewrite IH. f_equal. now destruct (alias_fixed y Hy) as [_ [_ H]].
Qed.

End WithKeywords.

Lemma projection_aliasing_idempotent_witness :
  replaceReservedKeywordsFromProjection Sample.RESERVED_KEYWORDS
    (replaceReservedKeywordsFromProjection Sample.RESERVED_KEYWORDS
       "name, size , #customField,email")
  = "#name, #size, #customField, email".
Proof.
  rewrite (@projection_aliasing_idempotent Sample.RESERVED_KEYWORDS
             ltac:(repeat constructor)).
  reflexivity.
Defined.

End ReservedMore.

Module UpdateFormMore.
Import Reserved.

Lemma followed_by_equals_includes (s : string) :
  followed_by_equals s = true -> Str.includes s "=" = true.
Proof.
  induction s as [| c s IH]; simpl; [discriminate |].
  destruct (Ascii.eqb c "="); [reflexivity |].
  destruct (Str.is_space c); [exact IH | discriminate].
Qed.

Lemma match_literal_rest (kw : string) :
  forall s m rest c,
    match_literal kw s = Some (m, rest) ->
    Str.includes rest c = true -> Str.includes s c = true.
Proof.
  induction kw as [| k kw IH]; simpl; intros s m rest c H Hin.
  - now inversion H; subst.
  - destruct s as [| a s]; [discriminate H |].
    destruct (Ascii.eqb (Str.lower_char k) (Str.lower_char a));
      [| discriminate H].
    destruct (match_literal kw s) as [[m' rest'] |] eqn:E; [| discriminate H].
    inversion H; subst. simpl. rewrite (IH _ _ _ _ E Hin).
    apply orb_true_r.
Qed.

Lemma match_here_needs_equals (kws : list string) (prev : option ascii)
    (s : string) :
  Str.includes s "=" = false -> match_here kws prev s = None.
Proof.
  intros Hs. unfold match_here. destruct (boundary prev s); [| reflexivity].
  induction kws as [| kw kws IH]; simpl; [reflexivity |].
  destruct (match_literal kw s) as [[m rest] |] eqn:E; [| exact IH].
  destruct (followed_by_equals rest) eqn:Ef.
  - apply followed_by_equals_includes in Ef.
    rewrite (match_literal_rest _ _ _ E Ef) in Hs. discriminate Hs.
  - now rewrite andb_false_r.
Qed.

(** The update form only touches words that an [=] follows: an expression
    without any [=] comes back unchanged, whatever the reserved words. *)
Theorem update_aliasing_needs_equals
    (RESERVED_KEYWORDS : list string) (updateExpression : string) :
  Str.includes updateExpression "=" = false ->
  replaceReservedKeywordsFromUpdateExp RESERVED_KEYWORDS updateExpression
  = updateExpression.
Proof.
  unfold replaceReservedKeywordsFromUpdateExp.
  generalize (@None ascii) as prev. generalize 0 as skip.
  induction updateExpression as [| c s IH]; intros skip prev H;
    [reflexivity |].
  cbn [replace_from].
  assert (Hs : Str.includes s "=" = false).
  { simpl in H. now apply orb_false_iff in H. }
  destruct skip as [| k]; [| now rewrite IH].
  rewrite (match_here_needs_equals _ _ _ H). now rewrite IH.
Qed.

Lemma update_aliasing_needs_equals_witness :
  replaceReservedKeywordsFromUpdateExp Sample.RESERVED_KEYWORDS
    "REMOVE size, name ADD status :one" = "REMOVE size, name ADD status :one".
Proof.
  exact (update_aliasing_needs_equals Sample.RESERVED_KEYWORDS
           "REMOVE size, name ADD status :one" eq_refl).
Defined.

End UpdateFormMore.

Module NamesMore.
Import Names.

Lemma fold_left_pointwise {A B : Type} (f g : A -> B -> A) (l : list B) :
  forall a, (forall x y, f x y = g x y) -> fold_left f l a = fold_left g l a.
Proof.
  induction l as [| y l IH]; intros a H; simpl; [reflexivity |].
  rewrite H. now apply IH.
Qed.

Lemma startsWith_marker (s : string) :
  Str.startsWith s "#" = true -> s = "#" ++ Str.slice1 s.
Proof.
  unfold Str.startsWith. destruct s as [| c r]; [discriminate |].
  destruct c as [[] [] [] [] [] [] [] []]; try discriminate.
  reflexivity.
Qed.

(** The step of both extraction loops. *)
Lemma fold_set_marked (items : list string) (pick : string -> string) :
  forall result k v,
    (forall k v, Obj.get result k = Some v -> k = "#" ++ v) ->
    Obj.get
      (fold_left
         (fun result raw =>
            let attr := pick raw in
            if negb (Str.truthy attr) || negb (Str.startsWith attr "#")
            then result
            else Obj.set result attr (Str.slice1 attr))
         items result) k = Some v ->
    k = "#" ++ v.
Proof.
  induction items as [| raw items IH]; simpl; intros result k v Hinv H.
  - now apply Hinv.
  - apply IH in H; [exact H |].
    intros k' v'.
    destruct (negb (Str.truthy (pick raw))
              || negb (Str.startsWith (pick raw) "#"))%bool eqn:E;
      [apply Hinv |].
    apply orb_false_iff in E. destruct E as [_ E].
    apply negb_false_iff in E.
    destruct (String.eqb (pick raw) k') eqn:Ek.
    + apply String.eqb_eq in Ek. subst k'.
      rewrite ObjFacts.get_set_same. intros [= <-].
      now apply startsWith_marker.
    + apply String.eqb_neq in Ek. rewrite ObjFacts.get_set_other by exact Ek.
      apply Hinv.
Qed.

Lemma startsWith_truthy (attr : string) :
  Str.startsWith attr "#" = true -> Str.truthy attr = true.
Proof.
  unfold Str.startsWith. destruct attr; simpl; [discriminate | reflexivity].
Qed.

(** Both extractors only produce aliases of the form [#n -> n]: every key
    of the map they return is its value behind one marker. *)
Theorem extracted_names_are_aliases (expression k v : string) :
  (Obj.get (extractExpAttributeNamesFromExpression expression) k = Some v ->
   k = "#" ++ v) /\
  (Obj.get (extractExpAttributeNamesFromUpdateExp expression) k = Some v ->
   k = "#" ++ v).
Proof.
  split.
  - unfold extractExpAttributeNamesFromExpression. intros H.
    eapply fold_set_marked with (pick := Str.trim) (result := []);
      [discriminate |].
    rewrite <- H. f_equal. apply fold_left_pointwise.
    intros result raw. cbv zeta.
    destruct (Str.startsWith (Str.trim raw) "#") eqn:E; simpl.
    + now rewrite (startsWith_truthy _ E).
    + now rewrite orb_true_r.
  - unfold extractExpAttributeNamesFromUpdateExp.
    destruct (negb (Str.truthy (Str.trim (strip_SET expression))));
      [discriminate |].
    intros H.
    eapply fold_set_marked
      with (pick := fun assignment =>
                      Str.trim (hd EmptyString (Str.split "=" assignment)))
           (result := []);
      [discriminate | exact H].
Qed.

Lemma extracted_names_are_aliases_witness :
  Obj.get (extractExpAttributeNamesFromUpdateExp
             "SET #size = :size, email = :email, #name = :name") "#name"
  = Some "name" /\ "#name" = "#" ++ "name".
Proof.
  split; [reflexivity |].
  exact (proj2 (extracted_names_are_aliases
                  "SET #size = :size, email = :email, #name = :name"
                  "#name" "name") eq_refl).
Defined.

End NamesMore.

(* ================================================================== *)
(** * Further properties: the scan command builder *)
(* ================================================================== *)

Module ScanMore.
Import Scan.

Section WithGenerator.

Variable generate :
  list Filter.DynamoFilter ->
  result (option Filter.GeneratedDynamoFilterAttributes).

(** The fields of a returned scan command, read off the validated input. *)
Lemma scan_build_inv (custom : CustomScanCommandInput) (cmd : ScanCommandInput) :
  buildScanCommandInput generate custom = Ok cmd ->
  scan_shape_ok custom = true /\ scan_refine_ok custom = true /\
  non_empty_filters (filtersAttributes custom) = false /\
  Limit cmd = match limit custom with
              | Some l => if Z.eqb l 0 then None else Some l
              | None => None
              end /\
  Segment cmd = (if Query.some (segment custom)
                    && Query.some (totalSegments custom)
                 then segment custom else None) /\
  TotalSegments cmd = (if Query.some (segment custom)
                          && Query.some (totalSegments custom)
                       then totalSegments custom else None) /\
  IndexName cmd = keep_truthy (indexName custom) /\
  ConsistentRead cmd = consistentRead custom /\
  ((exists fe,
      filterExpression custom = Some fe /\ Str.truthy fe = true /\
      (Str.includes fe "#" = true ->
       isNonEmptyObject (mergeAttr (expressionAttributeNames custom)
                           (extraExpAttributeNames custom)) = true) /\
      (Str.includes fe ":" = true ->
       isNonEmptyObject (mergeAttr (expressionAttributeValues custom)
                           (extraExpAttributeValues custom)) = true) /\
      FilterExpression cmd = Some fe /\
      ExpressionAttributeNames cmd =
        mergeAttr (expressionAttributeNames custom)
          (extraExpAttributeNames custom) /\
      ExpressionAttributeValues cmd =
        mergeAttr (expressionAttributeValues custom)
          (extraExpAttributeValues custom)) \/
   (Str.otruthy (filterExpression custom) = false /\
    FilterExpression cmd = None /\
    ExpressionAttributeNames cmd =
      drop_empty (mergeAttr (expressionAttributeNames custom)
                    (extraExpAttributeNames custom)) /\
    ExpressionAttributeValues cmd =
      drop_empty (mergeAttr (expressionAttributeValues custom)
                    (extraExpAttributeValues custom)))).
Proof.
  unfold buildScanCommandInput, customScanCommandInputSch.
  destruct (scan_shape_ok custom) eqn:Hshape; [| discriminate].
  destruct (scan_refine_ok custom) eqn:Href; [| discriminate].
  simpl bind.
  destruct (non_empty_filters (filtersAttributes custom)) eqn:Hne;
    [discriminate |].
  cbv zeta. intros H.
  split; [reflexivity | split; [reflexivity | split; [reflexivity |]]].
  destruct (filterExpression custom) as [fe |] eqn:Hfe.
  - destruct (Str.truthy fe) eqn:Ht.
    + destruct (Str.includes fe "#" && negb (isNonEmptyObject _))%bool eqn:En;
        [discriminate H |].
      destruct (Str.includes fe ":" && negb (isNonEmptyObject _))%bool eqn:Ev;
        [discriminate H |].
      injection H as <-. cbn [with_filter Limit Segment TotalSegments IndexName
        ConsistentRead FilterExpression ExpressionAttributeNames
        ExpressionAttributeValues].
      repeat (split; [reflexivity |]).
      left. exists fe.
      split; [reflexivity |]. split; [exact Ht |].
      split.
      { intros Hi. rewrite Hi in En. simpl in En.
        now apply negb_false_iff in En. }
      split.
      { intros Hi. rewrite Hi in Ev. simpl in Ev.
        now apply negb_false_iff in Ev. }
      repeat split.
    + injection H as <-. cbn [without_filter Limit Segment TotalSegments
        IndexName ConsistentRead FilterExpression ExpressionAttributeNames
        ExpressionAttributeValues].
      repeat (split; [reflexivity |]).
      right. simpl. rewrite Ht. repeat split.
  - injection H as <-. cbn [without_filter Limit Segment TotalSegments
      IndexName ConsistentRead FilterExpression ExpressionAttributeNames
      ExpressionAttributeValues].
    repeat (split; [reflexivity |]).
    right. repeat split.
Qed.

(** A scan command that carries a filter expression backs its
    placeholders: a [#] in the expression comes with a non-empty name map,
    a [:] with a non-empty value map; a command without filter expression
    never carries an empty map. *)
Theorem scan_placeholders_backed
    (custom : CustomScanCommandInput) (cmd : ScanCommandInput) :
  buildScanCommandInput generate custom = Ok cmd ->
  match FilterExpression cmd with
  | Some fe =>
      Str.truthy fe = true /\
      (Str.includes fe "#" = true ->
       isNonEmptyObject (ExpressionAttributeNames cmd) = true) /\
      (Str.includes fe ":" = true ->
       isNonEmptyObject (ExpressionAttributeValues cmd) = true)
  | None =>
      ExpressionAttributeNames cmd <> Some [] /\
      ExpressionAttributeValues cmd <> Some []
  end.
Proof.
  intros H.
  destruct (scan_build_inv _ H)
    as [_ [_ [_ [_ [_ [_ [_ [_ [Hcase | Hcase]]]]]]]]].
  - destruct Hcase as [fe [_ [Ht [Hn [Hv [-> [-> ->]]]]]]]. auto.
  - destruct Hcase as [_ [-> [-> ->]]]. unfold drop_empty.
    split.
    + destruct (mergeAttr (expressionAttributeNames custom) _) as [[| ? ?] |];
        discriminate.
    + destruct (mergeAttr (expressionAttributeValues custom) _) as [[| ? ?] |];
        discriminate.
Qed.

(** A returned scan command is well-formed for a parallel scan: it has
    both [Segment] and [TotalSegments] or neither, with
    [0 <= Segment < TotalSegments]; its [Limit], if any, is positive; and it
    never asks for a consistent read of an index. *)
Theorem scan_command_well_formed
    (custom : CustomScanCommandInput) (cmd : ScanCommandInput) :
  buildScanCommandInput generate custom = Ok cmd ->
  match Segment cmd, TotalSegments cmd with
  | Some seg, Some tot => (0 <= seg < tot)%Z
  | None, None => True
  | _, _ => False
  end /\
  (forall l, Limit cmd = Some l -> (0 < l)%Z) /\
  (IndexName cmd <> None -> ConsistentRead cmd <> Some true).
Proof.
  intros H.
  destruct (scan_build_inv _ H)
    as [Hshape [Href [_ [Hl [Hs [Ht [Hi [Hc _]]]]]]]].
  rewrite Hl, Hs, Ht, Hi, Hc.
  unfold scan_shape_ok in Hshape. unfold scan_refine_ok in Href.
  repeat (apply andb_true_iff in Hshape; destruct Hshape as [Hshape ?]).
  apply andb_true_iff in Href. destruct Href as [Hseg Hidx].
  split; [| split].
  - destruct (segment custom) as [seg |], (totalSegments custom) as [tot |];
      simpl in *; try discriminate Hseg; [| exact I].
    apply andb_true_iff in Hseg. destruct Hseg as [_ Hseg].
    apply negb_true_iff, orb_false_iff in Hseg. lia.
  - intros l. destruct (limit custom) as [l0 |]; [| discriminate].
    destruct (Z.eqb l0 0); [discriminate |]. intros [= <-].
    match goal with
    | Hl0 : Query.opt_ok (fun l => Z.ltb 0 l) (Some l0) = true |- _ =>
        simpl in Hl0; lia
    end.
  - unfold keep_truthy. intros Hin Hcr.
    destruct (Str.otruthy (indexName custom)); [| contradiction].
    rewrite Hcr in Hidx. discriminate Hidx.
Qed.

End WithGenerator.

Lemma scan_placeholders_backed_witness :
  exists cmd,
    buildScanCommandInput (Filter.generateDynamoFilterAttributes Sample.Number)
      Cases.manualScan = Ok cmd /\
    FilterExpression cmd = Some "#age > :minAge" /\
    isNonEmptyObject (ExpressionAttributeNames cmd) = true.
Proof.
  eexists. split; [vm_compute; reflexivity |]. split; [reflexivity |].
  refine (proj1 (proj2 (scan_placeholders_backed
            (Filter.generateDynamoFilterAttributes Sample.Number)
            Cases.manualScan
            (cmd := {| TableName := _; IndexName := _;
                       ProjectionExpression := _; Limit := _;
                       ExclusiveStartKey := _; ConsistentRead := _;
                       Segment := _; TotalSegments := _;
                       ReturnConsumedCapacity := _;
                       ReturnItemCollectionMetrics := _;
                       FilterExpression := Some "#age > :minAge";
                       ExpressionAttributeNames := _;
                       ExpressionAttributeValues := _ |})
            ltac:(vm_compute; reflexivity))) eq_refl).
Defined.

Lemma scan_command_well_formed_witness :
  exists cmd,
    buildScanCommandInput (Filter.generateDynamoFilterAttributes Sample.Number)
      Cases.manualScan = Ok cmd /\
    Segment cmd = Some 1%Z /\ TotalSegments cmd = Some 4%Z /\
    (0 <= 1 < 4)%Z.
Proof.
  eexists. split; [vm_compute; reflexivity |].
  split; [reflexivity |]. split; [reflexivity |].
  exact (proj1 (scan_command_well_formed
           (Filter.generateDynamoFilterAttributes Sample.Number)
           Cases.manualScan
           (cmd := {| TableName := _; IndexName := _;
                      ProjectionExpression := _; Limit := _;
                      ExclusiveStartKey := _; ConsistentRead := _;
                      Segment := Some 1%Z; TotalSegments := Some 4%Z;
                      ReturnConsumedCapacity := _;
                      ReturnItemCollectionMetrics := _;
                      FilterExpression := _;
                      ExpressionAttributeNames := _;
                      ExpressionAttributeValues := _ |})
           ltac:(vm_compute; reflexivity))).
Defined.

End ScanMore.

(* ================================================================== *)
(** * Further properties: [omit] *)
(* ================================================================== *)

Module OmitMore.
Import Omit.


Lemma get_filter {V : Type} (o : obj V) (keep : string -> bool) (k : string) :
  Obj.get (filter (fun kv => keep (fst kv)) o) k =
    if keep k then Obj.get o k else None.
Proof.
  induction o as [| [k' v'] o IH]; simpl; [now destruct (keep k) |].
  destruct (keep k') eqn:Ek'; simpl.
  - destruct (String.eqb k' k) eqn:E; [| exact IH].
    apply String.eqb_eq in E. subst. now rewrite Ek'.
  - rewrite IH. destruct (String.eqb k' k) eqn:E; [| reflexivity].
    apply String.eqb_eq in E. subst. now rewrite Ek'.
Qed.

Lemma filter_keys {V : Type} (o : obj V) (keep : string -> bool) :
  Obj.keys (filter (fun kv => keep (fst kv)) o) = filter keep (Obj.keys o).
Proof.
  unfold Obj.keys. induction o as [| [k v] o IH]; simpl; [reflexivity |].
  destruct (keep k); simpl; now rewrite IH.
Qed.

Lemma includes_app (keys keys' : list key) (k : string) :
  includes (keys ++ keys')%list k = (includes keys k || includes keys' k)%bool.
Proof. apply existsb_app. Qed.

Section Facts.

Context {V : Type}.
Variable accepts_prototype : V -> bool.
Variable sets_through : V -> string -> bool.

Implicit Types (o : obj V) (keys : list key).

(** The loop of [omit] on properties that do not include [__proto__],
    started from a result whose keys they do not repeat. *)
Lemma omit_loop keys o :
  forall result,
    NoDup (Obj.keys result ++ Obj.keys o)%list ->
    Obj.has o "__proto__" = false ->
    fold_left
      (fun result kv =>
         if negb (includes keys (fst kv))
         then assign_property accepts_prototype sets_through result
                (fst kv) (snd kv)
         else result)
      o {| own := result; prototype := None |}
    = {| own :=
           (result ++ filter (fun kv => negb (includes keys (fst kv))) o)%list;
         prototype := None |}.
Proof.
  induction o as [| [k v] o IH]; intros result Hnd Hproto; simpl.
  - now rewrite app_nil_r.
  - simpl in Hnd. pose proof (NoDup_remove _ _ _ Hnd) as [Hrest Hnotin].
    assert (Hk : ~ In k (Obj.keys result)).
    { intros Hin. apply Hnotin, in_or_app. now left. }
    unfold Obj.has in Hproto. simpl in Hproto.
    destruct (String.eqb k "__proto__") eqn:Ek; [discriminate Hproto |].
    destruct (negb (includes keys k)) eqn:E.
    + unfold assign_property. cbn [prototype own]. rewrite Ek.
      rewrite ObjFacts.set_fresh by now apply ObjFacts.get_none_not_key.
      unfold push. rewrite IH.
      * now rewrite <- app_assoc.
      * unfold Obj.keys. rewrite map_app. simpl. rewrite <- app_assoc.
        exact Hnd.
      * exact Hproto.
    + now apply IH.
Qed.

Lemma omit_filter o keys :
  NoDup (Obj.keys o) -> Obj.has o "__proto__" = false ->
  omit accepts_prototype sets_through o keys =
    {| own := filter (fun kv => negb (includes keys (fst kv))) o;
       prototype := None |}.
Proof.
  intros Hnd Hproto. unfold omit. now rewrite omit_loop.
Qed.

Lemma filter_keeps_shape o (keep : string -> bool) :
  NoDup (Obj.keys o) -> Obj.has o "__proto__" = false ->
  NoDup (Obj.keys (filter (fun kv => keep (fst kv)) o)) /\
  Obj.has (filter (fun kv => keep (fst kv)) o) "__proto__" = false.
Proof.
  intros Hnd Hproto. split.
  - rewrite filter_keys. now apply NoDup_filter.
  - unfold Obj.has in *. rewrite get_filter.
    destruct (keep "__proto__"); [exact Hproto | reflexivity].
Qed.

(** On an object without an own [__proto__] property, [omit] removes
    exactly the properties listed as strings: the result keeps the
    prototype of [{}], a listed key is no own property of it, every other
    key keeps its value, and the remaining keys keep their order. *)
Theorem omit_removes_exactly o keys k :
  NoDup (Obj.keys o) -> Obj.has o "__proto__" = false ->
  prototype (omit accepts_prototype sets_through o keys) = None /\
  Obj.get (own (omit accepts_prototype sets_through o keys)) k =
    (if includes keys k then None else Obj.get o k) /\
  Obj.keys (own (omit accepts_prototype sets_through o keys)) =
    filter (fun k => negb (includes keys k)) (Obj.keys o).
Proof.
  intros Hnd Hproto. rewrite (omit_filter o keys Hnd Hproto). cbn [prototype own].
  split; [reflexivity |]. split.
  - rewrite (get_filter o (fun k => negb (includes keys k))).
    now destruct (includes keys k).
  - apply (filter_keys o (fun k => negb (includes keys k))).
Qed.

(** On an object without an own [__proto__] property, omitting in two
    steps is omitting the two lists at once, and omitting nothing returns
    the properties of the object. *)
Theorem omit_composes o keys keys' :
  NoDup (Obj.keys o) -> Obj.has o "__proto__" = false ->
  omit accepts_prototype sets_through
    (own (omit accepts_prototype sets_through o keys)) keys'
  = omit accepts_prototype sets_through o (keys ++ keys')%list /\
  own (omit accepts_prototype sets_through o []) = o.
Proof.
  intros Hnd Hproto. split.
  - destruct (filter_keeps_shape o (fun k => negb (includes keys k)) Hnd Hproto)
      as [Hnd' Hproto'].
    rewrite (omit_filter o keys Hnd Hproto). cbn [own].
    rewrite (omit_filter _ keys' Hnd' Hproto'),
      (omit_filter o (keys ++ keys')%list Hnd Hproto).
    f_equal. clear.
    induction o as [| [k v] o IH]; simpl; [reflexivity |].
    rewrite includes_app.
    destruct (includes keys k); simpl.
    + exact IH.
    + destruct (includes keys' k); simpl; now rewrite IH.
  - rewrite (omit_filter o [] Hnd Hproto). cbn [own]. clear.
    induction o as [| [k v] o IH]; [reflexivity |].
    cbn [filter fst]. change (includes [] k) with false. cbn [negb].
    now rewrite IH.
Qed.




End Facts.

Lemma omit_removes_exactly_witness :
  Obj.get
    (own (omit (fun _ => false) (fun _ _ => true)
            [("id", 1); ("name", 2); ("password", 3)] [KString "password"]))
    "password" = None /\
  Obj.keys
    (own (omit (fun _ => false) (fun _ _ => true)
            [("id", 1); ("name", 2); ("password", 3)] [KString "password"]))
    = ["id"; "name"].
Proof.
  exact (proj2 (omit_removes_exactly (fun _ => false) (fun _ _ => true)
                  [("id", 1); ("name", 2); ("password", 3)]
                  [KString "password"] "password"
                  ltac:(repeat constructor; simpl; intuition discriminate)
                  eq_refl)).
Defined.

Lemma omit_composes_witness :
  omit (fun _ => false) (fun _ _ => true)
    (own (omit (fun _ => false) (fun _ _ => true)
            [("a", 1); ("b", 2); ("c", 3); ("d", 4)] [KString "b"]))
    [KString "d"]
  = {| own := [("a", 1); ("c", 3)]; prototype := None |} /\
  own (omit (fun _ => false) (fun _ _ => true)
         [("a", 1); ("b", 2); ("c", 3); ("d", 4)] []) =
    [("a", 1); ("b", 2); ("c", 3); ("d", 4)].
Proof.
  exact (omit_composes (fun _ => false) (fun _ _ => true)
           [("a", 1); ("b", 2); ("c", 3); ("d", 4)]
           [KString "b"] [KString "d"]
           ltac:(repeat constructor; simpl; intuition discriminate) eq_refl).
Defined.


End OmitMore.

(* ================================================================== *)
(** * Further properties: the update command builder *)
(* ================================================================== *)

Module UpdateMore.
Import Update.

Lemma in_use_set_same (values : obj jsval) (k : string) (v : jsval) :
  is_undefined v = false -> in_use (Obj.set values k v) k = true.
Proof.
  intros Hd. unfold in_use. now rewrite ObjFacts.get_set_same, Hd.
Qed.

Lemma in_use_set_other (values : obj jsval) (k k' : string) (v : jsval) :
  k <> k' -> in_use (Obj.set values k v) k' = in_use values k'.
Proof.
  intros Hne. unfold in_use. now rewrite ObjFacts.get_set_other.
Qed.

(** With defined values, the tokens of the fields are pairwise distinct,
    and each one is bound to the value of its field at the end. *)
Lemma assigns_bound (itemRecord values : obj jsval)
    (fragments : list string) (values' : obj jsval) :
  Spec.assigns in_use itemRecord values fragments values' ->
  Forall (fun fv => is_undefined (snd fv) = false) itemRecord ->
  exists tokens,
    fragments =
      map (fun p => Cases.assignment (fst p) (snd p))
        (combine itemRecord tokens) /\
    NoDup tokens /\
    Forall (fun t => in_use values t = false) tokens /\
    Forall2 (fun fv t => Obj.get values' t = Some (snd fv)) itemRecord tokens.
Proof.
  induction 1 as [| field value rest values token fragments values' Hc Ha IH];
    intros Hdef.
  - exists []. repeat split; constructor.
  - inversion Hdef as [| ? ? Hvalue Hrest]; subst. simpl in Hvalue.
    destruct (IH Hrest) as [tokens [Hf [Hnd [Hfree Hbound]]]].
    assert (Hnotin : ~ In token tokens).
    { intros Hin. rewrite Forall_forall in Hfree.
      specialize (Hfree _ Hin).
      rewrite in_use_set_same in Hfree by exact Hvalue. discriminate. }
    exists (token :: tokens). repeat split.
    + simpl. now rewrite Hf.
    + now constructor.
    + constructor; [exact (UpdateFacts.chosen_token_unused Hc) |].
      rewrite Forall_forall in *. intros t Hin.
      rewrite <- (in_use_set_other values (k := token) (k' := t) value).
      * now apply Hfree.
      * intros ->. contradiction.
    + constructor; [| exact Hbound].
      apply (UpdateFacts.assigns_preserves Ha);
        [apply ObjFacts.get_set_same | exact Hvalue].
Qed.

(** The builder fails in exactly one situation, with one exception: no
    truthy update expression and no item with at least one field. *)
Theorem update_fails_without_work (RESERVED_KEYWORDS : list string)
    (input : CustomUpdateCommandInput) :
  (buildUpdateCommandInput RESERVED_KEYWORDS input
     = Throw Cases.nothing_to_update <->
   Str.otruthy (updateExpression input) = false /\
   Obj.is_empty (Obj.or_empty (item input)) = true) /\
  (forall e,
     buildUpdateCommandInput RESERVED_KEYWORDS input = Throw e ->
     e = Cases.nothing_to_update).
Proof.
  unfold buildUpdateCommandInput, Cases.nothing_to_update.
  destruct (Str.otruthy (updateExpression input)).
  - split; [split |]; [discriminate | intros [? _]; discriminate
                     | discriminate].
  - destruct (item input) as [[| entry rest] |]; cbn [Obj.or_empty Obj.is_empty].
    + split; [tauto | now intros e [= <-]].
    + destruct (assignFields (entry :: rest) (mergedValues input) []).
      split; [split |]; [discriminate | intros [_ ?]; discriminate
                       | discriminate].
    + split; [tauto | now intros e [= <-]].
Qed.

(** When the expression is generated from an item whose values are all
    defined, the fields get pairwise distinct tokens, the expression is made
    of the assignments [field = token] in the order of the fields, and the
    value map of the command binds each token to the value of its field. *)
Theorem update_fields_bound (RESERVED_KEYWORDS : list string)
    (input : CustomUpdateCommandInput) (itemRecord : obj jsval)
    (cmd : UpdateCommandInput) :
  Str.otruthy (updateExpression input) = false ->
  item input = Some itemRecord ->
  Forall (fun fv => is_undefined (snd fv) = false) itemRecord ->
  buildUpdateCommandInput RESERVED_KEYWORDS input = Ok cmd ->
  exists tokens values',
    NoDup tokens /\
    UpdateExpression cmd =
      Some (Reserved.replaceReservedKeywordsFromUpdateExp RESERVED_KEYWORDS
              ("SET " ++
               Str.join ", "
                 (map (fun p => Cases.assignment (fst p) (snd p))
                    (combine itemRecord tokens)))) /\
    ExpressionAttributeValues cmd = Some values' /\
    Forall2 (fun fv t => Obj.get values' t = Some (snd fv)) itemRecord tokens.
Proof.
  intros Hmode Hitem Hdef.
  unfold buildUpdateCommandInput. rewrite Hmode, Hitem.
  destruct (UpdateFacts.assignFields_assigns itemRecord (mergedValues input) [])
    as [fragments [Hs Ha]].
  destruct (assignFields itemRecord (mergedValues input) [])
    as [values' updateParts] eqn:Hloop.
  cbn [fst snd app] in Hs, Ha. subst updateParts.
  destruct itemRecord as [| entry rest] eqn:Hrec; [discriminate |].
  intros [= <-].
  destruct (assigns_bound Ha Hdef) as [tokens [Hf [Hnd [_ Hbound]]]].
  exists tokens, values'. split; [exact Hnd |].
  split; [cbn [UpdateExpression]; now rewrite Hf |].
  split; [| exact Hbound].
  cbn [ExpressionAttributeValues]. unfold attach.
  assert (Hne : values' <> []).
  { apply (UpdateFacts.assigns_nonempty Ha). left. discriminate. }
  destruct values'; [contradiction | reflexivity].
Qed.

(** The loop that adds the derived names: a name of the caller stays, a
    derived name is added when the caller has none for its key. *)
Lemma derived_names_fill (autoNames : obj string) :
  forall (names : obj string) (k : string),
    Obj.get
      (fold_left
         (fun acc kv =>
            if Obj.has acc (fst kv) then acc
            else Obj.set acc (fst kv) (snd kv))
         autoNames names) k =
    match Obj.get names k with
    | Some v => Some v
    | None => Obj.get autoNames k
    end.
Proof.
  induction autoNames as [| [k' v'] autoNames IH]; intros names k;
    cbn [fold_left fst snd Obj.get].
  - now destruct (Obj.get names k).
  - rewrite IH. unfold Obj.has.
    destruct (Obj.get names k') as [w |] eqn:Hk'.
    + destruct (String.eqb k' k) eqn:E; [| reflexivity].
      apply String.eqb_eq in E. subst k'. now rewrite Hk'.
    + destruct (String.eqb k' k) eqn:E.
      * apply String.eqb_eq in E. subst k'.
        now rewrite ObjFacts.get_set_same, Hk'.
      * apply String.eqb_neq in E.
        now rewrite ObjFacts.get_set_other by exact E.
Qed.

Lemma or_empty_attach {V : Type} (o : obj V) : Obj.or_empty (attach o) = o.
Proof. now destruct o. Qed.

(** In the generated mode the name map of the command is the caller's
    merged names, completed by the names derived from the final expression:
    on a key that both define, the caller's name wins. *)
Theorem caller_names_win (RESERVED_KEYWORDS : list string)
    (input : CustomUpdateCommandInput) (cmd : UpdateCommandInput)
    (expression k : string) :
  Str.otruthy (updateExpression input) = false ->
  buildUpdateCommandInput RESERVED_KEYWORDS input = Ok cmd ->
  UpdateExpression cmd = Some expression ->
  Obj.get (Obj.or_empty (ExpressionAttributeNames cmd)) k =
    match Obj.get (mergedNames input) k with
    | Some v => Some v
    | None =>
        Obj.get (Names.extractExpAttributeNamesFromUpdateExp expression) k
    end.
Proof.
  intros Hmode. unfold buildUpdateCommandInput. rewrite Hmode.
  destruct (item input) as [[| entry rest] |]; try discriminate.
  destruct (assignFields (entry :: rest) (mergedValues input) [])
    as [values' updateParts].
  intros [= <-]. cbn [UpdateExpression ExpressionAttributeNames].
  intros [= <-]. rewrite or_empty_attach. apply derived_names_fill.
Qed.

Lemma update_fails_without_work_witness :
  buildUpdateCommandInput Sample.RESERVED_KEYWORDS (Cases.updateOf None None [])
  = Throw Cases.nothing_to_update.
Proof.
  exact (proj2 (proj1 (update_fails_without_work Sample.RESERVED_KEYWORDS
                         (Cases.updateOf None None [])))
           (conj eq_refl eq_refl)).
Defined.

Lemma update_fields_bound_witness :
  exists tokens values',
    NoDup tokens /\
    Some "SET #name = :name_update_1, email = :email" =
      Some (Reserved.replaceReservedKeywordsFromUpdateExp
              Sample.RESERVED_KEYWORDS
              ("SET " ++
               Str.join ", "
                 (map (fun p => Cases.assignment (fst p) (snd p))
                    (combine [("name", VStr "John"); ("email", VStr "j@x.io")]
                       tokens)))) /\
    Some [(":name", VStr "caller"); (":name_update_1", VStr "John");
          (":email", VStr "j@x.io")] = Some values' /\
    Forall2 (fun fv t => Obj.get values' t = Some (snd fv))
      [("name", VStr "John"); ("email", VStr "j@x.io")] tokens.
Proof.
  exact (@update_fields_bound Sample.RESERVED_KEYWORDS
           (Cases.updateOf None (Some [(":name", VStr "caller")])
              [("name", VStr "John"); ("email", VStr "j@x.io")])
           [("name", VStr "John"); ("email", VStr "j@x.io")]
           ({| TableName := "Users"; Key := [("userId", VStr "123")];
                      ConditionExpression := None; ReturnValues := "NONE";
                      ReturnConsumedCapacity := None;
                      ReturnItemCollectionMetrics := None;
                      ExpressionAttributeNames := Some [("#name", "name")];
                      ExpressionAttributeValues :=
                        Some [(":name", VStr "caller");
                              (":name_update_1", VStr "John");
                              (":email", VStr "j@x.io")];
                      UpdateExpression :=
                        Some "SET #name = :name_update_1, email = :email" |})
           eq_refl eq_refl
           ltac:(repeat constructor)
           ltac:(vm_compute; reflexivity)).
Defined.

Lemma caller_names_win_witness :
  Obj.get [("#name", "fullName")] "#name" = Some "fullName".
Proof.
  exact (@caller_names_win Sample.RESERVED_KEYWORDS
           (Cases.updateOf (Some [("#name", "fullName")]) None
              [("name", VStr "John")])
           ({| TableName := "Users"; Key := [("userId", VStr "123")];
                      ConditionExpression := None; ReturnValues := "NONE";
                      ReturnConsumedCapacity := None;
                      ReturnItemCollectionMetrics := None;
                      ExpressionAttributeNames := Some [("#name", "fullName")];
                      ExpressionAttributeValues := Some [(":name", VStr "John")];
                      UpdateExpression := Some "SET #name = :name" |})
           "SET #name = :name" "#name"
           eq_refl ltac:(vm_compute; reflexivity) eq_refl).
Defined.

End UpdateMore.

(* ================================================================== *)
(** * Further properties: the get and put command builders *)
(* ================================================================== *)

Module GetPutMore.

Lemma assign_nil {V : Type} (extra : obj V) :
  NoDup (Obj.keys extra) ->
  forall k, Obj.get (Obj.assign [] extra) k = Obj.get extra k.
Proof.
  intros Hnd k. rewrite ObjMore.get_assign by exact Hnd.
  now destruct (Obj.get extra k).
Qed.

(** The names that an extraction loop has set stay in the result. *)
Lemma extraction_keeps (items : list string) :
  forall (result : obj string) (k : string),
    Obj.has result k = true ->
    Obj.has
      (fold_left
         (fun result raw =>
            let attr := Str.trim raw in
            if Str.startsWith attr "#"
            then Obj.set result attr (Str.slice1 attr)
            else result)
         items result) k = true.
Proof.
  induction items as [| raw items IH]; intros result k H; simpl; [exact H |].
  apply IH. destruct (Str.startsWith (Str.trim raw) "#"); [| exact H].
  rewrite ObjFacts.has_set, H. apply orb_true_r.
Qed.

Lemma extraction_adds (items : list string) :
  forall (result : obj string) (raw : string),
    In raw items ->
    Str.startsWith (Str.trim raw) "#" = true ->
    Obj.has
      (fold_left
         (fun result raw =>
            let attr := Str.trim raw in
            if Str.startsWith attr "#"
            then Obj.set result attr (Str.slice1 attr)
            else result)
         items result) (Str.trim raw) = true.
Proof.
  induction items as [| raw' items IH]; intros result raw Hin Hm;
    [contradiction |].
  simpl. destruct Hin as [-> | Hin].
  - apply extraction_keeps. rewrite Hm, ObjFacts.has_set.
    now rewrite String.eqb_refl.
  - now apply IH.
Qed.

Lemma extracted_NoDup (expression : string) :
  NoDup (Obj.keys (Names.extractExpAttributeNamesFromExpression expression)).
Proof.
  unfold Names.extractExpAttributeNamesFromExpression.
  assert (H : forall items (result : obj string),
             NoDup (Obj.keys result) ->
             NoDup (Obj.keys
                      (fold_left
                         (fun result raw =>
                            let attr := Str.trim raw in
                            if Str.startsWith attr "#"
                            then Obj.set result attr (Str.slice1 attr)
                            else result)
                         items result))).
  { induction items as [| raw items IH]; intros result Hnd; simpl;
      [exact Hnd |].
    apply IH. destruct (Str.startsWith (Str.trim raw) "#"); [| exact Hnd].
    now apply ObjMore.set_NoDup. }
  apply H. constructor.
Qed.

(** A trimmed, non-empty text behind a marker is trimmed. *)
Lemma trim_marked (item : string) :
  Str.truthy (Str.trim item) = true ->
  Str.trim (String "#" (Str.trim item)) = String "#" (Str.trim item) /\
  Str.trim (String " " (String "#" (Str.trim item)))
    = String "#" (Str.trim item).
Proof.
  intros Ht.
  assert (E : Str.trim (String "#" (Str.trim item))
              = String "#" (Str.trim item)).
  { unfold Str.trim at 1. cbn [Str.trimStart].
    change (Str.is_space "#") with false. cbv iota.
    rewrite ReservedMore.trimEnd_unfold.
    unfold Str.trim. rewrite ReservedMore.trimEnd_idem.
    fold (Str.trim item).
    destruct (Str.trim item); [discriminate Ht | reflexivity]. }
  split; [exact E |]. exact E.
Qed.

Lemma join_truthy (sep : string) (l : list string) (x : string) :
  In x l -> Str.truthy x = true -> Str.truthy (Str.join sep l) = true.
Proof.
  unfold Str.join.
  induction l as [| y l IH]; intros Hin Hx; [contradiction |].
  destruct l as [| z l].
  - destruct Hin as [-> | []]. exact Hx.
  - cbn [String.concat]. destruct Hin as [-> | Hin].
    + destruct x; [discriminate Hx | reflexivity].
    + specialize (IH Hin Hx). destruct y; [| reflexivity].
      destruct sep; [exact IH | reflexivity].
Qed.

Section WithKeywords.

Variable RESERVED_KEYWORDS : list string.

(** What the projection form does to one comma-separated item. *)
Let alias (item : string) : string :=
  let trimmed := Str.trim item in
  if negb (Str.truthy trimmed) then trimmed
  else if Str.mem (Str.toLowerCase trimmed) RESERVED_KEYWORDS
       then "#" ++ trimmed
       else trimmed.

Lemma alias_free (item : string) :
  Str.includes item "," = false -> Str.includes (alias item) "," = false.
Proof.
  intros Hfree.
  assert (Htf : Str.includes (Str.trim item) "," = false)
    by (apply ReservedMore.includes_trimEnd,
          ReservedMore.includes_trimStart, Hfree).
  unfold alias. cbv zeta.
  destruct (negb (Str.truthy (Str.trim item))); [exact Htf |].
  destruct (Str.mem (Str.toLowerCase (Str.trim item)) RESERVED_KEYWORDS);
    [| exact Htf].
  simpl. exact Htf.
Qed.

(** The items of the aliased projection, as the extractor splits them. *)
Lemma aliased_items (projection item : string) :
  In item (Str.split "," projection) ->
  exists raw,
    In raw (Str.split ","
              (Reserved.replaceReservedKeywordsFromProjection
                 RESERVED_KEYWORDS projection)) /\
    (raw = alias item \/ raw = String " " (alias item)).
Proof.
  unfold Reserved.replaceReservedKeywordsFromProjection. fold alias.
  pose proof (ReservedMore.split_parts_free "," projection) as Hfree.
  destruct (Str.split "," projection) as [| x rest]; [contradiction |].
  intros Hin. cbn [map].
  rewrite ReservedMore.split_join.
  - destruct Hin as [<- | Hin].
    + exists (alias x). split; [now left | now left].
    + exists (String " " (alias item)). split; [| now right].
      right. apply in_map_iff. exists (alias item). split; [reflexivity |].
      now apply in_map.
  - change (alias x :: map alias rest) with (map alias (x :: rest)).
    rewrite Forall_forall in *. intros y Hy.
    apply in_map_iff in Hy. destruct Hy as [y0 [<- Hy0]].
    apply alias_free, Hfree, Hy0.
Qed.

(** Every reserved item of the projection is aliased in the command's
    projection and bound in its name map: for an item whose trimmed,
    lower-cased text is a reserved word, the name map has the key made of
    the marker and the trimmed item. *)
Theorem reserved_projection_items_bound
    (input : Get.CustomGetCommandInput) (projection item : string) :
  Get.projectionExpression input = Some projection ->
  In item (Str.split "," projection) ->
  Str.truthy (Str.trim item) = true ->
  Str.mem (Str.toLowerCase (Str.trim item)) RESERVED_KEYWORDS = true ->
  Get.ProjectionExpression (Get.buildGetCommandInput RESERVED_KEYWORDS input)
    = Some (Reserved.replaceReservedKeywordsFromProjection
              RESERVED_KEYWORDS projection) /\
  Obj.has
    (Obj.or_empty
       (Get.ExpressionAttributeNames
          (Get.buildGetCommandInput RESERVED_KEYWORDS input)))
    ("#" ++ Str.trim item) = true.
Proof.
  intros Hp Hin Ht Hres.
  assert (Halias : alias item = String "#" (Str.trim item)).
  { unfold alias. cbv zeta. now rewrite Ht, Hres. }
  assert (Hproj : Str.truthy projection = true).
  { destruct projection; [| reflexivity].
    simpl in Hin. destruct Hin as [<- | []]. discriminate Ht. }
  destruct (aliased_items projection item Hin) as [raw [Hraw Hshape]].
  assert (Htrim : Str.trim raw = String "#" (Str.trim item)).
  { rewrite Halias in Hshape.
    destruct Hshape as [-> | ->]; now apply trim_marked. }
  assert (Hq : Str.truthy
                 (Reserved.replaceReservedKeywordsFromProjection
                    RESERVED_KEYWORDS projection) = true).
  { unfold Reserved.replaceReservedKeywordsFromProjection. fold alias.
    apply join_truthy with (x := alias item).
    - now apply in_map.
    - now rewrite Halias. }
  unfold Get.buildGetCommandInput.
  cbn [Get.ProjectionExpression Get.ExpressionAttributeNames].
  rewrite Hp, Hproj, Hq. split; [reflexivity |].
  rewrite UpdateMore.or_empty_attach, !ObjFacts.has_assign.
  unfold Names.extractExpAttributeNamesFromExpression.
  change ("#" ++ Str.trim item) with (String "#" (Str.trim item)).
  rewrite <- Htrim.
  rewrite extraction_adds; [now rewrite orb_true_r | exact Hraw |].
  rewrite Htrim. unfold Str.startsWith. simpl.
  now destruct (Str.trim item).
Qed.

(** The name map of a get command is the map of the aliases extracted from
    its projection, overridden by the names of the caller. *)
Theorem get_names_overridden
    (input : Get.CustomGetCommandInput) (names : obj string) (k : string) :
  Get.expressionAttributeNames input = Some names ->
  NoDup (Obj.keys names) ->
  Obj.get
    (Obj.or_empty
       (Get.ExpressionAttributeNames
          (Get.buildGetCommandInput RESERVED_KEYWORDS input))) k =
  match Obj.get names k with
  | Some v => Some v
  | None =>
      match Get.ProjectionExpression
              (Get.buildGetCommandInput RESERVED_KEYWORDS input) with
      | Some p => Obj.get (Names.extractExpAttributeNamesFromExpression p) k
      | None => None
      end
  end.
Proof.
  intros Hn Hnd. unfold Get.buildGetCommandInput.
  cbn [Get.ProjectionExpression Get.ExpressionAttributeNames].
  rewrite UpdateMore.or_empty_attach, Hn. cbn [Obj.or_empty].
  rewrite ObjMore.get_assign by exact Hnd.
  destruct (Obj.get names k); [reflexivity |].
  destruct (Get.projectionExpression input) as [p |]; [| reflexivity].
  destruct (Str.truthy p); [| reflexivity].
  destruct (Str.truthy
              (Reserved.replaceReservedKeywordsFromProjection
                 RESERVED_KEYWORDS p)) eqn:Hq;
    [apply assign_nil, extracted_NoDup |].
  cbn [Obj.assign fold_left Obj.get].
  unfold Str.truthy in Hq. apply negb_false_iff, String.eqb_eq in Hq.
  now rewrite Hq.
Qed.

End WithKeywords.

(** The name map of a put command holds every name of the caller; without
    a condition and without names there is no name map; and the command
    never carries an empty name or value map. *)
Theorem put_names_and_values
    (input : Put.CustomPutCommandInput) :
  (forall names k v,
     Put.expressionAttributeNames input = Some names ->
     NoDup (Obj.keys names) ->
     Obj.get names k = Some v ->
     Obj.get
       (Obj.or_empty (Put.ExpressionAttributeNames
                        (Put.buildPutCommandInput input))) k = Some v) /\
  (Str.otruthy (Put.conditionExpression input) = false ->
   Obj.is_empty (Obj.or_empty (Put.expressionAttributeNames input)) = true ->
   Put.ExpressionAttributeNames (Put.buildPutCommandInput input) = None) /\
  Put.ExpressionAttributeNames (Put.buildPutCommandInput input) <> Some [] /\
  Put.ExpressionAttributeValues (Put.buildPutCommandInput input) <> Some [].
Proof.
  unfold Put.buildPutCommandInput.
  cbn [Put.ExpressionAttributeNames Put.ExpressionAttributeValues].
  split; [| split; [| split]].
  - intros names k v Hn Hnd Hg. rewrite Hn.
    destruct names as [| entry names]; [discriminate Hg |].
    rewrite orb_true_r. rewrite UpdateMore.or_empty_attach.
    cbn [Obj.or_empty]. rewrite ObjMore.get_assign by exact Hnd.
    now rewrite Hg.
  - intros Hc Hn. rewrite Hc.
    destruct (Put.expressionAttributeNames input) as [[| ? ?] |];
      try discriminate Hn; reflexivity.
  - destruct (_ || _)%bool; [| discriminate].
    unfold Update.attach.
    match goal with |- context [Obj.is_empty ?o] => destruct o end;
      discriminate.
  - destruct (Put.expressionAttributeValues input) as [[| ? ?] |];
      discriminate.
Qed.

Lemma put_names_and_values_witness :
  Obj.get
    (Obj.or_empty
       (Put.ExpressionAttributeNames
          (Put.buildPutCommandInput
             {| Put.tableName := "Users";
                Put.item := [("userId", VStr "123")];
                Put.conditionExpression := Some "attribute_not_exists(#id)";
                Put.expressionAttributeNames := Some [("#id", "userId")];
                Put.expressionAttributeValues := None;
                Put.returnValues := None;
                Put.returnConsumedCapacity := None;
                Put.returnItemCollectionMetrics := None |}))) "#id"
  = Some "userId".
Proof.
  exact (proj1 (put_names_and_values
                  {| Put.tableName := "Users";
                     Put.item := [("userId", VStr "123")];
                     Put.conditionExpression :=
                       Some "attribute_not_exists(#id)";
                     Put.expressionAttributeNames := Some [("#id", "userId")];
                     Put.expressionAttributeValues := None;
                     Put.returnValues := None;
                     Put.returnConsumedCapacity := None;
                     Put.returnItemCollectionMetrics := None |})
           [("#id", "userId")] "#id" "userId" eq_refl
           ltac:(repeat constructor; simpl; tauto) eq_refl).
Defined.

Lemma reserved_projection_items_bound_witness :
  Get.ProjectionExpression
    (Get.buildGetCommandInput Sample.RESERVED_KEYWORDS
       {| Get.tableName := "Users"; Get.key := [("userId", VStr "123")];
          Get.projectionExpression := Some "email, Name ,age";
          Get.expressionAttributeNames := None;
          Get.consistentRead := None;
          Get.returnConsumedCapacity := None |})
    = Some "email, #Name, age" /\
  Obj.has
    (Obj.or_empty
       (Get.ExpressionAttributeNames
          (Get.buildGetCommandInput Sample.RESERVED_KEYWORDS
             {| Get.tableName := "Users"; Get.key := [("userId", VStr "123")];
                Get.projectionExpression := Some "email, Name ,age";
                Get.expressionAttributeNames := None;
                Get.consistentRead := None;
                Get.returnConsumedCapacity := None |})))
    "#Name" = true.
Proof.
  exact (@reserved_projection_items_bound Sample.RESERVED_KEYWORDS
           {| Get.tableName := "Users"; Get.key := [("userId", VStr "123")];
              Get.projectionExpression := Some "email, Name ,age";
              Get.expressionAttributeNames := None;
              Get.consistentRead := None;
              Get.returnConsumedCapacity := None |}
           "email, Name ,age" " Name "
           eq_refl ltac:(simpl; tauto) eq_refl eq_refl).
Defined.

Lemma get_names_overridden_witness :
  Obj.get
    (Obj.or_empty
       (Get.ExpressionAttributeNames
          (Get.buildGetCommandInput Sample.RESERVED_KEYWORDS
             {| Get.tableName := "Users"; Get.key := [("userId", VStr "123")];
                Get.projectionExpression := Some "name, size";
                Get.expressionAttributeNames := Some [("#name", "fullName")];
                Get.consistentRead := None;
                Get.returnConsumedCapacity := None |}))) "#name"
  = Some "fullName".
Proof.
  exact (@get_names_overridden Sample.RESERVED_KEYWORDS
           {| Get.tableName := "Users"; Get.key := [("userId", VStr "123")];
              Get.projectionExpression := Some "name, size";
              Get.expressionAttributeNames := Some [("#name", "fullName")];
              Get.consistentRead := None;
              Get.returnConsumedCapacity := None |}
           [("#name", "fullName")] "#name" eq_refl
           ltac:(repeat constructor; simpl; tauto)).
Defined.

End GetPutMore.

(* ================================================================== *)
(** * Further properties: key value coercion *)
(* ================================================================== *)

Module KeyValueMore.

Section WithBuiltins.

Variable Number : string -> float.
Variable JSON_parse : string -> option jsval.
Variable Buffer_from_base64 : string -> string.

(** Key coercion fails in two situations only: the key type is none of the
    nine handled ones, or it is [M] or [L] and the key is no JSON text.  In
    particular a key of type [N] is never refused, whatever its text. *)
Theorem key_coercion_failures (key keyType : string) :
  is_ok (KeyValue.parseDynamoKeyValue Number JSON_parse Buffer_from_base64
           key keyType) = false <->
  Str.mem keyType ["S"; "N"; "BOOL"; "NULL"; "M"; "L"; "SS"; "NS"; "BS"]
    = false \/
  (Str.mem keyType ["M"; "L"] = true /\ JSON_parse key = None).
Proof.
  unfold KeyValue.parseDynamoKeyValue, Str.mem. cbn [existsb].
  destruct (String.eqb keyType "S") eqn:ES.
  { simpl. apply String.eqb_eq in ES. subst keyType. simpl.
    split; [discriminate | intros [? | [? _]]; discriminate]. }
  destruct (String.eqb keyType "N") eqn:EN.
  { simpl. apply String.eqb_eq in EN. subst keyType. simpl.
    split; [discriminate | intros [? | [? _]]; discriminate]. }
  destruct (String.eqb keyType "BOOL") eqn:EB.
  { simpl. apply String.eqb_eq in EB. subst keyType. simpl.
    split; [discriminate | intros [? | [? _]]; discriminate]. }
  destruct (String.eqb keyType "NULL") eqn:EU.
  { simpl. apply String.eqb_eq in EU. subst keyType. simpl.
    split; [discriminate | intros [? | [? _]]; discriminate]. }
  destruct (String.eqb keyType "M") eqn:EM.
  { simpl. destruct (JSON_parse key); simpl.
    - split; [discriminate | intros [? | [_ ?]]; discriminate].
    - split; [now right | reflexivity]. }
  destruct (String.eqb keyType "L") eqn:EL.
  { simpl. destruct (JSON_parse key); simpl.
    - split; [discriminate | intros [? | [_ ?]]; discriminate].
    - split; [now right | reflexivity]. }
  destruct (String.eqb keyType "SS") eqn:ESS.
  { simpl. split; [discriminate | intros [? | [? _]]; discriminate]. }
  destruct (String.eqb keyType "NS") eqn:ENS.
  { simpl. split; [discriminate | intros [? | [? _]]; discriminate]. }
  destruct (String.eqb keyType "BS") eqn:EBS.
  { simpl. split; [discriminate | intros [? | [? _]]; discriminate]. }
  simpl. split; [now left | reflexivity].
Qed.

End WithBuiltins.

Lemma key_coercion_failures_witness :
  is_ok (KeyValue.parseDynamoKeyValue Sample.Number Sample.JSON_parse
           Sample.Buffer_from_base64 "AQID" "B") = false.
Proof.
  exact (proj2 (key_coercion_failures Sample.Number Sample.JSON_parse
                  Sample.Buffer_from_base64 "AQID" "B")
           (or_introl eq_refl)).
Defined.

End KeyValueMore.
